(** * read-sequences: FASTA records, embedded collection dates, count summaries

    A shallow embedding of [bin/read-sequences.py].  The script reads FASTA
    records, cuts a date out of every record label with a regular expression,
    builds a table with one row per record, writes the table in one of three
    formats and, on request, three count summaries grouped by year, by year
    and month, and by year, month and day.

    Layout: Python strings and the string operations the script uses; the
    regular-expression search; the rows built by [parse_sequences]; the part
    of pandas the script calls ([DataFrame], [groupby], [to_json], [to_csv]);
    the command line; the effects of [main] as a state-and-exception monad
    over a small world; then the theorems. *)

From Stdlib Require Import String Ascii DecimalString.
From Stdlib Require Import List NArith ZArith Bool Lia Sorted Permutation.
Import ListNotations.

(** ** Python strings

    A Python 3 [str] is a sequence of Unicode code points.  String literals of
    the script are written with [u]. *)

Definition codepoint := N.
Definition pystr := list codepoint.

Definition u (s : string) : pystr := map N_of_ascii (list_ascii_of_string s).

Fixpoint pystr_eqb (a b : pystr) : bool :=
  match a, b with
  | [], [] => true
  | x :: a', y :: b' => N.eqb x y && pystr_eqb a' b'
  | _, _ => false
  end.

Definition dash : codepoint := 45%N.

(** [s.split(sep)] for a separator of one character: the pieces between the
    occurrences of [sep]; a string without [sep] is its own single piece. *)
Fixpoint split (sep : codepoint) (s : pystr) : list pystr :=
  match s with
  | [] => [[]]
  | c :: s' =>
      if N.eqb c sep then [] :: split sep s'
      else match split sep s' with
           | p :: ps => (c :: p) :: ps
           | [] => [[c]]
           end
  end.

(** [sep.join(parts)] *)
Fixpoint join (sep : pystr) (parts : list pystr) : pystr :=
  match parts with
  | [] => []
  | [p] => p
  | p :: ps => p ++ sep ++ join sep ps
  end.

(** [str(n)] and the [{n}] of an f-string, for an int. *)
Definition str_of_int (n : Z) : pystr := u (NilEmpty.string_of_int (Z.to_int n)).

(** ** Regular expressions

    The one pattern of the script, [(\d{4}-\d{2}-\d{2})], is a sequence of
    atoms that each consume exactly one character, wrapped in one group that
    spans the whole match.  [\d] on a [str] pattern matches every character of
    the Unicode category Nd; which code points those are depends on the
    Unicode tables of the interpreter, so the class is a parameter
    [isdecimal], known to be [0-9] on the ASCII range. *)

Module Re.

Inductive atom : Type :=
| Digit              (* \d *)
| Lit (c : codepoint). (* a literal character *)

Definition regex := list atom.

Section Matching.
Variable isdecimal : codepoint -> bool.

Definition atom_matches (a : atom) (c : codepoint) : bool :=
  match a with
  | Digit => isdecimal c
  | Lit c' => N.eqb c c'
  end.

(** The match of [p] that starts at the first character of [s]. *)
Fixpoint match_here (p : regex) (s : pystr) : option pystr :=
  match p with
  | [] => Some []
  | a :: p' =>
      match s with
      | [] => None
      | c :: s' =>
          if atom_matches a c
          then option_map (cons c) (match_here p' s')
          else None
      end
  end.

(** [re.search(p, s)]: scan the start positions from left to right and
    return the first match; the result is [group(1)], the matched text. *)
Fixpoint search (p : regex) (s : pystr) : option pystr :=
  match match_here p s with
  | Some m => Some m
  | None =>
      match s with
      | [] => None
      | _ :: s' => search p s'
      end
  end.
End Matching.

(** [r'(\d{4}-\d{2}-\d{2})'] *)
Definition date_pattern : regex :=
  repeat Digit 4 ++ [Lit dash] ++ repeat Digit 2 ++ [Lit dash] ++ repeat Digit 2.

End Re.

(** The ASCII digits, the part of [\d] that every Unicode version shares. *)
Definition ascii_digit (c : codepoint) : bool := (N.leb 48 c && N.leb c 57)%N.

(** ** Date extraction

    [parse_date_from_label], lines 11-15 of the script. *)

Section DateExtractor.
Variable isdecimal : codepoint -> bool.

Definition parse_date_from_label (label : pystr) : pystr :=
  match Re.search isdecimal Re.date_pattern label with
  | Some m => m
  | None => u "N/A"
  end.
End DateExtractor.

(** ** Values, rows and tables *)

(** The cell values the script produces: [str], [int], and the [NaN] pandas
    puts where a row has no value for a column. *)
Inductive value : Type :=
| VStr (s : pystr)
| VInt (n : Z)
| NaN.

(** A [dict] with string keys, in insertion order. *)
Definition pydict := list (pystr * value).

Fixpoint dict_get (d : pydict) (k : pystr) : option value :=
  match d with
  | [] => None
  | (k', v) :: d' => if pystr_eqb k k' then Some v else dict_get d' k
  end.

(** A record of [SeqIO.parse(file, 'fasta')]: [record.id] and [record.seq]. *)
Record SeqRecord : Type := { id : pystr; seq : pystr }.

(** An input handle: [sys.stdin], or the object returned by [open(path, 'r')],
    which carries the records the file holds when it is opened. *)
Inductive File : Type :=
| sys_stdin
| TextIO (fileno : nat) (path : pystr) (content : list SeqRecord).

(** [file.name] *)
Definition file_name (f : File) : pystr :=
  match f with
  | sys_stdin => u "<stdin>"
  | TextIO _ p _ => p
  end.

(** [file is sys.stdin] *)
Definition is_sys_stdin (f : File) : bool :=
  match f with sys_stdin => true | TextIO _ _ _ => false end.

Definition not_available : pystr := u "N/A".

Inductive exn : Type :=
| SystemExit (code : Z)            (* argparse: usage error *)
| FileNotFoundError (path : pystr) (* open() *)
| IndexError                       (* list subscript *)
| KeyError (key : pystr)           (* a missing column, a missing keyword *)
| ValueError                       (* str.format *)
| AttributeError                   (* str.format *)
| TypeError                        (* str.format *)
| MemoryError                      (* str.format *)
| OSError (path : pystr).          (* open(path, 'w') *)

(** What [str.format] raises on a template it cannot fill from its
    arguments: [ValueError] for a malformed field or a numbered one mixed
    with [{}], [IndexError] where no argument is left for a field,
    [KeyError] for a field with a name, [AttributeError] or [TypeError] for
    an attribute or an index its argument lacks, [MemoryError] for a width
    beyond memory. *)
Inductive format_error : Type :=
| FormatValueError
| FormatIndexError
| FormatKeyError (name : pystr)
| FormatAttributeError
| FormatTypeError
| FormatMemoryError.

Definition exception_of (f : format_error) : exn :=
  match f with
  | FormatValueError => ValueError
  | FormatIndexError => IndexError
  | FormatKeyError name => KeyError name
  | FormatAttributeError => AttributeError
  | FormatTypeError => TypeError
  | FormatMemoryError => MemoryError
  end.

(** [l[i]] *)
Definition getitem (l : list pystr) (i : nat) : exn + pystr :=
  match nth_error l i with
  | Some x => inr x
  | None => inl IndexError
  end.

(** The ten columns, in the order of the dict literal of [parse_sequences]. *)
Definition sequenceLabel := u "sequenceLabel".
Definition sequenceCharacters := u "sequenceCharacters".
Definition sequenceDateISO := u "sequenceDateISO".
Definition sequenceDateYear := u "sequenceDateYear".
Definition sequenceDateMonth := u "sequenceDateMonth".
Definition sequenceDateDay := u "sequenceDateDay".
Definition sequenceLengthMin := u "sequenceLengthMin".
Definition sequenceLengthMax := u "sequenceLengthMax".
Definition sequenceSourcePath := u "sequenceSourcePath".
Definition sequenceSourceOffset := u "sequenceSourceOffset".

Definition sequence_fields : list pystr :=
  [sequenceLabel; sequenceCharacters; sequenceDateISO; sequenceDateYear;
   sequenceDateMonth; sequenceDateDay; sequenceLengthMin; sequenceLengthMax;
   sequenceSourcePath; sequenceSourceOffset].

Section Rows.
Variable isdecimal : codepoint -> bool.

(** [date.split('-')[i] if date != 'N/A' else 'N/A'] *)
Definition date_part (date : pystr) (i : nat) : exn + pystr :=
  if negb (pystr_eqb date not_available)
  then getitem (split dash date) i
  else inr not_available.

(** One pass of the inner loop body of [parse_sequences]: the dict appended
    to [sequences] for [record], found at position [record_idx] of [file]. *)
Definition sequence_row (file : File) (record_idx : nat) (record : SeqRecord)
  : exn + pydict :=
  let date := parse_date_from_label isdecimal (id record) in
  let sequence := seq record in
  match date_part date 0 with
  | inl e => inl e
  | inr year =>
  match date_part date 1 with
  | inl e => inl e
  | inr month =>
  match date_part date 2 with
  | inl e => inl e
  | inr day =>
      inr [ (sequenceLabel, VStr (id record));
            (sequenceCharacters, VStr sequence);
            (sequenceDateISO, VStr date);
            (sequenceDateYear, VStr year);
            (sequenceDateMonth, VStr month);
            (sequenceDateDay, VStr day);
            (sequenceLengthMin, VInt (Z.of_nat (length sequence)));
            (sequenceLengthMax, VInt (Z.of_nat (length sequence)));
            (sequenceSourcePath,
              VStr (if negb (pystr_eqb (file_name file) (u "<stdin>"))
                    then file_name file else u "standard input"));
            (sequenceSourceOffset, VInt (Z.of_nat record_idx)) ]
  end end end.
End Rows.

(** *** The part of pandas the script uses *)

Record DataFrame : Type := { columns : list pystr; rows : list (list value) }.

Definition mem (k : pystr) (ks : list pystr) : bool := existsb (pystr_eqb k) ks.

(** [pd.DataFrame(data)] for a list of dicts: the columns are the keys in the
    order they are first met, the empty list gives a table without columns,
    and a row has [NaN] where its dict lacks a column. *)
Definition add_keys (cols : list pystr) (d : pydict) : list pystr :=
  fold_left (fun cols k => if mem k cols then cols else cols ++ [k])
            (map fst d) cols.

Definition cell (d : pydict) (c : pystr) : value :=
  match dict_get d c with
  | Some v => v
  | None => NaN
  end.

Definition DataFrame_of_dicts (data : list pydict) : DataFrame :=
  let cols := fold_left add_keys data [] in
  {| columns := cols; rows := map (fun d => map (cell d) cols) data |}.

(** [len(df)] *)
Definition len (df : DataFrame) : nat := length (rows df).

Fixpoint index_of (c : pystr) (cols : list pystr) : option nat :=
  match cols with
  | [] => None
  | c' :: cols' =>
      if pystr_eqb c c' then Some 0 else option_map S (index_of c cols')
  end.

(** The positions of the grouping columns; a name that is not a column of the
    table raises [KeyError]. *)
Fixpoint locate (cols : list pystr) (by_ : list pystr) : exn + list nat :=
  match by_ with
  | [] => inr []
  | c :: by' =>
      match index_of c cols with
      | None => inl (KeyError c)
      | Some i =>
          match locate cols by' with
          | inl e => inl e
          | inr idx => inr (i :: idx)
          end
      end
  end.

(** The order in which group keys are sorted: strings by code point, ints by
    value.  The script only groups on string columns; the order between
    values of different kinds is fixed here to make the comparison total. *)
Definition value_compare (a b : value) : comparison :=
  match a, b with
  | VInt x, VInt y => Z.compare x y
  | VStr x, VStr y => list_compare N.compare x y
  | NaN, NaN => Eq
  | VInt _, _ => Lt
  | _, VInt _ => Gt
  | VStr _, NaN => Lt
  | NaN, VStr _ => Gt
  end.

Definition key := list value.
Definition key_compare : key -> key -> comparison := list_compare value_compare.

(** Count one more row under [k], keeping the groups in ascending key order. *)
Fixpoint bump (k : key) (groups : list (key * nat)) : list (key * nat) :=
  match groups with
  | [] => [(k, 1)]
  | (k', n) :: groups' =>
      match key_compare k k' with
      | Eq => (k', S n) :: groups'
      | Lt => (k, 1) :: groups
      | Gt => (k', n) :: bump k groups'
      end
  end.

Definition is_nan (v : value) : bool :=
  match v with NaN => true | _ => false end.

Definition row_key (idx : list nat) (row : list value) : key :=
  map (fun i => nth i row NaN) idx.

(** [df.groupby(by).size()]: the number of rows per distinct key, keys
    ascending ([sort=True]), rows with a [NaN] in the key left out
    ([dropna=True]). *)
Definition groupby_size (df : DataFrame) (by_ : list pystr)
  : exn + list (key * nat) :=
  match locate (columns df) by_ with
  | inl e => inl e
  | inr idx =>
      let keys := map (row_key idx) (rows df) in
      let kept := filter (fun k => negb (existsb is_nan k)) keys in
      inr (fold_left (fun groups k => bump k groups) kept [])
  end.

(** [series.reset_index(name=name)]: key columns first, then the counts. *)
Definition reset_index (by_ : list pystr) (name : pystr)
  (series : list (key * nat)) : DataFrame :=
  {| columns := by_ ++ [name];
     rows := map (fun g => fst g ++ [VInt (Z.of_nat (snd g))]) series |}.

(** What a serializer call hands to the output: [JsonLines] for
    [to_json(..., orient='records', lines=True)], one object per row with the
    fields in column order; [Delimited] for [to_csv(..., index=False, sep=...)],
    a header line and one line per row. *)
Inductive rendering : Type :=
| JsonLines (objects : list (list (pystr * value)))
| Delimited (sep : codepoint) (header : list pystr) (body : list (list value)).

Definition to_json (df : DataFrame) : rendering :=
  JsonLines (map (combine (columns df)) (rows df)).

Definition to_csv (sep : codepoint) (df : DataFrame) : rendering :=
  Delimited sep (columns df) (rows df).

Definition comma : codepoint := 44%N.
Definition tab : codepoint := 9%N.
Definition newline : codepoint := 10%N.

(** The bytes of a rendering.  How pandas escapes one string inside JSON and
    how it quotes one field of a delimited line are parameters. *)
Section Bytes.
Variable json_string : pystr -> pystr.
Variable csv_field : codepoint -> pystr -> pystr.

Definition json_value (v : value) : pystr :=
  match v with
  | VStr s => json_string s
  | VInt n => str_of_int n
  | NaN => u "null"
  end.

Definition json_object (o : list (pystr * value)) : pystr :=
  u "{" ++ join (u ",")
             (map (fun kv => json_string (fst kv) ++ u ":" ++ json_value (snd kv)) o)
       ++ u "}".

Definition csv_value (sep : codepoint) (v : value) : pystr :=
  match v with
  | VStr s => csv_field sep s
  | VInt n => str_of_int n
  | NaN => []
  end.

Definition lines (ls : list pystr) : pystr :=
  concat (map (fun l => l ++ [newline]) ls).

(** [to_json(lines=True)] puts a newline between the objects and one at the
    end, so a table without rows is written as one newline; [to_csv] ends
    every line, the header first. *)
Definition bytes_of (r : rendering) : pystr :=
  match r with
  | JsonLines objects => join [newline] (map json_object objects) ++ [newline]
  | Delimited sep header body =>
      lines (join [sep] (map (csv_field sep) header)
             :: map (fun row => join [sep] (map (csv_value sep) row)) body)
  end.
End Bytes.

(** ** The world of one run *)

Inductive dest : Type :=
| Stdout
| Path (p : pystr).

Inductive stderr_item : Type :=
| Printed (line : pystr)              (* print(line, file=sys.stderr) *)
| Usage (argument bad : pystr)        (* argparse: usage and the value [bad]
                                         refused for [argument] *)
| Unrecognized (arguments : list pystr). (* argparse: usage and
                                            "unrecognized arguments" *)

Record World : Type := {
  disk : list (pystr * list SeqRecord); (* the files that exist, with the records
                                           a FASTA parse finds in each *)
  stdin_records : list SeqRecord;       (* what standard input still holds *)
  open_files : list File;               (* opened by [open] and not closed *)
  next_fileno : nat;
  stderr : list stderr_item;
  written : list (dest * rendering);    (* serializer calls, oldest first *)
  unwritable : list pystr;              (* the paths [open(path, 'w')] fails on:
                                           in a directory that does not exist,
                                           a directory, not permitted *)
  format_raises : pystr -> pystr -> format_error;
                                        (* what [template.format(argument)]
                                           raises when it fails *)
  realpath : pystr -> pystr             (* the file a path names: two paths
                                           name one file when they have the
                                           same [realpath]; [disk] is keyed
                                           by it *)
}.

Fixpoint disk_get (d : list (pystr * list SeqRecord)) (p : pystr)
  : option (list SeqRecord) :=
  match d with
  | [] => None
  | (p', c) :: d' => if pystr_eqb p p' then Some c else disk_get d' p
  end.

(** A computation of the script: it reads and changes the world and either
    returns a value or raises; the world reached when it raises is kept. *)
Definition M (A : Type) : Type := World -> (exn + A) * World.

Definition ret {A} (a : A) : M A := fun w => (inr a, w).

Definition raise {A} (e : exn) : M A := fun w => (inl e, w).

Definition bind {A B} (c : M A) (k : A -> M B) : M B :=
  fun w =>
    match c w with
    | (inl e, w') => (inl e, w')
    | (inr a, w') => k a w'
    end.

Declare Scope py_scope.
Delimit Scope py_scope with py.
Notation "x <- c1 ;; c2" := (bind c1 (fun x => c2))
  (at level 61, c1 at next level, right associativity) : py_scope.
Notation "c1 ;; c2" := (bind c1 (fun _ => c2))
  (at level 61, right associativity) : py_scope.
Local Open Scope py_scope.

(** A pure computation that may raise. *)
Definition lift {A} (r : exn + A) : M A := fun w => (r, w).

(** [for x in l: s = body(s, x)] *)
Fixpoint foldM {A S} (body : S -> A -> M S) (l : list A) (s : S) : M S :=
  match l with
  | [] => ret s
  | x :: l' => s' <- body s x ;; foldM body l' s'
  end.

(** [for x in l: body(x)] *)
Fixpoint for_each {A} (l : list A) (body : A -> M unit) : M unit :=
  match l with
  | [] => ret tt
  | x :: l' => body x ;; for_each l' body
  end.

(** [[f(x) for x in l]] *)
Fixpoint mapM {A B} (f : A -> M B) (l : list A) : M (list B) :=
  match l with
  | [] => ret []
  | x :: l' => y <- f x ;; ys <- mapM f l' ;; ret (y :: ys)
  end.

(** [print(line, file=sys.stderr)] *)
Definition print (line : pystr) : M unit :=
  fun w => (inr tt,
            {| disk := disk w; stdin_records := stdin_records w;
               open_files := open_files w; next_fileno := next_fileno w;
               stderr := stderr w ++ [Printed line]; written := written w;
               unwritable := unwritable w; format_raises := format_raises w;
               realpath := realpath w |}).

(** [open(path, 'r')] *)
Definition open_r (path : pystr) : M File :=
  fun w =>
    match disk_get (disk w) (realpath w path) with
    | None => (inl (FileNotFoundError path), w)
    | Some content =>
        let f := TextIO (next_fileno w) path content in
        (inr f,
         {| disk := disk w; stdin_records := stdin_records w;
            open_files := open_files w ++ [f];
            next_fileno := S (next_fileno w);
            stderr := stderr w; written := written w;
               unwritable := unwritable w; format_raises := format_raises w;
               realpath := realpath w |})
    end.

Definition File_eqb (f g : File) : bool :=
  match f, g with
  | sys_stdin, sys_stdin => true
  | TextIO n _ _, TextIO m _ _ => Nat.eqb n m
  | _, _ => false
  end.

(** [file.close()] *)
Definition close (f : File) : M unit :=
  fun w => (inr tt,
            {| disk := disk w; stdin_records := stdin_records w;
               open_files := filter (fun g => negb (File_eqb f g)) (open_files w);
               next_fileno := next_fileno w;
               stderr := stderr w; written := written w;
               unwritable := unwritable w; format_raises := format_raises w;
               realpath := realpath w |}).

(** [SeqIO.parse(file, 'fasta')], run to its end: a named file gives the
    records it held when opened; standard input gives what is still unread
    and is left empty. *)
Definition SeqIO_parse (f : File) : M (list SeqRecord) :=
  match f with
  | TextIO _ _ content => ret content
  | sys_stdin =>
      fun w => (inr (stdin_records w),
                {| disk := disk w; stdin_records := [];
                   open_files := open_files w; next_fileno := next_fileno w;
                   stderr := stderr w; written := written w;
               unwritable := unwritable w; format_raises := format_raises w;
               realpath := realpath w |})
  end.

(** A serializer call given the handle [d], which is open: it writes [r]. *)
Definition write (d : dest) (r : rendering) : M unit :=
  fun w => (inr tt,
            {| disk := disk w; stdin_records := stdin_records w;
               open_files := open_files w; next_fileno := next_fileno w;
               stderr := stderr w; written := written w ++ [(d, r)];
               unwritable := unwritable w; format_raises := format_raises w;
               realpath := realpath w |}).

(** A serializer call given the path [filename]: pandas opens the file for
    writing, which raises [OSError] where it cannot be opened, and writes [r]
    to it. *)
Definition write_path (filename : pystr) (r : rendering) : M unit :=
  fun w =>
    if mem filename (unwritable w)
    then (inl (OSError filename), w)
    else write (Path filename) r w.

(** [enumerate(l)] *)
Definition enumerate {A} (l : list A) : list (nat * A) :=
  combine (List.seq 0 (length l)) l.

(** ** [parse_sequences]

    Lines 18-41 of the script.  The two lists the function appends to are the
    state of the two loops. *)

Section ParseSequences.
Variable isdecimal : codepoint -> bool.

Definition parse_sequences (files : list File) : M (list pydict * list pystr) :=
  foldM
    (fun acc file =>
       (if pystr_eqb (file_name file) (u "<stdin>")
        then print (u "(reading from standard input)")
        else ret tt) ;;
       records <- SeqIO_parse file ;;
       foldM
         (fun acc ir =>
            let '(sequences, unknown_labels) := acc in
            let '(record_idx, record) := ir in
            let date := parse_date_from_label isdecimal (id record) in
            let unknown_labels :=
              if pystr_eqb date not_available
              then unknown_labels ++ [id record]
              else unknown_labels in
            row <- lift (sequence_row isdecimal file record_idx record) ;;
            ret (sequences ++ [row], unknown_labels))
         (enumerate records) acc)
    files ([], []).
End ParseSequences.

(** ** [output_summaries]

    Lines 44-59 of the script. *)

Definition lbrace : codepoint := 123%N.
Definition rbrace : codepoint := 125%N.

(** The literal text of a [str.format] template: [{{] and [}}] stand for one
    brace; [None] when a brace stands alone, which opens or closes a
    replacement field. *)
Fixpoint literal_text (s : pystr) : option pystr :=
  match s with
  | [] => Some []
  | c :: s' =>
      if N.eqb c lbrace || N.eqb c rbrace
      then match s' with
           | c' :: s'' =>
               if N.eqb c' c then option_map (cons c) (literal_text s'') else None
           | [] => None
           end
      else option_map (cons c) (literal_text s')
  end.

(** [f"{summarize_prefix}.{{}}"] *)
Definition base_filename (summarize_prefix : pystr) : pystr :=
  summarize_prefix ++ u ".{}".

(** [base_filename.format(summary_name)].  The template is the prefix followed
    by [.{}] and there is one argument, so a replacement field inside the
    prefix makes the call raise: it leaves no argument for the last field
    ([IndexError]), or names a keyword that is not there ([KeyError] of that
    name), or is numbered or malformed ([ValueError]), and so on.  Which of
    the exceptions of [format] it is, the world says. *)
Definition summary_filename (summarize_prefix summary_name : pystr) : M pystr :=
  fun w =>
    match literal_text summarize_prefix with
    | Some p => (inr (p ++ u "." ++ summary_name), w)
    | None => (inl (exception_of (format_raises w (base_filename summarize_prefix)
                                                summary_name)), w)
    end.

Definition NumSequences := u "NumSequences".

Definition summary_functions : list (pystr * list pystr) :=
  [ (u "yearly", [sequenceDateYear]);
    (u "monthly", [sequenceDateYear; sequenceDateMonth]);
    (u "daily", [sequenceDateYear; sequenceDateMonth; sequenceDateDay]) ].

Definition output_summaries (df : DataFrame) (summarize_prefix summarize_format : pystr)
  : M unit :=
  for_each summary_functions
    (fun item =>
       let '(summary_name, group_columns) := item in
       series <- lift (groupby_size df group_columns) ;;
       let summary_df := reset_index group_columns NumSequences series in
       filename <- summary_filename summarize_prefix summary_name ;;
       if pystr_eqb summarize_format (u "json")
       then write_path filename (to_json summary_df)
       else if pystr_eqb summarize_format (u "csv")
       then write_path filename (to_csv comma summary_df)
       else if pystr_eqb summarize_format (u "tsv")
       then write_path filename (to_csv tab summary_df)
       else ret tt).

(** ** The command line

    The arguments as argparse consumes them, one item per positional argument
    or option occurrence, in command-line order. *)
Inductive token : Type :=
| Positional (path : pystr)
| OutputFilepath (path : pystr)   (* -o, --output-filepath *)
| OutputFormat (v : pystr)        (* -f, --output-format *)
| Summarize (prefix : pystr)      (* -s, --summarize *)
| SummarizeFormat (v : pystr).    (* --summarize-format *)

Record Namespace : Type := {
  paths : list pystr;
  output_filepath : dest;
  output_format : pystr;
  summarize : option pystr;
  summarize_format : option pystr
}.

Definition format_choices : list pystr := [u "json"; u "csv"; u "tsv"].

(** The error of an argument whose value argparse refuses (outside its
    [choices], or a path [FileType] cannot open): a usage message on standard
    error and exit status 2. *)
Definition usage_error {A} (argument bad : pystr) : M A :=
  fun w => (inl (SystemExit 2),
            {| disk := disk w; stdin_records := stdin_records w;
               open_files := open_files w; next_fileno := next_fileno w;
               stderr := stderr w ++ [Usage argument bad]; written := written w;
               unwritable := unwritable w; format_raises := format_raises w;
               realpath := realpath w |}).

(** The error of arguments left over: a usage message on standard error and
    exit status 2. *)
Definition unrecognized {A} (arguments : list pystr) : M A :=
  fun w => (inl (SystemExit 2),
            {| disk := disk w; stdin_records := stdin_records w;
               open_files := open_files w; next_fileno := next_fileno w;
               stderr := stderr w ++ [Unrecognized arguments]; written := written w;
               unwritable := unwritable w; format_raises := format_raises w;
               realpath := realpath w |}).

(** [argparse.FileType('w')(path)]: [-] is standard output, any other path is
    opened for writing, which creates the file or empties it; a path that
    cannot be opened is a usage error. *)
Definition FileType_w (path : pystr) : M dest :=
  if pystr_eqb path (u "-") then ret Stdout
  else fun w =>
         if mem path (unwritable w)
         then usage_error (u "-o/--output-filepath") path w
         else
           (inr (Path path),
            {| disk := (realpath w path, []) :: disk w;
               stdin_records := stdin_records w;
               open_files := open_files w; next_fileno := next_fileno w;
               stderr := stderr w; written := written w;
               unwritable := unwritable w; format_raises := format_raises w;
               realpath := realpath w |}).

(** The state of the parser between two arguments: the namespace so far;
    whether the positional argument [paths] has been filled, which is when an
    option follows the positional arguments it took; and the positional
    arguments met after that, which nothing takes. *)
Record Parser : Type := {
  namespace : Namespace;
  paths_filled : bool;
  extras : list pystr
}.

(** An option ends the positional arguments [paths] has taken, if any. *)
Definition after_option (st : Parser) : bool :=
  match paths (namespace st) with
  | [] => paths_filled st
  | _ :: _ => true
  end.

Definition consume (st : Parser) (t : token) : M Parser :=
  let ns := namespace st in
  match t with
  | Positional p =>
      if paths_filled st
      then ret {| namespace := ns; paths_filled := true;
                  extras := extras st ++ [p] |}
      else ret {| namespace :=
                    {| paths := paths ns ++ [p];
                       output_filepath := output_filepath ns;
                       output_format := output_format ns; summarize := summarize ns;
                       summarize_format := summarize_format ns |};
                  paths_filled := false; extras := extras st |}
  | OutputFilepath p =>
      d <- FileType_w p ;;
      ret {| namespace :=
               {| paths := paths ns; output_filepath := d;
                  output_format := output_format ns; summarize := summarize ns;
                  summarize_format := summarize_format ns |};
             paths_filled := after_option st; extras := extras st |}
  | OutputFormat v =>
      if mem v format_choices
      then ret {| namespace :=
                    {| paths := paths ns; output_filepath := output_filepath ns;
                       output_format := v; summarize := summarize ns;
                       summarize_format := summarize_format ns |};
                  paths_filled := after_option st; extras := extras st |}
      else usage_error (u "-f/--output-format") v
  | Summarize v =>
      ret {| namespace :=
               {| paths := paths ns; output_filepath := output_filepath ns;
                  output_format := output_format ns; summarize := Some v;
                  summarize_format := summarize_format ns |};
             paths_filled := after_option st; extras := extras st |}
  | SummarizeFormat v =>
      if mem v format_choices
      then ret {| namespace :=
                    {| paths := paths ns; output_filepath := output_filepath ns;
                       output_format := output_format ns; summarize := summarize ns;
                       summarize_format := Some v |};
                  paths_filled := after_option st; extras := extras st |}
      else usage_error (u "--summarize-format") v
  end.

(** [parser.parse_args()]: the arguments are taken in the order they are
    given, the options converted and checked as they come; [paths] takes the
    first run of positional arguments and no later one, and a positional
    argument left over is an error once all arguments are seen; [paths]
    defaults to [['-']], the output to standard output, the format to
    [json]. *)
Definition parse_args (argv : list token) : M Namespace :=
  st <- foldM consume argv
          {| namespace :=
               {| paths := []; output_filepath := Stdout; output_format := u "json";
                  summarize := None; summarize_format := None |};
             paths_filled := false; extras := [] |} ;;
  let ns := namespace st in
  match extras st with
  | [] =>
      ret {| paths := match paths ns with [] => [u "-"] | _ => paths ns end;
             output_filepath := output_filepath ns;
             output_format := output_format ns; summarize := summarize ns;
             summarize_format := summarize_format ns |}
  | _ :: _ => unrecognized (extras st)
  end.

(** The truth value of an optional string: [None] and [''] are false. *)
Definition truthy (o : option pystr) : bool :=
  match o with
  | Some (_ :: _) => true
  | _ => false
  end.

Definition or_empty (o : option pystr) : pystr :=
  match o with Some s => s | None => [] end.

(** ** [main]

    Lines 62-103 of the script, stage by stage under the comments of the
    source. *)

Section Main.
Variable isdecimal : codepoint -> bool.

Definition main (argv : list token) : M unit :=
  args <- parse_args argv ;;
  (* Open input files *)
  input_files <- mapM (fun file => if negb (pystr_eqb file (u "-"))
                                   then open_r file else ret sys_stdin)
                      (paths args) ;;
  (* Parse sequences *)
  parsed <- parse_sequences isdecimal input_files ;;
  let '(sequences, unknown_labels) := parsed in
  let df := DataFrame_of_dicts sequences in
  (* Output *)
  (if pystr_eqb (output_format args) (u "json")
   then write (output_filepath args) (to_json df)
   else if pystr_eqb (output_format args) (u "csv")
   then write (output_filepath args) (to_csv comma df)
   else if pystr_eqb (output_format args) (u "tsv")
   then write (output_filepath args) (to_csv tab df)
   else ret tt) ;;
  (* Summarize *)
  (if truthy (summarize args)
   then
     let summary_format :=
       if truthy (summarize_format args)
       then or_empty (summarize_format args)
       else output_format args in
     output_summaries df (or_empty (summarize args)) summary_format
   else ret tt) ;;
  (* Report to standard error *)
  print (u "Total sequences read: " ++ str_of_int (Z.of_nat (length sequences))) ;;
  print (u "Total sequences parsed properly: "
         ++ str_of_int (Z.of_nat (len df) - Z.of_nat (length unknown_labels))) ;;
  print (u "Total unknown sequences: "
         ++ str_of_int (Z.of_nat (length unknown_labels))) ;;
  (match unknown_labels with
   | [] => ret tt
   | _ :: _ =>
       print (u "Unknown sequence labels:") ;;
       for_each unknown_labels print
   end) ;;
  (* Close input files: the loop names [file.close] and does not call it *)
  for_each input_files
    (fun file =>
       if negb (is_sys_stdin file)
       then let file_close := close file in ret tt
       else ret tt).
End Main.

(** ** Vocabulary of the specification *)

Section DateShape.
Variable isdecimal : codepoint -> bool.

Definition digits (s : pystr) : Prop := Forall (fun c => isdecimal c = true) s.

(** Four digits, a dash, two digits, a dash, two digits. *)
Definition date_shaped (m : pystr) : Prop :=
  exists y mo d,
    m = y ++ dash :: mo ++ dash :: d /\
    length y = 4 /\ length mo = 2 /\ length d = 2 /\
    digits y /\ digits mo /\ digits d.

(** [m] is the substring of [label] that starts at position [i]. *)
Definition occurs_at (m label : pystr) (i : nat) : Prop :=
  exists pre post, label = pre ++ m ++ post /\ length pre = i.

Definition contains_date (label : pystr) : Prop :=
  exists m i, date_shaped m /\ occurs_at m label i.

(** [m] is the date-shaped substring of [label] that starts first. *)
Definition leftmost_date (label m : pystr) : Prop :=
  exists i,
    date_shaped m /\ occurs_at m label i /\
    forall m' j, date_shaped m' -> occurs_at m' label j -> i <= j.

(** The labels without a date-shaped substring, each as often and in the
    order it stands in the list. *)
Inductive undated_labels : list pystr -> list pystr -> Prop :=
| undated_nil : undated_labels [] []
| undated_skip l ls us :
    contains_date l -> undated_labels ls us -> undated_labels (l :: ls) us
| undated_keep l ls us :
    ~ contains_date l -> undated_labels ls us ->
    undated_labels (l :: ls) (l :: us).
End DateShape.

(** The character [c] is one that the atom [a] matches. *)
Definition atom_fits (isdecimal : codepoint -> bool) (a : Re.atom) (c : codepoint)
  : Prop :=
  Re.atom_matches isdecimal a c = true.

(** [row] is the row [parse_sequences] builds for [record], at some position
    of some file. *)
Definition row_of (isdecimal : codepoint -> bool) (record : SeqRecord)
  (row : pydict) : Prop :=
  exists file idx, sequence_row isdecimal file idx record = inr row.

(** The string under key [k] of a row, [None] when the key is missing or holds
    another kind of value. *)
Definition field (row : pydict) (k : pystr) : option pystr :=
  match dict_get row k with
  | Some (VStr s) => Some s
  | _ => None
  end.

(** The labels of the rows whose [sequenceDateISO] is ['N/A'], in row order. *)
Definition unknown_rows (rows : list pydict) : list pystr :=
  flat_map
    (fun row =>
       match field row sequenceDateISO, field row sequenceLabel with
       | Some date, Some label =>
           if pystr_eqb date not_available then [label] else []
       | _, _ => []
       end)
    rows.

(** The records [parse_sequences] meets, in order: the files in the order
    given, standard input read once. *)
Fixpoint records_read (files : list File) (stdin : list SeqRecord)
  : list SeqRecord :=
  match files with
  | [] => []
  | sys_stdin :: files' => stdin ++ records_read files' []
  | TextIO _ _ content :: files' => content ++ records_read files' stdin
  end.

(** The records one file contributes when it is parsed in world [w]. *)
Definition rows_source (file : File) (w : World) : list SeqRecord :=
  match file with
  | sys_stdin => stdin_records w
  | TextIO _ _ content => content
  end.

(** The cells of a row of the record table: six strings, the length twice,
    the source and the offset. *)
Definition record_cells (cells : list value) : Prop :=
  exists label characters date year month day n source offset,
    cells = [VStr label; VStr characters; VStr date; VStr year; VStr month;
             VStr day; VInt n; VInt n; VStr source; VInt offset].

(** The positions in the record table of the columns of each summary. *)
Definition summary_columns (by_ : list pystr) (idx : list nat) : Prop :=
  (by_ = [sequenceDateYear] /\ idx = [3]) \/
  (by_ = [sequenceDateYear; sequenceDateMonth] /\ idx = [3; 4]) \/
  (by_ = [sequenceDateYear; sequenceDateMonth; sequenceDateDay] /\ idx = [3; 4; 5]).

(** Between two worlds only the written outputs grew, by [entries]. *)
Definition writes (w w' : World) (entries : list (dest * rendering)) : Prop :=
  written w' = written w ++ entries /\
  disk w' = disk w /\ stdin_records w' = stdin_records w /\
  open_files w' = open_files w /\ next_fileno w' = next_fileno w /\
  stderr w' = stderr w /\
  unwritable w' = unwritable w /\ format_raises w' = format_raises w.

(** Between two worlds only standard error grew, by [items]. *)
Definition prints (w w' : World) (items : list stderr_item) : Prop :=
  stderr w' = stderr w ++ items /\
  disk w' = disk w /\ stdin_records w' = stdin_records w /\
  open_files w' = open_files w /\ next_fileno w' = next_fileno w /\
  written w' = written w /\
  unwritable w' = unwritable w /\ format_raises w' = format_raises w.

(** A format option whose value is not one of the choices. *)
Definition invalid_token (t : token) : Prop :=
  match t with
  | OutputFormat v | SummarizeFormat v => mem v format_choices = false
  | _ => False
  end.

(** The value [bad] that argparse refuses for [argument] when it meets the
    option [t]: a format outside the choices, or an output path that cannot
    be opened for writing. *)
Definition refused (cannot_open : list pystr) (t : token) (argument bad : pystr)
  : Prop :=
  ((t = OutputFormat bad /\ argument = u "-f/--output-format" \/
    t = SummarizeFormat bad /\ argument = u "--summarize-format") /\
   mem bad format_choices = false) \/
  (t = OutputFilepath bad /\ argument = u "-o/--output-filepath" /\
   bad <> u "-" /\ mem bad cannot_open = true).

(** Both formats of a namespace are among the choices. *)
Definition formats_valid (ns : Namespace) : Prop :=
  mem (output_format ns) format_choices = true /\
  forall v, summarize_format ns = Some v -> mem v format_choices = true.

(** The report [main] prints at the end. *)
Definition report_lines (n_read n_parsed n_unknown : Z) (unknown_labels : list pystr)
  : list stderr_item :=
  [ Printed (u "Total sequences read: " ++ str_of_int n_read);
    Printed (u "Total sequences parsed properly: " ++ str_of_int n_parsed);
    Printed (u "Total unknown sequences: " ++ str_of_int n_unknown) ]
  ++ match unknown_labels with
     | [] => []
     | _ :: _ => Printed (u "Unknown sequence labels:") :: map Printed unknown_labels
     end.

(** The row is dated ['N/A']. *)
Definition is_unknown_row (row : pydict) : bool :=
  match field row sequenceDateISO with
  | Some date => pystr_eqb date not_available
  | None => false
  end.

(** The handles among [files] that [open] returned. *)
Definition named_files (files : list File) : list File :=
  filter (fun f => negb (is_sys_stdin f)) files.

(** The format [main] passes to [output_summaries]. *)
Definition summary_format_of (args : Namespace) : pystr :=
  if truthy (summarize_format args)
  then or_empty (summarize_format args)
  else output_format args.

(** The destinations written in a world, each with the bytes it received. *)
Definition output_bytes (json_string : pystr -> pystr)
  (csv_field : codepoint -> pystr -> pystr) (w : World) : list (dest * pystr) :=
  map (fun e => (fst e, bytes_of json_string csv_field (snd e))) (written w).

(** The three formats of the serializer. *)
Inductive serialized_as : pystr -> DataFrame -> rendering -> Prop :=
| as_json df : serialized_as (u "json") df (to_json df)
| as_csv df : serialized_as (u "csv") df (to_csv comma df)
| as_tsv df : serialized_as (u "tsv") df (to_csv tab df).

(** The table of one summary: the group keys with their counts. *)
Definition summary_table (df : DataFrame) (by_ : list pystr) : exn + DataFrame :=
  match groupby_size df by_ with
  | inl e => inl e
  | inr series => inr (reset_index by_ NumSequences series)
  end.

(** The three summary files of prefix [prefix] in format [fmt]. *)
Definition summary_entries (df : DataFrame) (prefix fmt : pystr)
  (entries : list (dest * rendering)) : Prop :=
  exists lit ty tm td ry rm rd,
    literal_text prefix = Some lit /\
    summary_table df [sequenceDateYear] = inr ty /\
    summary_table df [sequenceDateYear; sequenceDateMonth] = inr tm /\
    summary_table df [sequenceDateYear; sequenceDateMonth; sequenceDateDay] = inr td /\
    serialized_as fmt ty ry /\ serialized_as fmt tm rm /\ serialized_as fmt td rd /\
    entries = [ (Path (lit ++ u ".yearly"), ry);
                (Path (lit ++ u ".monthly"), rm);
                (Path (lit ++ u ".daily"), rd) ].

(** The rows of a table whose key under the columns at [idx] is [k]. *)
Definition rows_with_key (idx : list nat) (k : key) (rows : list (list value))
  : list (list value) :=
  filter (fun row => match key_compare (row_key idx row) k with
                     | Eq => true
                     | _ => false
                     end) rows.

(** The count a series holds for key [k]; 0 when [k] has no group. *)
Fixpoint count_for (k : key) (series : list (key * nat)) : nat :=
  match series with
  | [] => 0
  | (k', n) :: series' =>
      match key_compare k' k with
      | Eq => n + count_for k series'
      | _ => count_for k series'
      end
  end.

(** The keys of a series are in strictly ascending order. *)
Definition ascending (groups : list (key * nat)) : Prop :=
  StronglySorted (fun g h => key_compare (fst g) (fst h) = Lt) groups.

(** A summary table: the grouping columns, then the count; one line per
    group, the groups in strictly ascending key order. *)
Definition ascending_table (t : DataFrame) : Prop :=
  exists by_ series,
    t = reset_index by_ NumSequences series /\ ascending series.

(** The counts of a series, added up. *)
Definition total (series : list (key * nat)) : nat :=
  fold_right (fun g acc => snd g + acc) 0 series.

(** A world for the examples: [a.fa] holds two records, [e.fa] none, and
    [./a.fa] is another name of [a.fa]; there is no directory [nodir], and
    [d.monthly] is a directory; a failing [format] raises [ValueError]. *)
Definition example_world : World :=
  {| disk := [ (u "a.fa", [ {| id := u "seqA|2021-03-15"; seq := u "ACGT" |};
                            {| id := u "seqB|no-date-here"; seq := u "AC" |} ]);
               (u "e.fa", []) ];
     stdin_records := []; open_files := []; next_fileno := 3;
     stderr := []; written := [];
     unwritable := [u "nodir/out.json"; u "nodir/s.yearly"; u "nodir/s.monthly";
                    u "nodir/s.daily"; u "d.monthly"];
     format_raises := fun _ _ => FormatValueError;
     realpath := fun p => if pystr_eqb p (u "./a.fa") then u "a.fa" else p |}.

(** The records each file contributes, file by file: a named file what it
    held when opened, standard input what it still holds, which is nothing
    after its first turn. *)
Fixpoint chunks (files : list File) (stdin : list SeqRecord)
  : list (File * list SeqRecord) :=
  match files with
  | [] => []
  | sys_stdin :: files' => (sys_stdin, stdin) :: chunks files' []
  | TextIO n p content :: files' =>
      (TextIO n p content, content) :: chunks files' stdin
  end.

(** The source a row names: the name of the file, with ['standard input'] in
    place of the name ['<stdin>']. *)
Definition source_path (file : File) : pystr :=
  if pystr_eqb (file_name file) (u "<stdin>")
  then u "standard input" else file_name file.

(** The notices [parse_sequences] prints for [files]. *)
Definition notices_of (files : list File) : list stderr_item :=
  flat_map (fun f => if pystr_eqb (file_name f) (u "<stdin>")
                     then [Printed (u "(reading from standard input)")]
                     else [])
           files.

(** What is left on standard input after [files] were parsed. *)
Definition stdin_after (files : list File) (stdin : list SeqRecord)
  : list SeqRecord :=
  if existsb is_sys_stdin files then [] else stdin.

(** The brace characters of a [str.format] template. *)
Definition is_brace (c : codepoint) : bool := N.eqb c lbrace || N.eqb c rbrace.

(** The records of [a.fa] in the example world, its handle, and the rows
    [parse_sequences] builds for them. *)
Definition example_records : list SeqRecord :=
  [ {| id := u "seqA|2021-03-15"; seq := u "ACGT" |};
    {| id := u "seqB|no-date-here"; seq := u "AC" |} ].

Definition example_file : File := TextIO 3 (u "a.fa") example_records.

Definition example_rows : list pydict :=
  flat_map (fun ir => match sequence_row ascii_digit example_file (fst ir) (snd ir) with
                      | inr row => [row]
                      | inl _ => []
                      end)
           (enumerate example_records).

(** The rows of the records of one file, numbered from 0. *)
Definition chunk_rows (isdecimal : codepoint -> bool)
  (chunk : File * list SeqRecord) : list pydict :=
  flat_map (fun ir => match sequence_row isdecimal (fst chunk) (fst ir) (snd ir) with
                      | inr row => [row]
                      | inl _ => []
                      end)
           (enumerate (snd chunk)).

(** A handle with the records it contributes when it is not standard input. *)
Definition named_chunk (file : File) : File * list SeqRecord :=
  (file, match file with TextIO _ _ content => content | sys_stdin => [] end).

(** The path and the records of a handle [open] returned. *)
Definition named_source (file : File) : pystr * list SeqRecord :=
  (file_name file, snd (named_chunk file)).

(** The rows of the records of a file of the given path. *)
Definition source_rows (isdecimal : codepoint -> bool)
  (source : pystr * list SeqRecord) : list pydict :=
  chunk_rows isdecimal (TextIO 0 (fst source) (snd source), snd source).

(** The positional arguments of a command line, in order. *)
Definition positionals (argv : list token) : list pystr :=
  flat_map (fun t => match t with Positional p => [p] | _ => [] end) argv.

(** The handle [f] is what [main] takes for the path [p] in the world [w]:
    standard input for [-], else a handle on [p] with the records that the
    file [p] names holds in [w]. *)
Definition handle_for (w : World) (p : pystr) (f : File) : Prop :=
  (p = u "-" /\ f = sys_stdin) \/
  (p <> u "-" /\ exists n content, f = TextIO n p content /\
                                  disk_get (disk w) (realpath w p) = Some content).

(** The three renderings, written out: [json] is one object per row, each
    pairing the columns with the cells of the row; [csv] and [tsv] are a
    header line of the columns and one line per row, the fields separated by
    a comma (code 44) and by a tab (code 9). *)
Inductive rendered_as : pystr -> DataFrame -> rendering -> Prop :=
| json_rendering t :
    rendered_as (u "json") t (JsonLines (map (combine (columns t)) (rows t)))
| csv_rendering t :
    rendered_as (u "csv") t (Delimited 44%N (columns t) (rows t))
| tsv_rendering t :
    rendered_as (u "tsv") t (Delimited 9%N (columns t) (rows t)).

(** What the command line gives each option: the value of its last
    occurrence, the default when it does not occur. *)
Definition given_output_format (argv : list token) : pystr :=
  fold_left (fun v t => match t with OutputFormat v' => v' | _ => v end)
            argv (u "json").

Definition given_summarize (argv : list token) : option pystr :=
  fold_left (fun o t => match t with Summarize v => Some v | _ => o end)
            argv None.

Definition given_summarize_format (argv : list token) : option pystr :=
  fold_left (fun o t => match t with SummarizeFormat v => Some v | _ => o end)
            argv None.

(** The format of the summaries a command line asks for: the one of
    [--summarize-format], and the output format when that is not given. *)
Definition given_summary_format (argv : list token) : pystr :=
  match given_summarize_format argv with
  | Some (c :: v) => c :: v
  | _ => given_output_format argv
  end.

(** The three summary files of prefix [prefix]: the yearly, the monthly and
    the daily counts of [df], each in the rendering of [fmt], under the
    literal text of the prefix followed by [.yearly], [.monthly], [.daily]. *)
Definition summary_files (df : DataFrame) (prefix fmt : pystr)
  (entries : list (dest * rendering)) : Prop :=
  exists lit ty tm td ry rm rd,
    literal_text prefix = Some lit /\
    summary_table df [sequenceDateYear] = inr ty /\
    summary_table df [sequenceDateYear; sequenceDateMonth] = inr tm /\
    summary_table df [sequenceDateYear; sequenceDateMonth; sequenceDateDay] = inr td /\
    rendered_as fmt ty ry /\ rendered_as fmt tm rm /\ rendered_as fmt td rd /\
    entries = [ (Path (lit ++ u ".yearly"), ry);
                (Path (lit ++ u ".monthly"), rm);
                (Path (lit ++ u ".daily"), rd) ].

(** The destination of an entry can be opened for writing in [w]. *)
Definition openable (w : World) (e : dest * rendering) : Prop :=
  match fst e with
  | Stdout => True
  | Path q => mem q (unwritable w) = false
  end.

(** Two worlds hold the same inputs: the same files with the same records
    under the same names, the same standard input, the same paths that
    cannot be written and the same interpreter.  The handles open, the file
    numbers, and what has been printed and written so far may differ. *)
Definition same_inputs (w1 w2 : World) : Prop :=
  (forall p, disk_get (disk w1) p = disk_get (disk w2) p) /\
  stdin_records w1 = stdin_records w2 /\
  unwritable w1 = unwritable w2 /\
  format_raises w1 = format_raises w2 /\
  realpath w1 = realpath w2.

(** Two handles on the same input: both standard input, or both on the same
    path with the same records. *)
Definition same_handle (f g : File) : Prop :=
  match f, g with
  | sys_stdin, sys_stdin => True
  | TextIO _ p c, TextIO _ q d => p = q /\ c = d
  | _, _ => False
  end.

(** Two computations end alike from [w1] and from [w2]: in worlds that hold
    the same inputs, having written the same outputs and printed the same
    items, both with the same exception or with results related by [R]. *)
Definition alike {A B} (R : A -> B -> Prop) (w1 w2 : World)
  (o1 : (exn + A) * World) (o2 : (exn + B) * World) : Prop :=
  same_inputs (snd o1) (snd o2) /\
  (exists entries,
      written (snd o1) = written w1 ++ entries /\
      written (snd o2) = written w2 ++ entries) /\
  (exists items,
      stderr (snd o1) = stderr w1 ++ items /\
      stderr (snd o2) = stderr w2 ++ items) /\
  match fst o1, fst o2 with
  | inl e1, inl e2 => e1 = e2
  | inr a, inr b => R a b
  | _, _ => False
  end.

(** Two computations that end alike from any two worlds with the same
    inputs. *)
Definition sim {A B} (R : A -> B -> Prop) (c1 : M A) (c2 : M B) : Prop :=
  forall w1 w2, same_inputs w1 w2 -> alike R w1 w2 (c1 w1) (c2 w2).

(** The example world later on: other handles open, other file numbers,
    something printed and written already; the inputs are the same. *)
Definition example_world_later : World :=
  {| disk := disk example_world;
     stdin_records := stdin_records example_world;
     open_files := [TextIO 3 (u "x.fa") []]; next_fileno := 7;
     stderr := [Printed (u "earlier")];
     written := [(Stdout, JsonLines [])];
     unwritable := unwritable example_world;
     format_raises := format_raises example_world;
     realpath := realpath example_world |}.

(** A computation that leaves alone what can be written and what [format]
    raises. *)
Definition keeps {A} (c : M A) : Prop :=
  forall w, unwritable (snd (c w)) = unwritable w /\
            format_raises (snd (c w)) = format_raises w.

(** The rows of the record table for [files]: file by file in the order
    given, the records of each file in order and numbered from 0. *)
Definition rows_read (isdecimal : codepoint -> bool) (files : list File)
  (stdin : list SeqRecord) : list pydict :=
  flat_map (chunk_rows isdecimal) (chunks files stdin).




(** * Theorems *)

(** ** Strings *)

Lemma pystr_eqb_eq (a b : pystr) : pystr_eqb a b = true <-> a = b.
Proof.
  revert b; induction a as [|x a IH]; intros [|y b]; simpl;
    try (split; [discriminate | discriminate]); try tauto.
  rewrite andb_true_iff, N.eqb_eq, IH. split.
  - intros [-> ->]; reflexivity.
  - intros E; injection E; auto.
Qed.

Lemma pystr_eqb_refl (a : pystr) : pystr_eqb a a = true.
Proof. apply pystr_eqb_eq; reflexivity. Qed.

Lemma pystr_eqb_neq (a b : pystr) : pystr_eqb a b = false <-> a <> b.
Proof.
  rewrite <- pystr_eqb_eq. destruct (pystr_eqb a b); split; congruence.
Qed.

Lemma split_nonempty sep s : split sep s <> [].
Proof.
  destruct s as [|c s]; simpl; [discriminate|].
  destruct (N.eqb c sep); [discriminate|].
  destruct (split sep s); discriminate.
Qed.

Lemma split_free sep s :
  Forall (fun c => c <> sep) s -> split sep s = [s].
Proof.
  induction 1 as [|c s Hc _ IH]; simpl; [reflexivity|].
  apply N.eqb_neq in Hc. rewrite Hc, IH. reflexivity.
Qed.

Lemma split_app sep s rest :
  Forall (fun c => c <> sep) s ->
  split sep (s ++ sep :: rest) = s :: split sep rest.
Proof.
  induction 1 as [|c s Hc _ IH]; simpl.
  - rewrite N.eqb_refl. reflexivity.
  - apply N.eqb_neq in Hc. rewrite Hc, IH. reflexivity.
Qed.

(** Joining the pieces of a split gives the string back. *)
Lemma join_split sep s : join [sep] (split sep s) = s.
Proof.
  induction s as [|c s IH]; simpl; [reflexivity|].
  destruct (N.eqb_spec c sep) as [->|Hne].
  - pose proof (split_nonempty sep s) as Hn.
    destruct (split sep s) as [|p ps] eqn:E; [congruence|].
    simpl. f_equal. exact IH.
  - pose proof (split_nonempty sep s) as Hn.
    destruct (split sep s) as [|p ps] eqn:E; [congruence|].
    destruct ps as [|q ps]; simpl in *; subst; reflexivity.
Qed.

(** ** The regular-expression search *)

Section SearchFacts.
Variable isdecimal : codepoint -> bool.

Lemma match_here_sound p s m :
  Re.match_here isdecimal p s = Some m ->
  Forall2 (atom_fits isdecimal) p m /\ exists post, s = m ++ post.
Proof.
  revert s m; induction p as [|a p IH]; intros s m; simpl.
  - intros E; injection E as <-. split; [constructor | exists s; reflexivity].
  - destruct s as [|c s]; [discriminate|].
    destruct (Re.atom_matches isdecimal a c) eqn:Ha; [|discriminate].
    destruct (Re.match_here isdecimal p s) as [m'|] eqn:E'; simpl; [|discriminate].
    intros E; injection E as <-.
    destruct (IH _ _ E') as [HF [post ->]].
    split; [constructor; assumption | exists post; reflexivity].
Qed.

Lemma match_here_complete p m post :
  Forall2 (atom_fits isdecimal) p m -> Re.match_here isdecimal p (m ++ post) = Some m.
Proof.
  induction 1 as [|a c p m Ha _ IH]; simpl; [reflexivity|].
  unfold atom_fits in Ha. rewrite Ha, IH. reflexivity.
Qed.

Lemma search_Some p s m :
  Re.search isdecimal p s = Some m ->
  exists pre post,
    s = pre ++ m ++ post /\ Forall2 (atom_fits isdecimal) p m /\
    forall pre' rest, s = pre' ++ rest -> length pre' < length pre ->
                      Re.match_here isdecimal p rest = None.
Proof.
  induction s as [|c s IH]; simpl.
  - destruct (Re.match_here isdecimal p []) as [m'|] eqn:E; [|discriminate].
    intros E'; injection E' as <-.
    destruct (match_here_sound _ _ _ E) as [HF [post Hs]].
    exists [], post. repeat split; auto.
    simpl; intros ? ? _ H; inversion H.
  - destruct (Re.match_here isdecimal p (c :: s)) as [m'|] eqn:E.
    + intros E'; injection E' as <-.
      destruct (match_here_sound _ _ _ E) as [HF [post Hs]].
      exists [], post. repeat split; auto.
      simpl; intros ? ? _ H; inversion H.
    + intros Hs. destruct (IH Hs) as (pre & post & -> & HF & Hleft).
      exists (c :: pre), post. repeat split; auto.
      intros [|c' pre'] rest Hsplit Hlen; simpl in *.
      * subst rest. exact E.
      * injection Hsplit as <- Hsplit. apply (Hleft pre'); [assumption | lia].
Qed.

Lemma search_None p s :
  Re.search isdecimal p s = None ->
  forall pre rest, s = pre ++ rest -> Re.match_here isdecimal p rest = None.
Proof.
  induction s as [|c s IH]; simpl.
  - destruct (Re.match_here isdecimal p []) eqn:E; [discriminate|].
    intros _ pre rest H. symmetry in H. apply app_eq_nil in H as [_ ->]. exact E.
  - destruct (Re.match_here isdecimal p (c :: s)) eqn:E; [discriminate|].
    intros Hs [|c' pre] rest H; simpl in H.
    + subst rest. exact E.
    + injection H as <- H. exact (IH Hs pre rest H).
Qed.

(** Two digit classes that agree on the characters of [s] give the same
    search result on [s]. *)
Lemma match_here_ext (other : codepoint -> bool) p s :
  Forall (fun c => isdecimal c = other c) s ->
  Re.match_here isdecimal p s = Re.match_here other p s.
Proof.
  intros H; revert p; induction H as [|c s Hc _ IH]; intros [|a p]; simpl; auto.
  replace (Re.atom_matches other a c) with (Re.atom_matches isdecimal a c)
    by (destruct a; simpl; congruence).
  rewrite IH. reflexivity.
Qed.

Lemma search_ext (other : codepoint -> bool) p s :
  Forall (fun c => isdecimal c = other c) s ->
  Re.search isdecimal p s = Re.search other p s.
Proof.
  induction 1 as [|c s Hc Hs IH]; simpl.
  - destruct p; reflexivity.
  - rewrite (match_here_ext other p (c :: s)) by (constructor; assumption).
    rewrite IH. reflexivity.
Qed.

(** The pattern of the script matches exactly the date-shaped strings. *)
Lemma date_pattern_shaped m :
  Forall2 (atom_fits isdecimal) Re.date_pattern m <-> date_shaped isdecimal m.
Proof.
  unfold Re.date_pattern, date_shaped, digits; simpl; split.
  - intros H.
    repeat match goal with
           | H : Forall2 _ (_ :: _) _ |- _ => inversion H; clear H; subst
           | H : Forall2 _ [] _ |- _ => inversion H; clear H; subst
           end.
    unfold atom_fits in *; simpl in *.
    repeat match goal with
           | H : N.eqb _ dash = true |- _ => apply N.eqb_eq in H; subst
           end.
    match goal with
    | |- exists _ _ _, [?a; ?b; ?c; ?d; _; ?e; ?f; _; ?g; ?h] = _ /\ _ =>
        exists [a; b; c; d], [e; f], [g; h]
    end.
    repeat split; repeat constructor; assumption.
  - intros (y & mo & d & -> & Hy & Hmo & Hd & Dy & Dmo & Dd).
    destruct y as [|y1 [|y2 [|y3 [|y4 [|]]]]]; try discriminate.
    destruct mo as [|m1 [|m2 [|]]]; try discriminate.
    destruct d as [|d1 [|d2 [|]]]; try discriminate.
    repeat match goal with
           | H : Forall _ (_ :: _) |- _ => inversion H; clear H; subst
           end.
    simpl. unfold atom_fits; simpl.
    repeat constructor; try assumption; apply N.eqb_refl.
Qed.

Lemma date_shaped_length m : date_shaped isdecimal m -> length m = 10.
Proof.
  intros (y & mo & d & -> & Hy & Hmo & Hd & _).
  rewrite length_app; simpl; rewrite length_app; simpl. lia.
Qed.

Lemma search_date_leftmost label m :
  Re.search isdecimal Re.date_pattern label = Some m ->
  leftmost_date isdecimal label m.
Proof.
  intros H. destruct (search_Some _ _ _ H) as (pre & post & -> & HF & Hleft).
  exists (length pre). split; [apply date_pattern_shaped; exact HF|].
  split; [exists pre, post; auto|].
  intros m' j Hm' (pre' & post' & E & <-).
  destruct (Nat.le_gt_cases (length pre) (length pre')) as [|Hlt]; [assumption|].
  apply (Hleft _ _ E) in Hlt.
  apply date_pattern_shaped in Hm'.
  rewrite (match_here_complete _ _ post' Hm') in Hlt. discriminate.
Qed.

Lemma search_date_None label :
  Re.search isdecimal Re.date_pattern label = None ->
  ~ contains_date isdecimal label.
Proof.
  intros H (m & i & Hm & pre & post & E & _).
  pose proof (search_None _ _ H _ _ E) as Hn.
  apply date_pattern_shaped in Hm.
  rewrite (match_here_complete _ _ post Hm) in Hn. discriminate.
Qed.

Lemma contains_date_found label :
  contains_date isdecimal label ->
  exists m, Re.search isdecimal Re.date_pattern label = Some m.
Proof.
  intros H. destruct (Re.search isdecimal Re.date_pattern label) eqn:E.
  - eauto.
  - exfalso. exact (search_date_None _ E H).
Qed.

(** The sentinel is never the text of a match. *)
Lemma date_shaped_not_sentinel m :
  date_shaped isdecimal m -> pystr_eqb m not_available = false.
Proof.
  intros H. apply pystr_eqb_neq. intros ->.
  apply date_shaped_length in H. discriminate.
Qed.

Lemma parse_date_found label m :
  Re.search isdecimal Re.date_pattern label = Some m ->
  parse_date_from_label isdecimal label = m.
Proof. unfold parse_date_from_label. intros ->. reflexivity. Qed.

Lemma parse_date_missing label :
  Re.search isdecimal Re.date_pattern label = None ->
  parse_date_from_label isdecimal label = not_available.
Proof. unfold parse_date_from_label. intros ->. reflexivity. Qed.
End SearchFacts.

(** ** The row of one record *)

Lemma split_length sep s :
  length (split sep s) = S (count_occ N.eq_dec s sep).
Proof.
  induction s as [|c s IH]; simpl; [reflexivity|].
  destruct (N.eqb_spec c sep) as [->|Hne].
  - destruct (N.eq_dec sep sep); [|congruence]. simpl. rewrite IH. reflexivity.
  - destruct (N.eq_dec c sep); [congruence|].
    pose proof (split_nonempty sep s).
    destruct (split sep s); [congruence|]. simpl in *. exact IH.
Qed.

Section RowFacts.
Variable isdecimal : codepoint -> bool.

Lemma date_shaped_pieces m :
  date_shaped isdecimal m -> 3 <= length (split dash m).
Proof.
  intros (y & mo & d & -> & _).
  rewrite split_length, count_occ_app. simpl.
  destruct (N.eq_dec dash dash); [|congruence].
  rewrite count_occ_app. simpl.
  destruct (N.eq_dec dash dash); [|congruence]. lia.
Qed.

Lemma date_part_sentinel i : date_part not_available i = inr not_available.
Proof. reflexivity. Qed.

Lemma date_part_dated m i :
  date_shaped isdecimal m -> i < 3 ->
  exists piece, nth_error (split dash m) i = Some piece /\
                date_part m i = inr piece.
Proof.
  intros Hm Hi. unfold date_part, getitem.
  rewrite (date_shaped_not_sentinel _ _ Hm). simpl.
  pose proof (date_shaped_pieces _ Hm) as Hlen.
  destruct (nth_error (split dash m) i) as [piece|] eqn:E.
  - exists piece; auto.
  - apply nth_error_None in E. lia.
Qed.

(** [sequence_row] never raises, and these are the fields of the row. *)
Lemma sequence_row_fields file idx record :
  exists row year month day,
    sequence_row isdecimal file idx record = inr row /\
    map fst row = sequence_fields /\
    field row sequenceLabel = Some (id record) /\
    field row sequenceDateISO = Some (parse_date_from_label isdecimal (id record)) /\
    field row sequenceDateYear = Some year /\
    field row sequenceDateMonth = Some month /\
    field row sequenceDateDay = Some day /\
    date_part (parse_date_from_label isdecimal (id record)) 0 = inr year /\
    date_part (parse_date_from_label isdecimal (id record)) 1 = inr month /\
    date_part (parse_date_from_label isdecimal (id record)) 2 = inr day.
Proof.
  unfold sequence_row.
  assert (Hparts : forall i, i < 3 -> exists piece,
             date_part (parse_date_from_label isdecimal (id record)) i = inr piece).
  { intros i Hi.
    destruct (Re.search isdecimal Re.date_pattern (id record)) as [m|] eqn:E.
    - rewrite (parse_date_found _ _ _ E).
      destruct (search_date_leftmost _ _ _ E) as (_ & Hm & _).
      destruct (date_part_dated _ i Hm Hi) as (piece & _ & Hp). eauto.
    - rewrite (parse_date_missing _ _ E). exists not_available; reflexivity. }
  destruct (Hparts 0) as [year Hy]; [lia|].
  destruct (Hparts 1) as [month Hmo]; [lia|].
  destruct (Hparts 2) as [day Hd]; [lia|].
  rewrite Hy, Hmo, Hd.
  eexists; exists year, month, day.
  split; [reflexivity|]. repeat split; reflexivity.
Qed.

(** A record without a date: the four date fields hold ['N/A']. *)
Lemma sequence_row_undated file idx record row :
  sequence_row isdecimal file idx record = inr row ->
  ~ contains_date isdecimal (id record) ->
  field row sequenceDateISO = Some not_available /\
  field row sequenceDateYear = Some not_available /\
  field row sequenceDateMonth = Some not_available /\
  field row sequenceDateDay = Some not_available.
Proof.
  intros Hrow Hno.
  destruct (sequence_row_fields file idx record)
    as (row' & y & mo & d & E & _ & _ & Hiso & Hy & Hmo & Hd & Py & Pmo & Pd).
  rewrite Hrow in E; injection E as <-.
  destruct (Re.search isdecimal Re.date_pattern (id record)) as [m|] eqn:S.
  - exfalso. apply Hno.
    destruct (search_date_leftmost _ _ _ S) as (i & Hm & Hocc & _).
    exists m, i; auto.
  - rewrite (parse_date_missing _ _ S) in *.
    rewrite date_part_sentinel in Py, Pmo, Pd.
    injection Py as <-; injection Pmo as <-; injection Pd as <-. auto.
Qed.

(** The date of a row is the sentinel exactly when its label has no date. *)
Lemma sentinel_iff_undated label :
  pystr_eqb (parse_date_from_label isdecimal label) not_available = true <->
  ~ contains_date isdecimal label.
Proof.
  destruct (Re.search isdecimal Re.date_pattern label) as [m|] eqn:S.
  - rewrite (parse_date_found _ _ _ S).
    destruct (search_date_leftmost _ _ _ S) as (i & Hm & Hocc & _).
    rewrite (date_shaped_not_sentinel _ _ Hm). split; [discriminate|].
    intros Hno; exfalso; apply Hno; exists m, i; auto.
  - rewrite (parse_date_missing _ _ S). split; [|reflexivity].
    intros _. exact (search_date_None _ _ S).
Qed.

Hypothesis ascii_class :
  forall c, (c < 128)%N -> isdecimal c = ascii_digit c.

Lemma digits_dash_free s : digits isdecimal s -> Forall (fun c => c <> dash) s.
Proof.
  unfold digits. apply Forall_impl. intros c Hc ->.
  rewrite ascii_class in Hc by reflexivity. discriminate.
Qed.

(** A record with a date: the row holds the leftmost date-shaped substring
    and its three pieces. *)
Lemma sequence_row_dated file idx record row :
  sequence_row isdecimal file idx record = inr row ->
  contains_date isdecimal (id record) ->
  exists m y mo d,
    leftmost_date isdecimal (id record) m /\
    field row sequenceDateISO = Some m /\
    field row sequenceDateYear = Some y /\
    field row sequenceDateMonth = Some mo /\
    field row sequenceDateDay = Some d /\
    split dash m = [y; mo; d] /\
    join [dash] [y; mo; d] = m.
Proof.
  intros Hrow Hdate.
  destruct (sequence_row_fields file idx record)
    as (row' & y & mo & d & E & _ & _ & Hiso & Hy & Hmo & Hd & Py & Pmo & Pd).
  rewrite Hrow in E; injection E as <-.
  destruct (contains_date_found _ _ Hdate) as [m S].
  rewrite (parse_date_found _ _ _ S) in *.
  pose proof (search_date_leftmost _ _ _ S) as Hleft.
  destruct Hleft as (i & Hm & Hrest).
  assert (Hsplit : split dash m = [y; mo; d]).
  { destruct Hm as (y' & mo' & d' & -> & _ & _ & _ & Dy & Dmo & Dd).
    assert (Hm : date_shaped isdecimal (y' ++ dash :: mo' ++ dash :: d'))
      by (destruct (search_date_leftmost _ _ _ S) as (? & ? & _); assumption).
    assert (Hs : split dash (y' ++ dash :: mo' ++ dash :: d') = [y'; mo'; d']).
    { rewrite (split_app dash y' _ (digits_dash_free _ Dy)).
      rewrite (split_app dash mo' _ (digits_dash_free _ Dmo)).
      rewrite (split_free dash d' (digits_dash_free _ Dd)). reflexivity. }
    unfold date_part, getitem in Py, Pmo, Pd.
    rewrite (date_shaped_not_sentinel _ _ Hm) in Py, Pmo, Pd.
    rewrite Hs in Py, Pmo, Pd |- *.
    simpl in Py, Pmo, Pd.
    injection Py as <-; injection Pmo as <-; injection Pd as <-. reflexivity. }
  exists m, y, mo, d. repeat split; auto.
  - exists i. auto.
  - rewrite <- Hsplit. apply join_split.
Qed.
End RowFacts.

(** ** Computations *)

Lemma bind_inr {A B} (c : M A) (k : A -> M B) w b w' :
  bind c k w = (inr b, w') <->
  exists a w1, c w = (inr a, w1) /\ k a w1 = (inr b, w').
Proof.
  unfold bind. destruct (c w) as [[e|a] w1]; split.
  - discriminate.
  - intros (a & w2 & E & _); discriminate.
  - intros H; exists a, w1; auto.
  - intros (a' & w2 & E & H); injection E as <- <-; exact H.
Qed.

Lemma bind_inl {A B} (c : M A) (k : A -> M B) w e w' :
  bind c k w = (inl e, w') <->
  c w = (inl e, w') \/ exists a w1, c w = (inr a, w1) /\ k a w1 = (inl e, w').
Proof.
  unfold bind. destruct (c w) as [[e1|a] w1]; split.
  - intros H; injection H as -> ->; left; reflexivity.
  - intros [H|(a & w2 & E & _)]; [injection H as -> ->; reflexivity | discriminate].
  - intros H; right; exists a, w1; auto.
  - intros [H|(a' & w2 & E & H)]; [discriminate|].
    injection E as <- <-; exact H.
Qed.

Lemma bind_step {A B} (c : M A) (k : A -> M B) w a w1 :
  c w = (inr a, w1) -> bind c k w = k a w1.
Proof. unfold bind; intros ->; reflexivity. Qed.

Lemma bind_raise {A B} (c : M A) (k : A -> M B) w e w1 :
  c w = (inl e, w1) -> bind c k w = (inl e, w1).
Proof. unfold bind; intros ->; reflexivity. Qed.

(** ** [parse_sequences] *)

Lemma unknown_rows_app rows1 rows2 :
  unknown_rows (rows1 ++ rows2) = unknown_rows rows1 ++ unknown_rows rows2.
Proof. unfold unknown_rows. apply flat_map_app. Qed.

Section ParseFacts.
Variable isdecimal : codepoint -> bool.

Lemma unknown_rows_one file idx record row :
  sequence_row isdecimal file idx record = inr row ->
  unknown_rows [row] =
  if pystr_eqb (parse_date_from_label isdecimal (id record)) not_available
  then [id record] else [].
Proof.
  intros Hrow.
  destruct (sequence_row_fields isdecimal file idx record)
    as (row' & y & mo & d & E & _ & Hl & Hiso & _).
  rewrite Hrow in E; injection E as <-.
  unfold unknown_rows; simpl. rewrite Hiso, Hl, app_nil_r. reflexivity.
Qed.

Lemma inner_loop file records k sequences w :
  exists rows,
    foldM
      (fun acc ir =>
         let '(sequences, unknown_labels) := acc in
         let '(record_idx, record) := ir in
         let date := parse_date_from_label isdecimal (id record) in
         let unknown_labels :=
           if pystr_eqb date not_available
           then unknown_labels ++ [id record]
           else unknown_labels in
         row <- lift (sequence_row isdecimal file record_idx record) ;;
         ret (sequences ++ [row], unknown_labels))
      (combine (List.seq k (length records)) records)
      (sequences, unknown_rows sequences) w
    = (inr (sequences ++ rows, unknown_rows (sequences ++ rows)), w) /\
    Forall2 (row_of isdecimal) records rows.
Proof.
  match goal with
  | |- context [foldM ?f _ _ _] => set (body := f)
  end.
  revert k sequences; induction records as [|record records IH];
    intros k sequences.
  - exists []. rewrite app_nil_r. split; [reflexivity | constructor].
  - destruct (sequence_row_fields isdecimal file k record)
      as (row & _ & _ & _ & Hrow & _).
    assert (Hb : body (sequences, unknown_rows sequences) (k, record) w
                 = (inr (sequences ++ [row], unknown_rows (sequences ++ [row])), w)).
    { unfold body, bind, lift, ret. rewrite Hrow.
      rewrite unknown_rows_app, (unknown_rows_one _ _ _ _ Hrow).
      destruct (pystr_eqb _ _); [reflexivity | rewrite app_nil_r; reflexivity]. }
    destruct (IH (S k) (sequences ++ [row])) as (rows & E & HF).
    exists (row :: rows).
    change (combine (List.seq k (length (record :: records))) (record :: records))
      with ((k, record) :: combine (List.seq (S k) (length records)) records).
    change (foldM body ((k, record) :: ?l) ?s w)
      with (bind (body s (k, record)) (fun s' => foldM body l s') w).
    rewrite (bind_step _ _ _ _ _ Hb), E, <- app_assoc.
    split; [reflexivity|]. constructor; [exists file, k; exact Hrow | exact HF].
Qed.

(** [parse_sequences] returns: one row per record met, in order, and the
    labels of the rows dated ['N/A'].  It touches standard error (the notice
    for standard input) and standard input, nothing else. *)
Lemma parse_sequences_returns files w :
  exists sequences w',
    parse_sequences isdecimal files w
    = (inr (sequences, unknown_rows sequences), w') /\
    Forall2 (row_of isdecimal) (records_read files (stdin_records w)) sequences /\
    disk w' = disk w /\ open_files w' = open_files w /\
    next_fileno w' = next_fileno w /\ written w' = written w /\
    (exists notices, stderr w' = stderr w ++ notices).
Proof.
  unfold parse_sequences.
  change (@nil pystr) with (unknown_rows []).
  assert (G : forall sequences0, exists sequences w',
    foldM
      (fun acc file =>
         (if pystr_eqb (file_name file) (u "<stdin>")
          then print (u "(reading from standard input)")
          else ret tt) ;;
         records <- SeqIO_parse file ;;
         foldM
           (fun acc ir =>
              let '(sequences, unknown_labels) := acc in
              let '(record_idx, record) := ir in
              let date := parse_date_from_label isdecimal (id record) in
              let unknown_labels :=
                if pystr_eqb date not_available
                then unknown_labels ++ [id record]
                else unknown_labels in
              row <- lift (sequence_row isdecimal file record_idx record) ;;
              ret (sequences ++ [row], unknown_labels))
           (enumerate records) acc)
      files (sequences0, unknown_rows sequences0) w
    = (inr (sequences0 ++ sequences, unknown_rows (sequences0 ++ sequences)), w') /\
    Forall2 (row_of isdecimal) (records_read files (stdin_records w)) sequences /\
    disk w' = disk w /\ open_files w' = open_files w /\
    next_fileno w' = next_fileno w /\ written w' = written w /\
    (exists notices, stderr w' = stderr w ++ notices)).
  { match goal with
    | |- forall _, exists _ _, foldM ?f _ _ _ = _ /\ _ => set (outer := f)
    end.
    revert w; induction files as [|file files IH]; intros w sequences0.
    - exists [], w. rewrite app_nil_r.
      repeat split; try reflexivity; [constructor | exists []; symmetry; apply app_nil_r].
    - assert (Hb : exists rows w1,
                 outer (sequences0, unknown_rows sequences0) file w
                 = (inr (sequences0 ++ rows, unknown_rows (sequences0 ++ rows)), w1) /\
                 records_read (file :: files) (stdin_records w)
                 = rows_source file w ++ records_read files (stdin_records w1) /\
                 Forall2 (row_of isdecimal) (rows_source file w) rows /\
                 disk w1 = disk w /\ open_files w1 = open_files w /\
                 next_fileno w1 = next_fileno w /\ written w1 = written w /\
                 (exists notices, stderr w1 = stderr w ++ notices)).
      { unfold outer. destruct file as [|fd path content].
        - set (wa := snd (print (u "(reading from standard input)") w)).
          set (wb := snd (SeqIO_parse sys_stdin wa)).
          destruct (inner_loop sys_stdin (stdin_records w) 0 sequences0 wb)
            as (rows & E & HF).
          exists rows, wb.
          split; [|repeat split; try reflexivity; try assumption;
                   exists [Printed (u "(reading from standard input)")]; reflexivity].
          rewrite (bind_step _ _ w tt wa) by reflexivity.
          rewrite (bind_step _ _ wa (stdin_records w) wb) by reflexivity.
          exact E.
        - set (wa := if pystr_eqb path (u "<stdin>")
                     then snd (print (u "(reading from standard input)") w)
                     else w).
          destruct (inner_loop (TextIO fd path content) content 0 sequences0 wa)
            as (rows & E & HF).
          exists rows, wa.
          split.
          + rewrite (bind_step _ _ w tt wa)
              by (unfold wa; simpl; destruct (pystr_eqb path (u "<stdin>")); reflexivity).
            rewrite (bind_step _ _ wa content wa) by reflexivity.
            exact E.
          + unfold wa; destruct (pystr_eqb path (u "<stdin>")); simpl;
              repeat split; try reflexivity; try assumption.
            * exists [Printed (u "(reading from standard input)")]; reflexivity.
            * exists []; symmetry; apply app_nil_r. }
      destruct Hb as (rows & w1 & Hb & Hsrc & HF & Hd & Ho & Hn & Hw & n1 & Hs).
      destruct (IH w1 (sequences0 ++ rows))
        as (sequences & w' & E' & HF' & Hd' & Ho' & Hn' & Hw' & n2 & Hs').
      exists (rows ++ sequences), w'.
      change (foldM outer (file :: files) ?s w)
        with (bind (outer s file) (fun s' => foldM outer files s') w).
      rewrite (bind_step _ _ _ _ _ Hb), E', app_assoc, Hsrc.
      repeat split; try congruence.
      + apply Forall2_app; assumption.
      + exists (n1 ++ n2). rewrite Hs', Hs, app_assoc. reflexivity. }
  destruct (G []) as (sequences & w' & E & H). simpl in E.
  exists sequences, w'. split; [exact E | exact H].
Qed.
End ParseFacts.

(** ** Dates in the table *)

(** [ascii_digit] is a digit class of the kind the theorems ask for. *)
Lemma ascii_digit_class : forall c, (c < 128)%N -> ascii_digit c = ascii_digit c.
Proof. reflexivity. Qed.

Lemma example_label_undated :
  ~ contains_date ascii_digit (u "seqB|no-date-here").
Proof. apply search_date_None. vm_compute. reflexivity. Qed.

Section DateClaims.
Variable isdecimal : codepoint -> bool.
Hypothesis ascii_class :
  forall c, (c < 128)%N -> isdecimal c = ascii_digit c.

(** C1: every record whose label contains a date-shaped substring (four
    digits, dash, two digits, dash, two digits) gets a row whose
    [sequenceDateISO] is the leftmost such substring, taken as it stands,
    and whose year, month and day fields are the three pieces of that string
    between its dashes, so that joining them with dashes gives it back.  The
    digits are not examined any further. *)
Theorem dated_label_fields files w :
  exists sequences unknown_labels w',
    parse_sequences isdecimal files w = (inr (sequences, unknown_labels), w') /\
    Forall2
      (fun record row =>
         field row sequenceLabel = Some (id record) /\
         (contains_date isdecimal (id record) ->
          exists m y mo d,
            leftmost_date isdecimal (id record) m /\
            field row sequenceDateISO = Some m /\
            field row sequenceDateYear = Some y /\
            field row sequenceDateMonth = Some mo /\
            field row sequenceDateDay = Some d /\
            split dash m = [y; mo; d] /\
            join [dash] [y; mo; d] = m))
      (records_read files (stdin_records w)) sequences.
Proof.
  destruct (parse_sequences_returns isdecimal files w)
    as (sequences & w' & E & HF & _).
  exists sequences, (unknown_rows sequences), w'. split; [exact E|].
  revert HF. apply Forall2_impl.
  intros record row (file & idx & Hrow). split.
  - destruct (sequence_row_fields isdecimal file idx record)
      as (row' & _ & _ & _ & E' & _ & Hl & _).
    rewrite Hrow in E'; injection E' as <-. exact Hl.
  - intros Hdate.
    exact (sequence_row_dated isdecimal ascii_class file idx record row Hrow Hdate).
Qed.

(** C9: the search is not anchored to token boundaries.  In the label
    [A12345-67-89] the pattern first fits inside the digit run, one digit
    in, and the extracted date is the ten characters [2345-67-89], not the
    sentinel. *)
Theorem date_cut_from_digit_run :
  parse_date_from_label isdecimal (u "A12345-67-89") = u "2345-67-89" /\
  u "A12345-67-89" = u "A1" ++ u "2345-67-89" /\
  digits isdecimal (u "12345") /\
  length (u "2345-67-89") = 10 /\
  u "2345-67-89" <> not_available.
Proof.
  split; [|split; [reflexivity | split; [|split; [reflexivity | discriminate]]]].
  - unfold parse_date_from_label.
    rewrite (search_ext isdecimal ascii_digit).
    + reflexivity.
    + repeat constructor; apply ascii_class; reflexivity.
  - repeat constructor; rewrite ascii_class; reflexivity.
Qed.
End DateClaims.

Lemma dated_label_fields_witness :
  exists sequences unknown_labels w',
    parse_sequences ascii_digit
      [TextIO 3 (u "a.fa") [ {| id := u "seqA|2021-03-15"; seq := u "ACGT" |};
                             {| id := u "x9999-99-99y2021-03-15"; seq := [] |} ]]
      example_world
    = (inr (sequences, unknown_labels), w') /\
    Forall2
      (fun record row =>
         field row sequenceLabel = Some (id record) /\
         (contains_date ascii_digit (id record) ->
          exists m y mo d,
            leftmost_date ascii_digit (id record) m /\
            field row sequenceDateISO = Some m /\
            field row sequenceDateYear = Some y /\
            field row sequenceDateMonth = Some mo /\
            field row sequenceDateDay = Some d /\
            split dash m = [y; mo; d] /\
            join [dash] [y; mo; d] = m))
      [ {| id := u "seqA|2021-03-15"; seq := u "ACGT" |};
        {| id := u "x9999-99-99y2021-03-15"; seq := [] |} ]
      sequences.
Proof.
  exact (dated_label_fields ascii_digit ascii_digit_class
           [TextIO 3 (u "a.fa") [ {| id := u "seqA|2021-03-15"; seq := u "ACGT" |};
                                  {| id := u "x9999-99-99y2021-03-15"; seq := [] |} ]]
           example_world).
Defined.

Lemma date_cut_from_digit_run_witness :
  parse_date_from_label ascii_digit (u "A12345-67-89") = u "2345-67-89" /\
  u "A12345-67-89" = u "A1" ++ u "2345-67-89" /\
  digits ascii_digit (u "12345") /\
  length (u "2345-67-89") = 10 /\
  u "2345-67-89" <> not_available.
Proof. exact (date_cut_from_digit_run ascii_digit ascii_digit_class). Defined.

(** A date that no calendar has is extracted like any other. *)
Example impossible_date_extracted :
  parse_date_from_label ascii_digit (u "x9999-99-99y2021-03-15") = u "9999-99-99".
Proof. reflexivity. Qed.

Section UnknownClaims.
Variable isdecimal : codepoint -> bool.

Lemma undated_labels_rows records sequences :
  Forall2 (fun record row =>
             exists file idx, sequence_row isdecimal file idx record = inr row)
          records sequences ->
  undated_labels isdecimal (map id records) (unknown_rows sequences).
Proof.
  induction 1 as [|record row records sequences (file & idx & Hrow) _ IH]; cbn [map].
  - constructor.
  - change (row :: sequences) with ([row] ++ sequences).
    rewrite unknown_rows_app, (unknown_rows_one _ _ _ _ _ Hrow).
    destruct (pystr_eqb (parse_date_from_label isdecimal (id record)) not_available)
      eqn:E; simpl.
    + apply undated_keep; [|exact IH]. apply sentinel_iff_undated. exact E.
    + apply undated_skip; [|exact IH].
      destruct (Re.search isdecimal Re.date_pattern (id record)) as [m|] eqn:S.
      * destruct (search_date_leftmost _ _ _ S) as (i & Hm & Hocc & _).
        exists m, i; auto.
      * rewrite (parse_date_missing _ _ S) in E. discriminate.
Qed.

(** C2, as the script has it: every record whose label holds no date-shaped
    substring gets a row whose [sequenceDateISO], [sequenceDateYear],
    [sequenceDateMonth] and [sequenceDateDay] all hold the sentinel ['N/A'],
    and the list of unknown labels is exactly the labels of those records,
    one entry per record, in the order met, repeated labels repeated. *)
Theorem undated_label_fields files w :
  exists sequences unknown_labels w',
    parse_sequences isdecimal files w = (inr (sequences, unknown_labels), w') /\
    Forall2
      (fun record row =>
         field row sequenceLabel = Some (id record) /\
         (~ contains_date isdecimal (id record) ->
          field row sequenceDateISO = Some (u "N/A") /\
          field row sequenceDateYear = Some (u "N/A") /\
          field row sequenceDateMonth = Some (u "N/A") /\
          field row sequenceDateDay = Some (u "N/A")))
      (records_read files (stdin_records w)) sequences /\
    undated_labels isdecimal (map id (records_read files (stdin_records w)))
                   unknown_labels.
Proof.
  destruct (parse_sequences_returns isdecimal files w)
    as (sequences & w' & E & HF & _).
  exists sequences, (unknown_rows sequences), w'. split; [exact E|]. split.
  - revert HF. apply Forall2_impl.
    intros record row (file & idx & Hrow). split.
    + destruct (sequence_row_fields isdecimal file idx record)
        as (row' & _ & _ & _ & E' & _ & Hl & _).
      rewrite Hrow in E'; injection E' as <-. exact Hl.
    + intros Hno.
      exact (sequence_row_undated isdecimal file idx record row Hrow Hno).
  - apply undated_labels_rows. exact HF.
Qed.
End UnknownClaims.

(** C2 as worded fails: the label [seqB|no-date-here] has no date-shaped
    substring, and the date fields of its row hold ['N/A'], not ["unknown"]. *)
Lemma unknown_sentinel_differs :
  ~ contains_date ascii_digit (u "seqB|no-date-here") /\
  exists row,
    sequence_row ascii_digit (TextIO 3 (u "a.fa") []) 1
      {| id := u "seqB|no-date-here"; seq := u "AC" |} = inr row /\
    field row sequenceDateISO = Some (u "N/A") /\
    field row sequenceDateISO <> Some (u "unknown") /\
    field row sequenceDateYear <> Some (u "unknown") /\
    field row sequenceDateMonth <> Some (u "unknown") /\
    field row sequenceDateDay <> Some (u "unknown").
Proof.
  split; [exact example_label_undated|].
  eexists. split; [reflexivity|].
  repeat split; try reflexivity; discriminate.
Qed.

(** ** Group keys and counts *)

Lemma value_compare_eq a b : value_compare a b = Eq <-> a = b.
Proof.
  destruct a as [x|x|], b as [y|y|]; simpl;
    try (split; [discriminate | discriminate]); try tauto.
  - rewrite (list_compare_refl N.compare N.compare_eq_iff).
    split; [intros ->; reflexivity | intros E; injection E; auto].
  - rewrite Z.compare_eq_iff.
    split; [intros ->; reflexivity | intros E; injection E; auto].
Qed.

Lemma value_compare_antisym a b : value_compare b a = CompOpp (value_compare a b).
Proof.
  destruct a as [x|x|], b as [y|y|]; simpl; try reflexivity.
  - apply (list_compare_antisym N.compare N.compare_eq_iff).
    intros; apply N.compare_antisym.
  - apply Z.compare_antisym.
Qed.

Lemma N_compare_trans (x y z : N) c :
  N.compare x y = c -> N.compare y z = c -> N.compare x z = c.
Proof.
  destruct c; intros H1 H2.
  - apply N.compare_eq_iff in H1, H2. subst. apply N.compare_refl.
  - rewrite N.compare_lt_iff in *. lia.
  - rewrite N.compare_gt_iff in *. lia.
Qed.

Lemma Z_compare_trans (x y z : Z) c :
  Z.compare x y = c -> Z.compare y z = c -> Z.compare x z = c.
Proof.
  destruct c; intros H1 H2.
  - apply Z.compare_eq_iff in H1, H2. subst. apply Z.compare_refl.
  - rewrite Z.compare_lt_iff in *. lia.
  - rewrite Z.compare_gt_iff in *. lia.
Qed.

Lemma value_compare_trans a b c r :
  value_compare a b = r -> value_compare b c = r -> value_compare a c = r.
Proof.
  destruct a as [x|x|], b as [y|y|], c as [z|z|]; simpl; try congruence.
  - apply (list_compare_trans N.compare N.compare_eq_iff).
    + intros ? ? ? ?; apply N_compare_trans.
    + intros; apply N.compare_antisym.
  - apply Z_compare_trans.
Qed.

Lemma key_compare_eq k k' : key_compare k k' = Eq <-> k = k'.
Proof. apply (list_compare_refl value_compare value_compare_eq). Qed.

Lemma key_compare_antisym k k' : key_compare k' k = CompOpp (key_compare k k').
Proof.
  apply (list_compare_antisym value_compare value_compare_eq).
  intros; apply value_compare_antisym.
Qed.

Lemma key_compare_trans k1 k2 k3 r :
  key_compare k1 k2 = r -> key_compare k2 k3 = r -> key_compare k1 k3 = r.
Proof.
  apply (list_compare_trans value_compare value_compare_eq).
  - intros ? ? ? ?; apply value_compare_trans.
  - intros; apply value_compare_antisym.
Qed.

Lemma total_bump k groups : total (bump k groups) = S (total groups).
Proof.
  induction groups as [|[k' n] groups IH]; simpl; [reflexivity|].
  destruct (key_compare k k'); simpl; [reflexivity | reflexivity | rewrite IH; lia].
Qed.

Lemma total_groups keys groups :
  total (fold_left (fun groups k => bump k groups) keys groups)
  = length keys + total groups.
Proof.
  revert groups; induction keys as [|k keys IH]; intros groups; simpl; [reflexivity|].
  rewrite IH, total_bump. lia.
Qed.

Lemma count_for_bump k k' groups :
  count_for k (bump k' groups)
  = (match key_compare k' k with Eq => 1 | _ => 0 end) + count_for k groups.
Proof.
  induction groups as [|[k0 n] groups IH]; simpl;
    [destruct (key_compare k' k); reflexivity|].
  destruct (key_compare k' k0) eqn:E; simpl.
  - apply key_compare_eq in E; subst k0.
    destruct (key_compare k' k); lia.
  - destruct (key_compare k' k), (key_compare k0 k); lia.
  - rewrite IH. destruct (key_compare k' k), (key_compare k0 k); lia.
Qed.

Lemma count_for_groups k keys groups :
  count_for k (fold_left (fun groups k => bump k groups) keys groups)
  = length (filter (fun k' => match key_compare k' k with Eq => true | _ => false end) keys)
    + count_for k groups.
Proof.
  revert groups; induction keys as [|k' keys IH]; intros groups; simpl; [reflexivity|].
  rewrite IH, count_for_bump.
  destruct (key_compare k' k); simpl; lia.
Qed.

Lemma bump_keys k groups g :
  In g (bump k groups) ->
  fst g = k \/ exists g', In g' groups /\ fst g' = fst g.
Proof.
  induction groups as [|[k' n] groups IH]; simpl.
  - intros [<-|[]]; left; reflexivity.
  - destruct (key_compare k k') eqn:E; simpl.
    + intros [<-|H]; right; [exists (k', n) | exists g]; auto.
    + intros [<-|[<-|H]]; [left; reflexivity | right; exists (k', n); auto |
                           right; exists g; auto].
    + intros [<-|H]; [right; exists (k', n); auto|].
      destruct (IH H) as [->|(g' & Hg' & Hk)]; [left; reflexivity|].
      right; exists g'; auto.
Qed.

Lemma bump_ascending k groups : ascending groups -> ascending (bump k groups).
Proof.
  unfold ascending.
  induction 1 as [|[k' n] groups Hs IH Hall]; simpl.
  - repeat constructor.
  - destruct (key_compare k k') eqn:E.
    + constructor; [exact Hs | exact Hall].
    + constructor; [constructor; assumption|].
      constructor; [exact E|].
      revert Hall. apply Forall_impl. simpl. intros g Hg.
      exact (key_compare_trans _ _ _ _ E Hg).
    + constructor; [exact IH|].
      apply Forall_forall. intros g Hg. simpl.
      destruct (bump_keys _ _ _ Hg) as [->|(g' & Hg' & <-)].
      * rewrite key_compare_antisym, E. reflexivity.
      * rewrite Forall_forall in Hall. exact (Hall g' Hg').
Qed.

Lemma groups_ascending keys groups :
  ascending groups ->
  ascending (fold_left (fun groups k => bump k groups) keys groups).
Proof.
  revert groups; induction keys as [|k keys IH]; intros groups H; simpl; auto.
  apply IH, bump_ascending, H.
Qed.

(** ** The record table *)

Section TableFacts.
Variable isdecimal : codepoint -> bool.

Lemma sequence_row_cells file idx record row :
  sequence_row isdecimal file idx record = inr row ->
  map fst row = sequence_fields /\ record_cells (map snd row).
Proof.
  unfold sequence_row.
  destruct (date_part _ 0) as [|year]; [discriminate|].
  destruct (date_part _ 1) as [|month]; [discriminate|].
  destruct (date_part _ 2) as [|day]; [discriminate|].
  intros E; injection E as <-. split; [reflexivity|].
  unfold record_cells; simpl. repeat eexists.
Qed.

Lemma add_keys_fields cols row :
  map fst row = sequence_fields ->
  cols = [] \/ cols = sequence_fields ->
  add_keys cols row = sequence_fields.
Proof.
  unfold add_keys. intros -> [->| ->]; vm_compute; reflexivity.
Qed.

Lemma cell_fields row :
  map fst row = sequence_fields ->
  map (cell row) sequence_fields = map snd row.
Proof.
  intros H.
  do 10 (destruct row as [|[? ?] row]; [discriminate|]).
  destruct row; [|discriminate].
  injection H as -> -> -> -> -> -> -> -> -> ->. reflexivity.
Qed.

(** The table of a non-empty list of rows built by [sequence_row]: the ten
    columns in the order of the dict literal, one line of cells per row in
    row order. *)
Lemma record_table sequences :
  sequences <> [] ->
  Forall (fun row => exists file idx record,
              sequence_row isdecimal file idx record = inr row) sequences ->
  columns (DataFrame_of_dicts sequences) = sequence_fields /\
  rows (DataFrame_of_dicts sequences) = map (map snd) sequences /\
  Forall record_cells (rows (DataFrame_of_dicts sequences)).
Proof.
  intros Hne HF.
  assert (Hkeys : Forall (fun row => map fst row = sequence_fields) sequences).
  { revert HF. apply Forall_impl. intros row (f & i & r & E).
    apply (sequence_row_cells _ _ _ _ E). }
  assert (Hcols : fold_left add_keys sequences [] = sequence_fields).
  { destruct sequences as [|row sequences]; [congruence|].
    inversion Hkeys as [|? ? Hrow Hrest]; subst. simpl.
    rewrite (add_keys_fields [] row Hrow) by (left; reflexivity).
    clear -Hrest. induction Hrest as [|row' sequences Hrow' _ IH]; simpl; auto.
    rewrite (add_keys_fields sequence_fields row' Hrow') by (right; reflexivity).
    exact IH. }
  unfold DataFrame_of_dicts; simpl. rewrite Hcols.
  assert (Hrows : map (fun d => map (cell d) sequence_fields) sequences
                  = map (map snd) sequences).
  { apply map_ext_in. intros row Hin. apply cell_fields.
    rewrite Forall_forall in Hkeys. auto. }
  rewrite Hrows. repeat split.
  apply Forall_forall. intros cells Hin.
  apply in_map_iff in Hin as (row & <- & Hin).
  rewrite Forall_forall in HF. destruct (HF row Hin) as (f & i & r & E).
  apply (sequence_row_cells _ _ _ _ E).
Qed.
End TableFacts.

Lemma summary_locate by_ idx :
  summary_columns by_ idx -> locate sequence_fields by_ = inr idx.
Proof. intros [[-> ->]|[[-> ->]|[-> ->]]]; reflexivity. Qed.

Lemma summary_key_kept by_ idx cells :
  summary_columns by_ idx -> record_cells cells ->
  existsb is_nan (row_key idx cells) = false.
Proof.
  intros H (l & c & d & y & m & dd & n & s & o & ->).
  destruct H as [[_ ->]|[[_ ->]|[_ ->]]]; reflexivity.
Qed.

(** Grouping a table of record rows: every row is counted under its key. *)
Lemma groupby_record_table df by_ idx :
  columns df = sequence_fields ->
  Forall record_cells (rows df) ->
  summary_columns by_ idx ->
  groupby_size df by_
  = inr (fold_left (fun groups k => bump k groups)
                   (map (row_key idx) (rows df)) []).
Proof.
  intros Hc Hr Hs. unfold groupby_size.
  rewrite Hc, (summary_locate _ _ Hs). f_equal. f_equal.
  induction Hr as [|cells rows Hcells _ IH]; simpl; [reflexivity|].
  rewrite (summary_key_kept _ _ _ Hs Hcells). simpl. f_equal. exact IH.
Qed.

(** On the empty table the grouping column does not exist. *)
Lemma groupby_empty_table by_ k :
  groupby_size (DataFrame_of_dicts []) (k :: by_) = inl (KeyError k).
Proof. reflexivity. Qed.

(** ** The stages of [main] *)

Lemma writes_refl w : writes w w [].
Proof. unfold writes. rewrite app_nil_r. repeat split. Qed.

Lemma writes_trans w1 w2 w3 a b :
  writes w1 w2 a -> writes w2 w3 b -> writes w1 w3 (a ++ b).
Proof.
  unfold writes.
  intros (Ha & Ha1 & Ha2 & Ha3 & Ha4 & Ha5 & Ha6 & Ha7)
         (Hb & Hb1 & Hb2 & Hb3 & Hb4 & Hb5 & Hb6 & Hb7).
  rewrite Hb, Ha, app_assoc. repeat split; congruence.
Qed.

Lemma write_writes d r w : exists w', write d r w = (inr tt, w') /\ writes w w' [(d, r)].
Proof. eexists. split; [reflexivity|]. repeat split. Qed.

Lemma prints_trans w1 w2 w3 a b :
  prints w1 w2 a -> prints w2 w3 b -> prints w1 w3 (a ++ b).
Proof.
  unfold prints.
  intros (Ha & Ha1 & Ha2 & Ha3 & Ha4 & Ha5 & Ha6 & Ha7)
         (Hb & Hb1 & Hb2 & Hb3 & Hb4 & Hb5 & Hb6 & Hb7).
  rewrite Hb, Ha, app_assoc. repeat split; congruence.
Qed.

Lemma print_prints line w :
  exists w', print line w = (inr tt, w') /\ prints w w' [Printed line].
Proof. eexists. split; [reflexivity|]. repeat split. Qed.

Lemma for_each_print ls w :
  exists w', for_each ls print w = (inr tt, w') /\ prints w w' (map Printed ls).
Proof.
  revert w; induction ls as [|l ls IH]; intros w; simpl.
  - exists w. split; [reflexivity|]. unfold prints. rewrite app_nil_r. repeat split.
  - destruct (print_prints l w) as (w1 & E1 & P1).
    destruct (IH w1) as (w2 & E2 & P2).
    exists w2. rewrite (bind_step _ _ _ _ _ E1). split; [exact E2|].
    exact (prints_trans _ _ _ _ _ P1 P2).
Qed.

Lemma mem_format_choices v :
  mem v format_choices = true <-> v = u "json" \/ v = u "csv" \/ v = u "tsv".
Proof.
  unfold mem, format_choices; simpl.
  rewrite !orb_true_iff, !pystr_eqb_eq. intuition discriminate.
Qed.

(** The closing loop leaves the world as it is: [close] is named, not called. *)
Lemma closing_loop_keeps_world files w :
  for_each files
    (fun file =>
       if negb (is_sys_stdin file)
       then let file_close := close file in ret tt
       else ret tt) w
  = (inr tt, w).
Proof.
  induction files as [|f files IH]; simpl; [reflexivity|].
  rewrite (bind_step _ _ w tt w) by (destruct f; reflexivity). exact IH.
Qed.

(** Opening the inputs: the handles returned by [open] are added to the open
    files, in order; nothing else changes.  A missing file raises, and the
    handles opened before it stay open. *)
Lemma open_inputs paths w r w' :
  mapM (fun file => if negb (pystr_eqb file (u "-"))
                    then open_r file else ret sys_stdin) paths w = (r, w') ->
  disk w' = disk w /\ stdin_records w' = stdin_records w /\
  stderr w' = stderr w /\ written w' = written w /\
  match r with
  | inr files =>
      open_files w' = open_files w ++ named_files files /\
      length files = length paths
  | inl e => exists opened, open_files w' = open_files w ++ opened
  end.
Proof.
  revert w r w'; induction paths as [|p paths IH]; intros w r w'; simpl.
  - intros E; injection E as <- <-. rewrite app_nil_r. repeat split.
  - destruct (negb (pystr_eqb p (u "-"))).
    + unfold bind at 1. unfold open_r at 1.
      destruct (disk_get (disk w) (realpath w p)) as [content|].
      * set (f := TextIO (next_fileno w) p content).
        set (w1 := {| disk := disk w; stdin_records := stdin_records w;
                      open_files := open_files w ++ [f];
                      next_fileno := S (next_fileno w);
                      stderr := stderr w; written := written w;
                      unwritable := unwritable w;
                      format_raises := format_raises w;
                      realpath := realpath w |}).
        unfold bind.
        destruct (mapM _ paths w1) as [[e|files] w2] eqn:E2;
          intros E; injection E as <- <-;
          destruct (IH _ _ _ E2) as (Hd & Hi & Hs & Hw & Ho); simpl in *;
          repeat split; auto.
        -- destruct Ho as [opened Ho]. exists (f :: opened).
           rewrite Ho, <- app_assoc. reflexivity.
        -- destruct Ho as [Ho _]. rewrite Ho, <- app_assoc. reflexivity.
        -- destruct Ho as [_ Hl]. rewrite Hl. reflexivity.
      * intros E; injection E as <- <-. repeat split.
        exists []. symmetry; apply app_nil_r.
    + unfold bind at 1. unfold ret at 1. unfold bind.
      destruct (mapM _ paths w) as [[e|files] w2] eqn:E2;
        intros E; injection E as <- <-;
        destruct (IH _ _ _ E2) as (Hd & Hi & Hs & Hw & Ho); simpl in *;
        repeat split; auto; destruct Ho; auto.
Qed.

(** One argument: only an [-o] touches the disk; a format outside the
    choices and an output path that cannot be opened print a usage error and
    exit with status 2. *)
Lemma consume_cases st t w :
  match consume st t w with
  | (inr st', w') =>
      ~ invalid_token t /\
      (formats_valid (namespace st) -> formats_valid (namespace st')) /\
      (summarize_format (namespace st') = summarize_format (namespace st) \/
       exists v, t = SummarizeFormat v) /\
      stdin_records w' = stdin_records w /\ open_files w' = open_files w /\
      next_fileno w' = next_fileno w /\ stderr w' = stderr w /\
      written w' = written w
  | (inl e, w') =>
      e = SystemExit 2 /\
      (exists argument bad,
          stderr w' = stderr w ++ [Usage argument bad] /\
          refused (unwritable w) t argument bad) /\
      stdin_records w' = stdin_records w /\ open_files w' = open_files w /\
      next_fileno w' = next_fileno w /\ written w' = written w
  end.
Proof.
  unfold formats_valid, refused.
  destruct t as [p|p|v|v|v]; cbn -[mem format_choices].
  - destruct (paths_filled st); cbn -[mem format_choices]; repeat split; auto; tauto.
  - unfold bind, FileType_w. destruct (pystr_eqb p (u "-")) eqn:Ep;
      cbn -[mem format_choices]; [repeat split; auto; tauto|].
    destruct (mem p (unwritable w)) eqn:Eu; cbn -[mem format_choices].
    + repeat split; auto. exists (u "-o/--output-filepath"), p.
      split; [reflexivity|]. right. split; [reflexivity|].
      split; [reflexivity|]. split; [|exact Eu].
      intros ->. rewrite pystr_eqb_refl in Ep. discriminate.
    + repeat split; auto; tauto.
  - destruct (mem v format_choices) eqn:E; cbn -[mem format_choices].
    + repeat split; auto; try congruence. tauto.
    + repeat split; auto. exists (u "-f/--output-format"), v.
      split; [reflexivity|]. left. split; [|exact E]. left. auto.
  - repeat split; auto; tauto.
  - destruct (mem v format_choices) eqn:E; cbn -[mem format_choices].
    + repeat split; auto; try congruence; try tauto.
      right; eauto.
    + repeat split; auto. exists (u "--summarize-format"), v.
      split; [reflexivity|]. left. split; [|exact E]. right. auto.
Qed.

(** No argument changes what can be written or what [format] raises. *)
Lemma consume_keeps st t w :
  unwritable (snd (consume st t w)) = unwritable w /\
  format_raises (snd (consume st t w)) = format_raises w.
Proof.
  destruct t as [p|p|v|v|v]; cbn -[mem format_choices].
  - destruct (paths_filled st); auto.
  - unfold bind, FileType_w. destruct (pystr_eqb p (u "-")); [auto|].
    destruct (mem p (unwritable w)); auto.
  - destruct (mem v format_choices); auto.
  - auto.
  - destruct (mem v format_choices); auto.
Qed.

Lemma consume_all argv st w :
  match foldM consume argv st w with
  | (inr st', w') =>
      Forall (fun t => ~ invalid_token t) argv /\
      (formats_valid (namespace st) -> formats_valid (namespace st')) /\
      ((forall v, ~ In (SummarizeFormat v) argv) ->
       summarize_format (namespace st') = summarize_format (namespace st)) /\
      stdin_records w' = stdin_records w /\ open_files w' = open_files w /\
      next_fileno w' = next_fileno w /\ stderr w' = stderr w /\
      written w' = written w
  | (inl e, w') =>
      e = SystemExit 2 /\
      (exists t argument bad,
          In t argv /\
          stderr w' = stderr w ++ [Usage argument bad] /\
          refused (unwritable w) t argument bad) /\
      stdin_records w' = stdin_records w /\ open_files w' = open_files w /\
      next_fileno w' = next_fileno w /\ written w' = written w
  end.
Proof.
  revert st w; induction argv as [|t argv IH]; intros st w.
  - simpl. split; [constructor|]. split; [auto|]. repeat split; auto.
  - change (foldM consume (t :: argv) st w)
      with (bind (consume st t) (fun st' => foldM consume argv st') w).
    unfold bind. pose proof (consume_cases st t w) as Ht.
    pose proof (consume_keeps st t w) as [Ku _].
    destruct (consume st t w) as [[e|st1] w1].
    + destruct Ht as (He & (argument & bad & Hu & Hr) & Hrest).
      split; [exact He|]. split; [|exact Hrest].
      exists t, argument, bad. split; [left; reflexivity | auto].
    + destruct Ht as (Hi & Hv & Hsf & H1 & H2 & H3 & H4 & H5).
      specialize (IH st1 w1). cbn [snd] in Ku.
      destruct (foldM consume argv st1 w1) as [[e|st2] w2].
      * destruct IH as (He & (t' & argument & bad & Hin & Hu & Hb) & G1 & G2 & G3 & G4).
        split; [exact He|]. split.
        -- exists t', argument, bad. split; [right; exact Hin|].
           split; [congruence|]. rewrite <- Ku. exact Hb.
        -- repeat split; congruence.
      * destruct IH as (Hx & Hv' & Hsf' & G1 & G2 & G3 & G4 & G5).
        split; [constructor; assumption|]. split; [auto|].
        split; [|repeat split; congruence].
        intros Hno. rewrite Hsf'.
        -- destruct Hsf as [E|[v ->]]; [exact E|].
           exfalso. apply (Hno v). left; reflexivity.
        -- intros v Hin. apply (Hno v). right; exact Hin.
Qed.

(** The arguments left over are positional arguments of the command line. *)
Lemma consume_all_extras argv st w st' w' :
  foldM consume argv st w = (inr st', w') ->
  incl (extras st') (extras st ++ positionals argv).
Proof.
  revert st w; induction argv as [|t argv IH]; intros st w.
  - simpl. intros E; injection E as <- _. rewrite app_nil_r. apply incl_refl.
  - change (foldM consume (t :: argv) st w)
      with (bind (consume st t) (fun st' => foldM consume argv st') w).
    intros H. apply bind_inr in H as (st1 & w1 & Ht & H).
    apply IH in H. intros x Hx. apply H in Hx.
    apply in_app_or in Hx as [Hx|Hx]; [|apply in_or_app; right; simpl;
                                        apply in_or_app; right; exact Hx].
    assert (Hst : incl (extras st1)
                       (extras st ++ match t with Positional q => [q] | _ => [] end)).
    { clear -Ht. destruct t as [q|q|v|v|v]; cbn -[mem format_choices] in Ht.
      - destruct (paths_filled st); injection Ht as <- _; simpl;
          [apply incl_refl | apply incl_appl, incl_refl].
      - apply bind_inr in Ht as (d & w2 & _ & Ht). injection Ht as <- _.
        simpl. rewrite app_nil_r. apply incl_refl.
      - destruct (mem v format_choices); [|discriminate Ht].
        injection Ht as <- _. simpl. rewrite app_nil_r. apply incl_refl.
      - injection Ht as <- _. simpl. rewrite app_nil_r. apply incl_refl.
      - destruct (mem v format_choices); [|discriminate Ht].
        injection Ht as <- _. simpl. rewrite app_nil_r. apply incl_refl. }
    apply Hst in Hx. apply in_app_or in Hx as [Hx|Hx]; apply in_or_app;
      [left; exact Hx | right; simpl; apply in_or_app; left; exact Hx].
Qed.

(** [parse_args]: when it returns, no format option is outside the choices
    and both formats of the namespace are among them; otherwise it prints one
    usage error, for an argument it refuses or for positional arguments left
    over, and exits with status 2.  Neither case writes an output or opens
    an input. *)
Lemma parse_args_cases argv w :
  match parse_args argv w with
  | (inr args, w') =>
      Forall (fun t => ~ invalid_token t) argv /\
      formats_valid args /\
      ((forall v, ~ In (SummarizeFormat v) argv) -> summarize_format args = None) /\
      stdin_records w' = stdin_records w /\ open_files w' = open_files w /\
      next_fileno w' = next_fileno w /\ stderr w' = stderr w /\
      written w' = written w
  | (inl e, w') =>
      e = SystemExit 2 /\
      (exists item,
          stderr w' = stderr w ++ [item] /\
          ((exists t argument bad,
               item = Usage argument bad /\ In t argv /\
               refused (unwritable w) t argument bad) \/
           (Forall (fun t => ~ invalid_token t) argv /\
            exists arguments,
              item = Unrecognized arguments /\ arguments <> [] /\
              incl arguments (positionals argv)))) /\
      stdin_records w' = stdin_records w /\ open_files w' = open_files w /\
      next_fileno w' = next_fileno w /\ written w' = written w
  end.
Proof.
  unfold parse_args, bind.
  match goal with
  | |- context [foldM consume argv ?st0 w] =>
      pose proof (consume_all argv st0 w) as H;
      pose proof (consume_all_extras argv st0 w) as Hx;
      destruct (foldM consume argv st0 w) as [[e|st] w1]
  end.
  - destruct H as (He & (t & argument & bad & Hin & Hu & Hr) & Hrest).
    split; [exact He|]. split; [|exact Hrest].
    exists (Usage argument bad). split; [exact Hu|]. left. eauto 6.
  - destruct H as (Hf & Hv & Hsf & H1 & H2 & H3 & H4 & H5).
    specialize (Hx st w1 eq_refl). simpl in Hx.
    destruct (extras st) as [|x xs] eqn:Ex.
    + unfold ret.
      split; [exact Hf|]. split; [|split; [exact Hsf | repeat split; assumption]].
      apply Hv. split; [reflexivity | discriminate].
    + cbn -[mem format_choices]. split; [reflexivity|].
      split; [|repeat split; assumption].
      exists (Unrecognized (x :: xs)). split; [congruence|]. right.
      split; [exact Hf|]. exists (x :: xs). split; [reflexivity|].
      split; [discriminate | exact Hx].
Qed.

(** The chain of format tests of the output stage writes one rendering, the
    one of the format. *)
Lemma output_stage fmt d df w :
  mem fmt format_choices = true ->
  exists r w',
    (if pystr_eqb fmt (u "json") then write d (to_json df)
     else if pystr_eqb fmt (u "csv") then write d (to_csv comma df)
     else if pystr_eqb fmt (u "tsv") then write d (to_csv tab df)
     else ret tt) w = (inr tt, w') /\
    serialized_as fmt df r /\ writes w w' [(d, r)].
Proof.
  intros H. apply mem_format_choices in H as [->|[->| ->]].
  - destruct (write_writes d (to_json df) w) as (w' & E & W).
    exists (to_json df), w'. split; [exact E|]. split; [constructor | exact W].
  - destruct (write_writes d (to_csv comma df) w) as (w' & E & W).
    exists (to_csv comma df), w'. split; [exact E|]. split; [constructor | exact W].
  - destruct (write_writes d (to_csv tab df) w) as (w' & E & W).
    exists (to_csv tab df), w'. split; [exact E|]. split; [constructor | exact W].
Qed.

(** A serializer call given a path: it raises where the path cannot be opened
    and writes the one rendering otherwise. *)
Lemma write_path_cases filename r w :
  (mem filename (unwritable w) = true /\
   write_path filename r w = (inl (OSError filename), w)) \/
  (mem filename (unwritable w) = false /\
   exists w', write_path filename r w = (inr tt, w') /\
              writes w w' [(Path filename, r)]).
Proof.
  unfold write_path. destruct (mem filename (unwritable w)); [left; auto|].
  right. split; [reflexivity|]. apply write_writes.
Qed.

(** The chain of format tests of [output_summaries] makes one serializer
    call, the one of the format. *)
Lemma summary_stage fmt filename df :
  mem fmt format_choices = true ->
  exists r,
    serialized_as fmt df r /\
    (if pystr_eqb fmt (u "json") then write_path filename (to_json df)
     else if pystr_eqb fmt (u "csv") then write_path filename (to_csv comma df)
     else if pystr_eqb fmt (u "tsv") then write_path filename (to_csv tab df)
     else ret tt) = write_path filename r.
Proof.
  intros H. apply mem_format_choices in H as [->|[->| ->]].
  - exists (to_json df). split; [constructor | reflexivity].
  - exists (to_csv comma df). split; [constructor | reflexivity].
  - exists (to_csv tab df). split; [constructor | reflexivity].
Qed.

(** One summary: the result of one pass of the loop of [output_summaries]. *)
Lemma summary_pass df prefix fmt name by_ w :
  mem fmt format_choices = true ->
  match
    (series <- lift (groupby_size df by_) ;;
     let summary_df := reset_index by_ NumSequences series in
     filename <- summary_filename prefix name ;;
     if pystr_eqb fmt (u "json")
     then write_path filename (to_json summary_df)
     else if pystr_eqb fmt (u "csv")
     then write_path filename (to_csv comma summary_df)
     else if pystr_eqb fmt (u "tsv")
     then write_path filename (to_csv tab summary_df)
     else ret tt) w
  with
  | (inr _, w') =>
      exists lit t r,
        literal_text prefix = Some lit /\ summary_table df by_ = inr t /\
        serialized_as fmt t r /\
        mem (lit ++ u "." ++ name) (unwritable w) = false /\
        writes w w' [(Path (lit ++ u "." ++ name), r)]
  | (inl e, w') =>
      w' = w /\
      (summary_table df by_ = inl e \/
       ((exists t, summary_table df by_ = inr t) /\
        (literal_text prefix = None /\
         e = exception_of (format_raises w (base_filename prefix) name) \/
         exists lit,
           literal_text prefix = Some lit /\
           mem (lit ++ u "." ++ name) (unwritable w) = true /\
           e = OSError (lit ++ u "." ++ name))))
  end.
Proof.
  intros Hfmt. unfold summary_table, summary_filename, bind, lift.
  destruct (groupby_size df by_) as [e|series]; [auto|].
  destruct (literal_text prefix) as [lit|];
    [|split; [reflexivity | right; split; [eauto | left; auto]]].
  destruct (summary_stage fmt (lit ++ u "." ++ name)
                          (reset_index by_ NumSequences series) Hfmt)
    as (r & S & ->).
  destruct (write_path_cases (lit ++ u "." ++ name) r w)
    as [[Hu ->]|[Hu (w' & -> & W)]].
  - split; [reflexivity|]. right. split; [eauto|]. right. exists lit. auto.
  - exists lit, (reset_index by_ NumSequences series), r. auto.
Qed.

(** [output_summaries] returns exactly when the three groupings and the file
    names can be made, and then it has written the three summaries. *)
Lemma output_summaries_cases df prefix fmt w :
  mem fmt format_choices = true ->
  match output_summaries df prefix fmt w with
  | (inr _, w') =>
      exists entries, summary_entries df prefix fmt entries /\ writes w w' entries
  | (inl e, w') =>
      exists entries, writes w w' entries /\ length entries < 3
  end.
Proof.
  intros Hfmt. unfold output_summaries, summary_functions, for_each.
  unfold bind at 1.
  pose proof (summary_pass df prefix fmt (u "yearly") [sequenceDateYear] w Hfmt) as H1.
  destruct (bind (lift (groupby_size df [sequenceDateYear])) _ w) as [[e|[]] w1].
  { destruct H1 as [-> _]. exists []. split; [apply writes_refl | simpl; lia]. }
  destruct H1 as (lit1 & ty & ry & L1 & T1 & S1 & _ & W1).
  unfold bind at 1.
  pose proof (summary_pass df prefix fmt (u "monthly")
                [sequenceDateYear; sequenceDateMonth] w1 Hfmt) as H2.
  destruct (bind (lift (groupby_size df [sequenceDateYear; sequenceDateMonth])) _ w1)
    as [[e|[]] w2].
  { destruct H2 as [-> _]. eexists. split; [exact W1 | simpl; lia]. }
  destruct H2 as (lit2 & tm & rm & L2 & T2 & S2 & _ & W2).
  unfold bind at 1.
  pose proof (summary_pass df prefix fmt (u "daily")
                [sequenceDateYear; sequenceDateMonth; sequenceDateDay] w2 Hfmt) as H3.
  destruct (bind (lift (groupby_size df
                          [sequenceDateYear; sequenceDateMonth; sequenceDateDay])) _ w2)
    as [[e|[]] w3].
  { destruct H3 as [-> _]. eexists.
    split; [exact (writes_trans _ _ _ _ _ W1 W2) | simpl; lia]. }
  destruct H3 as (lit3 & td & rd & L3 & T3 & S3 & _ & W3).
  unfold ret.
  rewrite L1 in L2, L3. injection L2 as <-. injection L3 as <-.
  eexists. split.
  - exists lit1, ty, tm, td, ry, rm, rd. repeat split; eauto.
  - exact (writes_trans _ _ _ _ _ (writes_trans _ _ _ _ _ W1 W2) W3).
Qed.

(** ** Runs of [main] *)

Section MainFacts.
Variable isdecimal : codepoint -> bool.

Lemma summary_format_valid args :
  formats_valid args -> mem (summary_format_of args) format_choices = true.
Proof.
  intros [Ho Hs]. unfold summary_format_of.
  destruct (summarize_format args) as [[|c v]|]; cbn -[mem format_choices]; auto.
Qed.

(** A run with a format outside the choices stops in [parse_args], at that
    option or at an output path before it that cannot be opened. *)
Lemma main_usage_error argv w :
  Exists invalid_token argv ->
  exists w' t argument bad,
    main isdecimal argv w = (inl (SystemExit 2), w') /\
    written w' = written w /\ open_files w' = open_files w /\
    stderr w' = stderr w ++ [Usage argument bad] /\
    In t argv /\ refused (unwritable w) t argument bad.
Proof.
  intros Hbad. pose proof (parse_args_cases argv w) as H.
  assert (Hno : ~ Forall (fun t => ~ invalid_token t) argv).
  { intros Hok. apply Exists_exists in Hbad as (t & Hin & Ht).
    rewrite Forall_forall in Hok. exact (Hok t Hin Ht). }
  destruct (parse_args argv w) as [[e|args] w1] eqn:E.
  - destruct H as (-> & (item & Hu & Hc) & _ & Ho & _ & Hw).
    destruct Hc as [(t & argument & bad & -> & Hin & Hr)|[Hok _]];
      [|destruct (Hno Hok)].
    exists w1, t, argument, bad. unfold main.
    rewrite (bind_raise _ _ _ _ _ E). auto 7.
  - destruct H as (Hok & _). destruct (Hno Hok).
Qed.

(** What a run that returns has done, stage by stage. *)
Lemma main_completed argv w w' :
  main isdecimal argv w = (inr tt, w') ->
  exists args w1 input_files w2 sequences w3 r0 summaries,
    parse_args argv w = (inr args, w1) /\
    formats_valid args /\
    mapM (fun file => if negb (pystr_eqb file (u "-"))
                      then open_r file else ret sys_stdin)
         (paths args) w1 = (inr input_files, w2) /\
    parse_sequences isdecimal input_files w2
    = (inr (sequences, unknown_rows sequences), w3) /\
    Forall2 (fun record row =>
               exists file idx, sequence_row isdecimal file idx record = inr row)
            (records_read input_files (stdin_records w2)) sequences /\
    serialized_as (output_format args) (DataFrame_of_dicts sequences) r0 /\
    (if truthy (summarize args)
     then summary_entries (DataFrame_of_dicts sequences)
                          (or_empty (summarize args)) (summary_format_of args)
                          summaries
     else summaries = []) /\
    written w' = written w ++ (output_filepath args, r0) :: summaries /\
    (exists notices,
        stderr w' = stderr w ++ notices ++
          report_lines (Z.of_nat (length sequences))
                       (Z.of_nat (len (DataFrame_of_dicts sequences))
                        - Z.of_nat (length (unknown_rows sequences)))
                       (Z.of_nat (length (unknown_rows sequences)))
                       (unknown_rows sequences)) /\
    open_files w' = open_files w ++ named_files input_files.
Proof.
  intros H. unfold main in H.
  apply bind_inr in H as (args & w1 & Hargs & H).
  apply bind_inr in H as (input_files & w2 & Hopen & H).
  apply bind_inr in H as (parsed & w3 & Hparse & H).
  pose proof (parse_args_cases argv w) as Pa. rewrite Hargs in Pa.
  destruct Pa as (_ & Hvalid & _ & _ & Pa_o & _ & Pa_e & Pa_w).
  pose proof (open_inputs _ _ _ _ Hopen) as (_ & _ & Po_e & Po_w & Po_o & _).
  destruct (parse_sequences_returns isdecimal input_files w2)
    as (sequences & w3' & Hp & HF & _ & Pp_o & _ & Pp_w & notices & Pp_e).
  rewrite Hparse in Hp. injection Hp as -> <-.
  set (df := DataFrame_of_dicts sequences) in *.
  apply bind_inr in H as (x1 & w4 & Hout & H).
  destruct (output_stage (output_format args) (output_filepath args) df w3
              (proj1 Hvalid)) as (r0 & w4' & Hout' & Hser & Wout).
  rewrite Hout in Hout'. destruct x1. injection Hout' as <-.
  apply bind_inr in H as (x2 & w5 & Hsum & H).
  assert (Wsum : exists summaries,
             (if truthy (summarize args)
              then summary_entries df (or_empty (summarize args))
                                   (summary_format_of args) summaries
              else summaries = []) /\ writes w4 w5 summaries).
  { destruct (truthy (summarize args)).
    - pose proof (output_summaries_cases df (or_empty (summarize args))
                    (summary_format_of args) w4 (summary_format_valid _ Hvalid)) as Hs.
      unfold summary_format_of in Hs. rewrite Hsum in Hs. exact Hs.
    - assert (w5 = w4) as -> by (unfold ret in Hsum; congruence).
      exists []. split; [reflexivity | apply writes_refl]. }
  destruct Wsum as (summaries & Hentries & Wsum).
  pose proof (writes_trans _ _ _ _ _ Wout Wsum) as (W_w & _ & _ & W_o & _ & W_e & _).
  apply bind_inr in H as (x3 & w6 & Hp1 & H).
  apply bind_inr in H as (x4 & w7 & Hp2 & H).
  apply bind_inr in H as (x5 & w8 & Hp3 & H).
  apply bind_inr in H as (x6 & w9 & Hp4 & H).
  rewrite closing_loop_keeps_world in H.
  assert (w' = w9) as -> by congruence.
  match type of Hp1 with print ?l _ = _ =>
    destruct (print_prints l w5) as (w6' & E1 & P1) end.
  rewrite Hp1 in E1; destruct x3; injection E1 as <-.
  match type of Hp2 with print ?l _ = _ =>
    destruct (print_prints l w6) as (w7' & E2 & P2) end.
  rewrite Hp2 in E2; destruct x4; injection E2 as <-.
  match type of Hp3 with print ?l _ = _ =>
    destruct (print_prints l w7) as (w8' & E3 & P3) end.
  rewrite Hp3 in E3; destruct x5; injection E3 as <-.
  assert (P4 : prints w8 w9
                 match unknown_rows sequences with
                 | [] => []
                 | _ :: _ => Printed (u "Unknown sequence labels:")
                             :: map Printed (unknown_rows sequences)
                 end).
  { destruct (unknown_rows sequences) as [|l ls] eqn:Eu.
    - assert (w9 = w8) as -> by (unfold ret in Hp4; congruence).
      unfold prints. rewrite app_nil_r. repeat split.
    - apply bind_inr in Hp4 as (x7 & w8a & Hq1 & Hq2).
      destruct (print_prints (u "Unknown sequence labels:") w8) as (w8b & F1 & Q1).
      rewrite Hq1 in F1; destruct x7; injection F1 as <-.
      destruct (for_each_print (l :: ls) w8a) as (w9' & F2 & Q2).
      rewrite Hq2 in F2; destruct x6; injection F2 as <-.
      exact (prints_trans _ _ _ _ _ Q1 Q2). }
  pose proof (prints_trans _ _ _ _ _
                (prints_trans _ _ _ _ _ (prints_trans _ _ _ _ _ P1 P2) P3) P4)
    as (R_e & _ & _ & R_o & _ & R_w & _).
  exists args, w1, input_files, w2, sequences, w3, r0, summaries.
  split; [exact Hargs|]. split; [exact Hvalid|]. split; [exact Hopen|].
  split; [exact Hparse|]. split; [exact HF|]. split; [exact Hser|].
  split; [exact Hentries|]. split; [|split].
  - rewrite R_w, W_w, Pp_w, Po_w, Pa_w. reflexivity.
  - exists notices. rewrite R_e, W_e, Pp_e, Po_e, Pa_e.
    rewrite <- !app_assoc. reflexivity.
  - rewrite R_o, W_o, Pp_o, Po_o, Pa_o. reflexivity.
Qed.
End MainFacts.

(** ** The report *)

Lemma filter_split {A} (f : A -> bool) (l : list A) :
  length (filter f l) + length (filter (fun x => negb (f x)) l) = length l.
Proof.
  induction l as [|x l IH]; simpl; [reflexivity|].
  destruct (f x); simpl; lia.
Qed.

Lemma len_table sequences : len (DataFrame_of_dicts sequences) = length sequences.
Proof. unfold len, DataFrame_of_dicts; simpl. apply length_map. Qed.

Section ReportFacts.
Variable isdecimal : codepoint -> bool.

Lemma unknown_rows_count records sequences :
  Forall2 (fun record row =>
             exists file idx, sequence_row isdecimal file idx record = inr row)
          records sequences ->
  length (unknown_rows sequences) = length (filter is_unknown_row sequences).
Proof.
  induction 1 as [|record row records sequences (file & idx & Hrow) _ IH];
    [reflexivity|].
  change (row :: sequences) with ([row] ++ sequences).
  rewrite unknown_rows_app, length_app, IH, filter_app, length_app. f_equal.
  rewrite (unknown_rows_one _ _ _ _ _ Hrow).
  destruct (sequence_row_fields isdecimal file idx record)
    as (row' & _ & _ & _ & E & _ & _ & Hiso & _).
  rewrite Hrow in E; injection E as <-.
  simpl. unfold is_unknown_row. rewrite Hiso.
  destruct (pystr_eqb _ _); reflexivity.
Qed.

End ReportFacts.

Lemma example_run_completes :
  main ascii_digit [Positional (u "a.fa"); OutputFormat (u "tsv"); Summarize (u "out")]
       example_world
  = (inr tt,
     snd (main ascii_digit
            [Positional (u "a.fa"); OutputFormat (u "tsv"); Summarize (u "out")]
            example_world)).
Proof. vm_compute. reflexivity. Qed.

(** The report of the example run: two read, one parsed, one unknown. *)
Example example_report :
  stderr (snd (main ascii_digit [Positional (u "a.fa")] example_world))
  = report_lines 2 1 1 [u "seqB|no-date-here"].
Proof. vm_compute. reflexivity. Qed.

(** ** The summaries *)

Lemma count_for_member k series :
  0 < count_for k series -> In k (map fst series).
Proof.
  induction series as [|[k' n] series IH]; simpl; [lia|].
  destruct (key_compare k' k) eqn:E.
  - intros _. left. apply key_compare_eq. exact E.
  - intros H; right; auto.
  - intros H; right; auto.
Qed.

Lemma filter_map_length {A B} (f : A -> B) (p : B -> bool) (l : list A) :
  length (filter p (map f l)) = length (filter (fun x => p (f x)) l).
Proof.
  induction l as [|x l IH]; simpl; [reflexivity|].
  destruct (p (f x)); simpl; rewrite IH; reflexivity.
Qed.

Section SummaryFacts.
Variable isdecimal : codepoint -> bool.

(** X5: on every table with at least one record each of the three groupings
    partitions the rows: it returns a series whose counts add up to the
    number of rows, whose keys ascend strictly, which holds for every key the
    number of rows with that key, and in which every row, dated or ['N/A'],
    finds its key. *)
Lemma aggregation_partitions sequences by_ idx :
  sequences <> [] ->
  Forall (fun row => exists file idx record,
              sequence_row isdecimal file idx record = inr row) sequences ->
  summary_columns by_ idx ->
  exists series,
    groupby_size (DataFrame_of_dicts sequences) by_ = inr series /\
    total series = length sequences /\
    ascending series /\
    (forall k, count_for k series
               = length (rows_with_key idx k (rows (DataFrame_of_dicts sequences)))) /\
    (forall cells, In cells (rows (DataFrame_of_dicts sequences)) ->
                   In (row_key idx cells) (map fst series)).
Proof.
  intros Hne HF Hs.
  destruct (record_table isdecimal sequences Hne HF) as (Hc & Hr & Hcells).
  set (df := DataFrame_of_dicts sequences) in *.
  eexists. split; [apply (groupby_record_table df by_ idx Hc Hcells Hs)|].
  assert (Hcount : forall k,
             count_for k (fold_left (fun groups k0 => bump k0 groups)
                                    (map (row_key idx) (rows df)) [])
             = length (rows_with_key idx k (rows df))).
  { intros k. rewrite count_for_groups. simpl. rewrite Nat.add_0_r.
    unfold rows_with_key. apply filter_map_length. }
  split; [|split; [|split]].
  - rewrite total_groups, length_map. simpl. rewrite Nat.add_0_r.
    rewrite <- (len_table sequences). reflexivity.
  - apply groups_ascending. constructor.
  - exact Hcount.
  - intros cells Hin. apply count_for_member. rewrite Hcount.
    unfold rows_with_key.
    assert (Hk : In cells (filter (fun row =>
                      match key_compare (row_key idx row) (row_key idx cells) with
                      | Eq => true | _ => false end) (rows df))).
    { apply filter_In. split; [exact Hin|].
      rewrite (proj2 (key_compare_eq _ _) eq_refl). reflexivity. }
    destruct (filter _ (rows df)); [destruct Hk | simpl; lia].
Qed.

(** Every summary table is in ascending key order, whatever the table. *)
Lemma summary_table_ascending df by_ t :
  summary_table df by_ = inr t -> ascending_table t.
Proof.
  unfold summary_table, groupby_size.
  destruct (locate (columns df) by_) as [e|idx]; [discriminate|].
  intros E; injection E as <-.
  eexists by_, _. split; [reflexivity|]. apply groups_ascending. constructor.
Qed.
End SummaryFacts.

(** The yearly summary of the example: one record of 2021, one ['N/A']. *)
Example example_yearly_summary :
  exists sequences unknown_labels w',
    parse_sequences ascii_digit [TextIO 3 (u "a.fa")
      [ {| id := u "seqA|2021-03-15"; seq := u "ACGT" |};
        {| id := u "seqB|no-date-here"; seq := u "AC" |} ]] example_world
    = (inr (sequences, unknown_labels), w') /\
    groupby_size (DataFrame_of_dicts sequences) [sequenceDateYear]
    = inr [ ([VStr (u "2021")], 1); ([VStr (u "N/A")], 1) ].
Proof. do 3 eexists. split; vm_compute; reflexivity. Qed.

(** C3 fails on the table without records: it has no columns, and each of
    the three groupings raises [KeyError] for [sequenceDateYear] instead of
    returning an empty set of buckets whose counts add up to zero. *)
Theorem aggregation_fails_on_empty_table :
  len (DataFrame_of_dicts []) = 0 /\
  columns (DataFrame_of_dicts []) = [] /\
  Forall (fun item =>
            groupby_size (DataFrame_of_dicts []) (snd item)
            = inl (KeyError sequenceDateYear))
         summary_functions.
Proof. repeat split. repeat constructor. Qed.

(** [output_summaries] on the table without records raises before it writes
    anything, whatever the prefix and the format. *)
Lemma output_summaries_empty_table prefix fmt w :
  output_summaries (DataFrame_of_dicts []) prefix fmt w
  = (inl (KeyError sequenceDateYear), w).
Proof. reflexivity. Qed.

(** C4 fails in its second half: on an input file without records and with a
    summary prefix the run writes the primary output, a table of zero rows,
    then raises [KeyError] in [output_summaries]; no summary file is written
    and the report is never printed. *)
Theorem empty_input_summaries_fail :
  exists w',
    main ascii_digit [Positional (u "e.fa"); Summarize (u "out")] example_world
    = (inl (KeyError sequenceDateYear), w') /\
    written w' = [(Stdout, JsonLines [])] /\
    stderr w' = [].
Proof. eexists. split; [vm_compute; reflexivity|]. split; reflexivity. Qed.

(** Without [--summarize] the same input is handled: zero rows, a report. *)
Example empty_input_without_summaries :
  exists w',
    main ascii_digit [Positional (u "e.fa"); OutputFormat (u "csv")] example_world
    = (inr tt, w') /\
    written w' = [(Stdout, Delimited comma [] [])] /\
    stderr w' = report_lines 0 0 0 [].
Proof. eexists. split; [vm_compute; reflexivity|]. split; reflexivity. Qed.

(** ** Input handles *)

(** C8 fails: no handle is ever closed.  After a complete run on [a.fa] its
    handle is still among the open files, and when a later path cannot be
    opened the run ends with [FileNotFoundError] and the handle opened before
    it is still open. *)
Theorem input_handle_left_open :
  (exists w' content,
      main ascii_digit [Positional (u "a.fa")] example_world = (inr tt, w') /\
      open_files w' = [TextIO 3 (u "a.fa") content]) /\
  (exists w' content,
      main ascii_digit [Positional (u "a.fa"); Positional (u "missing.fa")]
           example_world
      = (inl (FileNotFoundError (u "missing.fa")), w') /\
      open_files w' = [TextIO 3 (u "a.fa") content]).
Proof.
  split; do 2 eexists; (split; [vm_compute; reflexivity | reflexivity]).
Qed.

(** In every run that returns, each handle [open] gave is still open. *)
Lemma handles_stay_open isdecimal argv w w' :
  main isdecimal argv w = (inr tt, w') ->
  exists input_files,
    open_files w' = open_files w ++ named_files input_files.
Proof.
  intros H.
  destruct (main_completed isdecimal argv w w' H)
    as (args & w1 & files & _ & _ & _ & _ & _ & _ & _ & _ & _ & _ & _ & _ & _ & _ & Ho).
  exists files. exact Ho.
Qed.

(** ** Formats *)

Lemma serialized_as_unique fmt df r r' :
  serialized_as fmt df r -> serialized_as fmt df r' -> r = r'.
Proof.
  intros H H'. destruct H; inversion H'; subst; try reflexivity;
    match goal with
    | E : u _ = u _ |- _ => vm_compute in E; discriminate E
    end.
Qed.

Lemma built_rows {A} (R : A -> pydict -> Prop) records sequences :
  Forall2 R records sequences ->
  Forall (fun row => exists record, R record row) sequences.
Proof. induction 1; constructor; eauto. Qed.

(** With [--output-format tsv] and no [--summarize-format] the three summary
    files are tab-separated. *)
Example tsv_summaries_are_tab_separated :
  exists yearly monthly daily table,
    written (snd (main ascii_digit
                    [Positional (u "a.fa"); OutputFormat (u "tsv"); Summarize (u "out")]
                    example_world))
    = [ (Stdout, table);
        (Path (u "out.yearly"),
          Delimited tab [sequenceDateYear; NumSequences] yearly);
        (Path (u "out.monthly"),
          Delimited tab [sequenceDateYear; sequenceDateMonth; NumSequences] monthly);
        (Path (u "out.daily"),
          Delimited tab [sequenceDateYear; sequenceDateMonth; sequenceDateDay;
                         NumSequences] daily) ].
Proof. do 4 eexists. vm_compute. reflexivity. Qed.

(** The bytes of the yearly summary of the example in the tab-separated
    format, with fields written as they are. *)
Example example_yearly_bytes :
  bytes_of (fun s => s) (fun _ s => s)
    (Delimited tab [sequenceDateYear; NumSequences]
       [ [VStr (u "2021"); VInt 1]; [VStr (u "N/A"); VInt 1] ])
  = u "sequenceDateYear" ++ [tab] ++ u "NumSequences" ++ [newline]
    ++ u "2021" ++ [tab] ++ u "1" ++ [newline]
    ++ u "N/A" ++ [tab] ++ u "1" ++ [newline].
Proof. vm_compute. reflexivity. Qed.

(** Called with a format outside the three, [output_summaries] itself reports
    nothing and writes nothing: the test chain has no last [else].  The guard
    of the program is the [choices] of the argument parser. *)
Lemma output_summaries_unknown_format df prefix fmt w r w' :
  mem fmt format_choices = false ->
  output_summaries df prefix fmt w = (r, w') -> w' = w.
Proof.
  unfold mem, format_choices; simpl.
  rewrite !orb_false_iff. intros (Hj & Hc & Ht & _).
  unfold output_summaries, summary_functions, for_each, summary_filename,
    bind, lift, ret.
  rewrite Hj, Hc, Ht.
  destruct (groupby_size df [sequenceDateYear]); [congruence|].
  destruct (literal_text prefix); [|congruence].
  destruct (groupby_size df [sequenceDateYear; sequenceDateMonth]); [congruence|].
  destruct (groupby_size df [sequenceDateYear; sequenceDateMonth; sequenceDateDay]);
    congruence.
Qed.

(** Two records of the same day: one yearly bucket and one daily bucket, each
    with count 2. *)
Example same_day_buckets :
  exists sequences unknown_labels w',
    parse_sequences ascii_digit [TextIO 3 (u "b.fa")
      [ {| id := u "s1|2020-01-01"; seq := u "AC" |};
        {| id := u "s2|2020-01-01"; seq := u "GT" |} ]] example_world
    = (inr (sequences, unknown_labels), w') /\
    unknown_labels = [] /\
    groupby_size (DataFrame_of_dicts sequences) [sequenceDateYear]
    = inr [ ([VStr (u "2020")], 2) ] /\
    groupby_size (DataFrame_of_dicts sequences)
                 [sequenceDateYear; sequenceDateMonth; sequenceDateDay]
    = inr [ ([VStr (u "2020"); VStr (u "01"); VStr (u "01")], 2) ].
Proof. do 3 eexists. repeat split; vm_compute; reflexivity. Qed.

(** * Further properties of the script *)

(** ** [parse_sequences], file by file *)

Lemma records_read_chunks files stdin :
  records_read files stdin = concat (map snd (chunks files stdin)).
Proof.
  revert stdin; induction files as [|[|n p content] files IH]; intros stdin; simpl;
    [reflexivity | |]; rewrite IH; reflexivity.
Qed.

Section ParseExact.
Variable isdecimal : codepoint -> bool.

Lemma inner_loop_indexed file records k sequences w :
  exists rows,
    foldM
      (fun acc ir =>
         let '(sequences, unknown_labels) := acc in
         let '(record_idx, record) := ir in
         let date := parse_date_from_label isdecimal (id record) in
         let unknown_labels :=
           if pystr_eqb date not_available
           then unknown_labels ++ [id record]
           else unknown_labels in
         row <- lift (sequence_row isdecimal file record_idx record) ;;
         ret (sequences ++ [row], unknown_labels))
      (combine (List.seq k (length records)) records)
      (sequences, unknown_rows sequences) w
    = (inr (sequences ++ rows, unknown_rows (sequences ++ rows)), w) /\
    Forall2 (fun ir row => sequence_row isdecimal file (fst ir) (snd ir) = inr row)
            (combine (List.seq k (length records)) records) rows.
Proof.
  match goal with
  | |- context [foldM ?f _ _ _] => set (body := f)
  end.
  revert k sequences; induction records as [|record records IH];
    intros k sequences.
  - exists []. rewrite app_nil_r. split; [reflexivity | constructor].
  - destruct (sequence_row_fields isdecimal file k record)
      as (row & _ & _ & _ & Hrow & _).
    assert (Hb : body (sequences, unknown_rows sequences) (k, record) w
                 = (inr (sequences ++ [row], unknown_rows (sequences ++ [row])), w)).
    { unfold body, bind, lift, ret. rewrite Hrow.
      rewrite unknown_rows_app, (unknown_rows_one _ _ _ _ _ Hrow).
      destruct (pystr_eqb _ _); [reflexivity | rewrite app_nil_r; reflexivity]. }
    destruct (IH (S k) (sequences ++ [row])) as (rows & E & HF).
    exists (row :: rows).
    change (combine (List.seq k (length (record :: records))) (record :: records))
      with ((k, record) :: combine (List.seq (S k) (length records)) records).
    change (foldM body ((k, record) :: ?l) ?s w)
      with (bind (body s (k, record)) (fun s' => foldM body l s') w).
    rewrite (bind_step _ _ _ _ _ Hb), E, <- app_assoc.
    split; [reflexivity|]. constructor; [exact Hrow | exact HF].
Qed.

(** The whole of [parse_sequences]: the rows file by file, each file numbered
    from 0, the notices, and the world it leaves. *)
Lemma parse_sequences_exact files w :
  exists rowss w',
    parse_sequences isdecimal files w
    = (inr (concat rowss, unknown_rows (concat rowss)), w') /\
    Forall2
      (fun chunk rows =>
         Forall2 (fun ir row =>
                    sequence_row isdecimal (fst chunk) (fst ir) (snd ir) = inr row)
                 (enumerate (snd chunk)) rows)
      (chunks files (stdin_records w)) rowss /\
    stderr w' = stderr w ++ notices_of files /\
    stdin_records w' = stdin_after files (stdin_records w) /\
    disk w' = disk w /\ open_files w' = open_files w /\
    next_fileno w' = next_fileno w /\ written w' = written w.
Proof.
  unfold parse_sequences.
  change (@nil pystr) with (unknown_rows []).
  assert (G : forall w sequences0, exists rowss w',
    foldM
      (fun acc file =>
         (if pystr_eqb (file_name file) (u "<stdin>")
          then print (u "(reading from standard input)")
          else ret tt) ;;
         records <- SeqIO_parse file ;;
         foldM
           (fun acc ir =>
              let '(sequences, unknown_labels) := acc in
              let '(record_idx, record) := ir in
              let date := parse_date_from_label isdecimal (id record) in
              let unknown_labels :=
                if pystr_eqb date not_available
                then unknown_labels ++ [id record]
                else unknown_labels in
              row <- lift (sequence_row isdecimal file record_idx record) ;;
              ret (sequences ++ [row], unknown_labels))
           (enumerate records) acc)
      files (sequences0, unknown_rows sequences0) w
    = (inr (sequences0 ++ concat rowss,
            unknown_rows (sequences0 ++ concat rowss)), w') /\
    Forall2
      (fun chunk rows =>
         Forall2 (fun ir row =>
                    sequence_row isdecimal (fst chunk) (fst ir) (snd ir) = inr row)
                 (enumerate (snd chunk)) rows)
      (chunks files (stdin_records w)) rowss /\
    stderr w' = stderr w ++ notices_of files /\
    stdin_records w' = stdin_after files (stdin_records w) /\
    disk w' = disk w /\ open_files w' = open_files w /\
    next_fileno w' = next_fileno w /\ written w' = written w).
  { match goal with
    | |- forall _ _, exists _ _, foldM ?f _ _ _ = _ /\ _ => set (outer := f)
    end.
    clear w. induction files as [|file files IH]; intros w sequences0.
    - exists [], w. simpl. rewrite !app_nil_r. repeat split. constructor.
    - change (foldM outer (file :: files) ?s w)
        with (bind (outer s file) (fun s' => foldM outer files s') w).
      destruct file as [|fd path content].
      + set (wa := snd (print (u "(reading from standard input)") w)).
        set (wb := snd (SeqIO_parse sys_stdin wa)).
        destruct (inner_loop_indexed sys_stdin (stdin_records w) 0 sequences0 wb)
          as (rows & E & HF).
        assert (Hb : outer (sequences0, unknown_rows sequences0) sys_stdin w
                     = (inr (sequences0 ++ rows,
                             unknown_rows (sequences0 ++ rows)), wb)).
        { unfold outer.
          rewrite (bind_step _ _ w tt wa) by reflexivity.
          rewrite (bind_step _ _ wa (stdin_records w) wb) by reflexivity.
          exact E. }
        destruct (IH wb (sequences0 ++ rows))
          as (rowss & w' & E' & HF' & He & Hi & Hd & Ho & Hn & Hw).
        exists (rows :: rowss), w'.
        rewrite (bind_step _ _ _ _ _ Hb), E'. simpl concat. rewrite <- app_assoc.
        split; [reflexivity|]. split; [constructor; [exact HF | exact HF']|].
        split; [rewrite He; simpl; rewrite <- app_assoc; reflexivity|].
        split; [rewrite Hi; unfold stdin_after; simpl;
                destruct (existsb is_sys_stdin files); reflexivity|].
        repeat split; assumption.
      + set (wa := if pystr_eqb path (u "<stdin>")
                   then snd (print (u "(reading from standard input)") w)
                   else w).
        destruct (inner_loop_indexed (TextIO fd path content) content 0 sequences0 wa)
          as (rows & E & HF).
        assert (Hb : outer (sequences0, unknown_rows sequences0)
                           (TextIO fd path content) w
                     = (inr (sequences0 ++ rows,
                             unknown_rows (sequences0 ++ rows)), wa)).
        { unfold outer.
          rewrite (bind_step _ _ w tt wa)
            by (unfold wa; simpl; destruct (pystr_eqb path (u "<stdin>")); reflexivity).
          rewrite (bind_step _ _ wa content wa) by reflexivity.
          exact E. }
        assert (Hwa : stderr wa = stderr w ++ notices_of [TextIO fd path content] /\
                      stdin_records wa = stdin_records w /\
                      disk wa = disk w /\ open_files wa = open_files w /\
                      next_fileno wa = next_fileno w /\ written wa = written w).
        { unfold wa, notices_of; simpl.
          destruct (pystr_eqb path (u "<stdin>")); simpl;
            rewrite ?app_nil_r; repeat split. }
        destruct Hwa as (Ha_e & Ha_i & Ha_d & Ha_o & Ha_n & Ha_w).
        destruct (IH wa (sequences0 ++ rows))
          as (rowss & w' & E' & HF' & He & Hi & Hd & Ho & Hn & Hw).
        exists (rows :: rowss), w'.
        rewrite (bind_step _ _ _ _ _ Hb), E'. simpl concat. rewrite <- app_assoc.
        split; [reflexivity|].
        split; [simpl; rewrite <- Ha_i; constructor; [exact HF | exact HF']|].
        split; [rewrite He, Ha_e; unfold notices_of; simpl;
                rewrite app_nil_r, <- app_assoc; reflexivity|].
        split; [rewrite Hi, Ha_i; reflexivity|].
        repeat split; congruence. }
  destruct (G w []) as (rowss & w' & E & H). simpl in E.
  exists rowss, w'. split; [exact E | exact H].
Qed.
End ParseExact.

Lemma sequence_row_source isdecimal file idx record row :
  sequence_row isdecimal file idx record = inr row ->
  field row sequenceLabel = Some (id record) /\
  field row sequenceCharacters = Some (seq record) /\
  dict_get row sequenceLengthMin = Some (VInt (Z.of_nat (length (seq record)))) /\
  dict_get row sequenceLengthMax = Some (VInt (Z.of_nat (length (seq record)))) /\
  field row sequenceSourcePath = Some (source_path file) /\
  dict_get row sequenceSourceOffset = Some (VInt (Z.of_nat idx)).
Proof.
  unfold sequence_row.
  destruct (date_part _ 0) as [|year]; [discriminate|].
  destruct (date_part _ 1) as [|month]; [discriminate|].
  destruct (date_part _ 2) as [|day]; [discriminate|].
  intros E; injection E as <-.
  repeat split; try reflexivity.
  unfold source_path, field; simpl.
  destruct (pystr_eqb (file_name file) (u "<stdin>")); reflexivity.
Qed.

Lemma filter_shorter {A} (f : A -> bool) (l : list A) :
  length (filter f l) <= length l.
Proof. induction l as [|x l IH]; simpl; [lia|]. destruct (f x); simpl; lia. Qed.

Section ParseProperties.
Variable isdecimal : codepoint -> bool.

(** X1: [parse_sequences] never raises, whatever the labels: the three
    subscripts of [date.split('-')] are always in range.  It returns one row
    per record met, at most as many unknown labels as rows, prints one notice
    for every input whose name is ['<stdin>'], uses up standard input if it is
    among the inputs, and leaves the disk, the open files and the outputs as
    they were. *)
Theorem parse_sequences_never_raises files w :
  exists sequences unknown_labels w',
    parse_sequences isdecimal files w = (inr (sequences, unknown_labels), w') /\
    length sequences = length (records_read files (stdin_records w)) /\
    length unknown_labels <= length sequences /\
    stderr w' = stderr w ++ notices_of files /\
    stdin_records w' = stdin_after files (stdin_records w) /\
    disk w' = disk w /\ open_files w' = open_files w /\ written w' = written w.
Proof.
  destruct (parse_sequences_returns isdecimal files w)
    as (sequences & w' & E & HF & _).
  destruct (parse_sequences_exact isdecimal files w)
    as (rowss & w'' & E' & _ & He & Hi & Hd & Ho & _ & Hw).
  rewrite E in E'. injection E' as Hs _ <-.
  exists sequences, (unknown_rows sequences), w'.
  split; [exact E|]. split; [symmetry; exact (Forall2_length HF)|].
  split; [|repeat split; assumption].
  rewrite (unknown_rows_count isdecimal _ _ HF). apply filter_shorter.
Qed.

(** X2: the rows come file by file in the order of the files, and within a
    file in the order of its records, numbered from 0 again for every file.
    Each row carries the label and the characters of its record, the length
    of the characters twice (as minimum and as maximum), the name of its
    file, or ['standard input'] when that name is ['<stdin>'], and its
    number. *)
Theorem rows_numbered_per_file files w :
  exists rowss unknown_labels w',
    parse_sequences isdecimal files w = (inr (concat rowss, unknown_labels), w') /\
    Forall2
      (fun chunk rows =>
         Forall2
           (fun ir row =>
              field row sequenceLabel = Some (id (snd ir)) /\
              field row sequenceCharacters = Some (seq (snd ir)) /\
              dict_get row sequenceLengthMin
              = Some (VInt (Z.of_nat (length (seq (snd ir))))) /\
              dict_get row sequenceLengthMax
              = Some (VInt (Z.of_nat (length (seq (snd ir))))) /\
              field row sequenceSourcePath = Some (source_path (fst chunk)) /\
              dict_get row sequenceSourceOffset = Some (VInt (Z.of_nat (fst ir))))
           (combine (List.seq 0 (length (snd chunk))) (snd chunk)) rows)
      (chunks files (stdin_records w)) rowss.
Proof.
  destruct (parse_sequences_exact isdecimal files w)
    as (rowss & w' & E & HF & _).
  exists rowss, (unknown_rows (concat rowss)), w'. split; [exact E|].
  revert HF. apply Forall2_impl. intros chunk rows.
  apply Forall2_impl. intros ir row. apply sequence_row_source.
Qed.

(** X3: what [parse_date_from_label] returns is either the sentinel, exactly
    when the label has no date-shaped substring, or ten characters that stand
    in the label; and extracting again from the result gives the result. *)
Theorem extracted_date_shape label :
  (parse_date_from_label isdecimal label = not_available /\
   ~ contains_date isdecimal label
   \/
   length (parse_date_from_label isdecimal label) = 10 /\
   contains_date isdecimal label /\
   exists pre post,
     label = pre ++ parse_date_from_label isdecimal label ++ post) /\
  parse_date_from_label isdecimal (parse_date_from_label isdecimal label)
  = parse_date_from_label isdecimal label.
Proof.
  assert (Hs : parse_date_from_label isdecimal not_available = not_available).
  { destruct (Re.search isdecimal Re.date_pattern not_available) as [m|] eqn:S.
    - destruct (search_date_leftmost _ _ _ S) as (i & Hm & (pre & post & E & _) & _).
      apply date_shaped_length in Hm. apply (f_equal (@length _)) in E.
      rewrite !length_app, Hm in E. simpl in E. lia.
    - apply parse_date_missing. exact S. }
  destruct (Re.search isdecimal Re.date_pattern label) as [m|] eqn:S.
  - rewrite (parse_date_found _ _ _ S).
    destruct (search_date_leftmost _ _ _ S) as (i & Hm & (pre & post & E & Hi) & _).
    split.
    + right. split; [exact (date_shaped_length _ _ Hm)|].
      split; [exists m, i; split; [exact Hm | exists pre, post; auto]|].
      exists pre, post. exact E.
    + apply parse_date_found.
      pose proof (match_here_complete isdecimal Re.date_pattern m []
                    (proj2 (date_pattern_shaped isdecimal m) Hm)) as Hh.
      rewrite app_nil_r in Hh.
      destruct m; simpl in *; rewrite Hh; reflexivity.
  - rewrite (parse_date_missing _ _ S). split; [|exact Hs].
    left. split; [reflexivity | exact (search_date_None _ _ S)].
Qed.

Hypothesis ascii_class :
  forall c, (c < 128)%N -> isdecimal c = ascii_digit c.

(** X4: the four date fields of a row go together.  Either all four hold
    ['N/A'], or [sequenceDateISO] is a year of four digits, a dash, a month of
    two digits, a dash and a day of two digits, and the three other fields
    hold that year, that month and that day. *)
Theorem date_fields_go_together files w :
  exists sequences unknown_labels w',
    parse_sequences isdecimal files w = (inr (sequences, unknown_labels), w') /\
    Forall
      (fun row =>
         (field row sequenceDateISO = Some (u "N/A") /\
          field row sequenceDateYear = Some (u "N/A") /\
          field row sequenceDateMonth = Some (u "N/A") /\
          field row sequenceDateDay = Some (u "N/A"))
         \/
         (exists y mo d,
             field row sequenceDateISO = Some (y ++ dash :: mo ++ dash :: d) /\
             field row sequenceDateYear = Some y /\
             field row sequenceDateMonth = Some mo /\
             field row sequenceDateDay = Some d /\
             length y = 4 /\ length mo = 2 /\ length d = 2 /\
             digits isdecimal y /\ digits isdecimal mo /\ digits isdecimal d))
      sequences.
Proof.
  destruct (parse_sequences_returns isdecimal files w)
    as (sequences & w' & E & HF & _).
  exists sequences, (unknown_rows sequences), w'. split; [exact E|].
  apply built_rows in HF. revert HF. apply Forall_impl.
  intros row (record & file & idx & Hrow).
  destruct (Re.search isdecimal Re.date_pattern (id record)) as [m|] eqn:S.
  - right.
    assert (Hdate : contains_date isdecimal (id record)).
    { destruct (search_date_leftmost _ _ _ S) as (i & Hm & Hocc & _).
      exists m, i; auto. }
    destruct (sequence_row_dated isdecimal ascii_class file idx record row Hrow Hdate)
      as (m' & y & mo & d & (_ & Hm & _) & Hiso & Hy & Hmo & Hd & Hsplit & _).
    destruct Hm as (y' & mo' & d' & -> & Ly & Lmo & Ld & Dy & Dmo & Dd).
    rewrite (split_app dash y' _ (digits_dash_free isdecimal ascii_class _ Dy)) in Hsplit.
    rewrite (split_app dash mo' _ (digits_dash_free isdecimal ascii_class _ Dmo)) in Hsplit.
    rewrite (split_free dash d' (digits_dash_free isdecimal ascii_class _ Dd)) in Hsplit.
    injection Hsplit as <- <- <-.
    exists y', mo', d'. repeat split; assumption.
  - left. apply (sequence_row_undated isdecimal file idx record row Hrow).
    exact (search_date_None _ _ S).
Qed.
End ParseProperties.

Lemma date_fields_go_together_witness :
  exists sequences unknown_labels w',
    parse_sequences ascii_digit
      [TextIO 3 (u "a.fa") [ {| id := u "seqA|2021-03-15"; seq := u "ACGT" |};
                             {| id := u "seqB|no-date-here"; seq := u "AC" |} ]]
      example_world
    = (inr (sequences, unknown_labels), w') /\
    Forall
      (fun row =>
         (field row sequenceDateISO = Some (u "N/A") /\
          field row sequenceDateYear = Some (u "N/A") /\
          field row sequenceDateMonth = Some (u "N/A") /\
          field row sequenceDateDay = Some (u "N/A"))
         \/
         (exists y mo d,
             field row sequenceDateISO = Some (y ++ dash :: mo ++ dash :: d) /\
             field row sequenceDateYear = Some y /\
             field row sequenceDateMonth = Some mo /\
             field row sequenceDateDay = Some d /\
             length y = 4 /\ length mo = 2 /\ length d = 2 /\
             digits ascii_digit y /\ digits ascii_digit mo /\ digits ascii_digit d))
      sequences.
Proof.
  exact (date_fields_go_together ascii_digit ascii_digit_class
           [TextIO 3 (u "a.fa") [ {| id := u "seqA|2021-03-15"; seq := u "ACGT" |};
                                  {| id := u "seqB|no-date-here"; seq := u "AC" |} ]]
           example_world).
Defined.

(** ** Summaries *)

Lemma example_rows_built :
  Forall (fun row => exists file idx record,
              sequence_row ascii_digit file idx record = inr row) example_rows.
Proof.
  unfold example_rows, enumerate, example_records. cbn [length List.seq combine flat_map].
  repeat constructor.
  - exists example_file, 0, {| id := u "seqA|2021-03-15"; seq := u "ACGT" |}.
    vm_compute. reflexivity.
  - exists example_file, 1, {| id := u "seqB|no-date-here"; seq := u "AC" |}.
    vm_compute. reflexivity.
Qed.

Lemma example_rows_nonempty : example_rows <> [].
Proof. vm_compute. discriminate. Qed.

Lemma aggregation_partitions_witness :
  exists series,
    groupby_size (DataFrame_of_dicts example_rows)
                 [sequenceDateYear; sequenceDateMonth] = inr series /\
    total series = length example_rows /\
    ascending series /\
    (forall k, count_for k series
               = length (rows_with_key [3; 4] k
                           (rows (DataFrame_of_dicts example_rows)))) /\
    (forall cells, In cells (rows (DataFrame_of_dicts example_rows)) ->
                   In (row_key [3; 4] cells) (map fst series)).
Proof.
  apply (aggregation_partitions ascii_digit example_rows
           [sequenceDateYear; sequenceDateMonth] [3; 4]).
  - vm_compute. discriminate.
  - exact example_rows_built.
  - right; left. split; reflexivity.
Defined.

Lemma bump_positive k groups :
  Forall (fun g => 1 <= snd g) groups ->
  Forall (fun g => 1 <= snd g) (bump k groups).
Proof.
  induction 1 as [|[k' n] groups Hn Hrest IH]; simpl.
  - repeat constructor.
  - simpl in Hn. destruct (key_compare k k').
    + constructor; [simpl; lia | exact Hrest].
    + constructor; [simpl; lia|]. constructor; assumption.
    + constructor; assumption.
Qed.

Lemma groups_positive keys groups :
  Forall (fun g => 1 <= snd g) groups ->
  Forall (fun g => 1 <= snd g)
         (fold_left (fun groups k => bump k groups) keys groups).
Proof.
  revert groups; induction keys as [|k keys IH]; intros groups H; simpl; auto.
  apply IH, bump_positive, H.
Qed.

Lemma ascending_distinct series : ascending series -> NoDup (map fst series).
Proof.
  unfold ascending. induction 1 as [|g series _ IH Hall]; simpl; constructor; auto.
  intros Hin. apply in_map_iff in Hin as (h & Hk & Hh).
  rewrite Forall_forall in Hall. specialize (Hall h Hh).
  rewrite Hk, (proj2 (key_compare_eq _ _) eq_refl) in Hall. discriminate.
Qed.

(** X6: whatever the table and the grouping columns, a grouping that returns
    has one bucket per distinct key (no key twice), the keys in strictly
    ascending order, and no bucket with a count below 1. *)
Theorem buckets_distinct_and_counted df by_ series :
  groupby_size df by_ = inr series ->
  NoDup (map fst series) /\
  ascending series /\
  Forall (fun g => 1 <= snd g) series.
Proof.
  unfold groupby_size.
  destruct (locate (columns df) by_) as [e|idx]; [discriminate|].
  intros E; injection E as <-.
  assert (Ha : ascending (fold_left (fun groups k => bump k groups)
                 (filter (fun k => negb (existsb is_nan k))
                         (map (row_key idx) (rows df))) []))
    by (apply groups_ascending; constructor).
  split; [apply ascending_distinct; exact Ha|]. split; [exact Ha|].
  apply groups_positive. constructor.
Qed.

Lemma buckets_distinct_and_counted_witness :
  NoDup (map fst [ ([VStr (u "2021")], 1); ([VStr (u "N/A")], 1) ]) /\
  ascending [ ([VStr (u "2021")], 1); ([VStr (u "N/A")], 1) ] /\
  Forall (fun g => 1 <= snd g) [ ([VStr (u "2021")], 1); ([VStr (u "N/A")], 1) ].
Proof.
  apply (buckets_distinct_and_counted (DataFrame_of_dicts example_rows)
           [sequenceDateYear]).
  vm_compute. reflexivity.
Defined.

Lemma bump_comm a b groups : bump a (bump b groups) = bump b (bump a groups).
Proof.
  assert (Hflip : forall x y c, key_compare x y = c -> key_compare y x = CompOpp c).
  { intros x y c <-. apply key_compare_antisym. }
  induction groups as [|[k n] groups IH]; simpl.
  - destruct (key_compare a b) eqn:Eab; rewrite (Hflip _ _ _ Eab); simpl.
    + apply key_compare_eq in Eab; subst; reflexivity.
    + reflexivity.
    + reflexivity.
  - destruct (key_compare a k) eqn:Ea, (key_compare b k) eqn:Eb; simpl;
      rewrite ?Ea, ?Eb; try reflexivity.
    + (* a = k, b < k *)
      apply key_compare_eq in Ea; subst k.
      rewrite (Hflip _ _ _ Eb). reflexivity.
    + (* a < k, b = k *)
      apply key_compare_eq in Eb; subst k.
      rewrite (Hflip _ _ _ Ea). reflexivity.
    + (* a < k, b < k *)
      destruct (key_compare a b) eqn:Eab; rewrite (Hflip _ _ _ Eab); simpl.
      * apply key_compare_eq in Eab; subst; reflexivity.
      * rewrite ?Ea, ?Eb. reflexivity.
      * rewrite ?Ea, ?Eb. reflexivity.
    + (* a < k < b *)
      assert (Eba : key_compare b a = Gt).
      { apply (key_compare_trans b k a Gt Eb). rewrite (Hflip _ _ _ Ea). reflexivity. }
      rewrite ?Eba, ?Ea, ?Eb. reflexivity.
    + (* b < k < a *)
      assert (Eab : key_compare a b = Gt).
      { apply (key_compare_trans a k b Gt Ea). rewrite (Hflip _ _ _ Eb). reflexivity. }
      rewrite ?Eab, ?Ea, ?Eb. reflexivity.
    + rewrite IH. reflexivity.
Qed.

Lemma groups_permutation keys keys' :
  Permutation keys keys' ->
  forall groups,
    fold_left (fun groups k => bump k groups) keys groups
    = fold_left (fun groups k => bump k groups) keys' groups.
Proof.
  induction 1 as [|k keys keys' _ IH|a b keys|keys1 keys2 keys3 _ IH1 _ IH2];
    intros groups; simpl.
  - reflexivity.
  - apply IH.
  - rewrite bump_comm. reflexivity.
  - rewrite IH1. apply IH2.
Qed.

Lemma filter_permutation {A} (f : A -> bool) l l' :
  Permutation l l' -> Permutation (filter f l) (filter f l').
Proof.
  induction 1 as [|x l l' _ IH|x y l|l1 l2 l3 _ IH1 _ IH2]; simpl.
  - constructor.
  - destruct (f x); [constructor|]; exact IH.
  - destruct (f x), (f y); try reflexivity. constructor.
  - exact (Permutation_trans IH1 IH2).
Qed.

Lemma groupby_size_rearranged df1 df2 by_ :
  columns df1 = columns df2 ->
  Permutation (rows df1) (rows df2) ->
  groupby_size df1 by_ = groupby_size df2 by_.
Proof.
  intros Hc Hp. unfold groupby_size. rewrite Hc.
  destruct (locate (columns df2) by_) as [e|idx]; [reflexivity|].
  rewrite (groups_permutation _ _
             (filter_permutation (fun k => negb (existsb is_nan k)) _ _
                (Permutation_map (row_key idx) Hp))).
  reflexivity.
Qed.

(** X7: a summary does not depend on the order of the rows.  Two tables with
    the same columns whose rows are a rearrangement of one another give the
    same buckets with the same counts, hence the same summary table, or the
    same [KeyError], for every list of grouping columns. *)
Theorem summary_order_independent df1 df2 by_ :
  columns df1 = columns df2 ->
  Permutation (rows df1) (rows df2) ->
  groupby_size df1 by_ = groupby_size df2 by_ /\
  summary_table df1 by_ = summary_table df2 by_.
Proof.
  intros Hc Hp.
  pose proof (groupby_size_rearranged df1 df2 by_ Hc Hp) as Hg.
  split; [exact Hg|].
  unfold summary_table. rewrite Hg. reflexivity.
Qed.

Lemma summary_order_independent_witness :
  groupby_size (DataFrame_of_dicts example_rows) [sequenceDateYear]
  = groupby_size {| columns := columns (DataFrame_of_dicts example_rows);
                    rows := rev (rows (DataFrame_of_dicts example_rows)) |}
                 [sequenceDateYear] /\
  summary_table (DataFrame_of_dicts example_rows) [sequenceDateYear]
  = summary_table {| columns := columns (DataFrame_of_dicts example_rows);
                     rows := rev (rows (DataFrame_of_dicts example_rows)) |}
                  [sequenceDateYear].
Proof.
  apply (summary_order_independent (DataFrame_of_dicts example_rows)
           {| columns := columns (DataFrame_of_dicts example_rows);
              rows := rev (rows (DataFrame_of_dicts example_rows)) |}
           [sequenceDateYear]).
  - reflexivity.
  - apply Permutation_rev.
Defined.

Lemma rows_of_chunk isdecimal file records rows :
  Forall2 (fun ir row => sequence_row isdecimal file (fst ir) (snd ir) = inr row)
          records rows ->
  rows = flat_map (fun ir => match sequence_row isdecimal file (fst ir) (snd ir) with
                             | inr row => [row]
                             | inl _ => []
                             end) records.
Proof.
  induction 1 as [|ir row records rows Hrow _ IH]; simpl; [reflexivity|].
  rewrite Hrow, <- IH. reflexivity.
Qed.

Lemma chunks_named files stdin :
  Forall (fun f => is_sys_stdin f = false) files ->
  chunks files stdin = map named_chunk files.
Proof.
  induction 1 as [|[|n p content] files Hf _ IH]; simpl;
    [reflexivity | discriminate | rewrite IH; reflexivity].
Qed.

Section OrderOfFiles.
Variable isdecimal : codepoint -> bool.

Lemma parse_sequences_rows files w :
  exists w',
    parse_sequences isdecimal files w
    = (inr (flat_map (chunk_rows isdecimal) (chunks files (stdin_records w)),
            unknown_rows (flat_map (chunk_rows isdecimal)
                                   (chunks files (stdin_records w)))), w').
Proof.
  destruct (parse_sequences_exact isdecimal files w) as (rowss & w' & E & HF & _).
  exists w'. rewrite E.
  assert (Hr : concat rowss
               = flat_map (chunk_rows isdecimal) (chunks files (stdin_records w))).
  { clear E. induction HF as [|chunk rows chunks rowss Hrows _ IH]; simpl;
      [reflexivity|].
    rewrite IH. f_equal. apply (rows_of_chunk _ _ _ _ Hrows). }
  rewrite Hr. reflexivity.
Qed.

Lemma chunk_rows_built chunks :
  Forall (fun row => exists file idx record,
              sequence_row isdecimal file idx record = inr row)
         (flat_map (chunk_rows isdecimal) chunks).
Proof.
  apply Forall_forall. intros row Hin.
  apply in_flat_map in Hin as (chunk & _ & Hin).
  unfold chunk_rows in Hin. apply in_flat_map in Hin as (ir & _ & Hin).
  destruct (sequence_row isdecimal (fst chunk) (fst ir) (snd ir)) as [|row'] eqn:E;
    [destruct Hin|].
  destruct Hin as [<-|[]]. eauto.
Qed.

Lemma chunk_rows_source files :
  Forall (fun f => is_sys_stdin f = false) files ->
  flat_map (chunk_rows isdecimal) (map named_chunk files)
  = flat_map (source_rows isdecimal) (map named_source files).
Proof.
  induction 1 as [|[|n p content] files Hf _ IH]; simpl;
    [reflexivity | discriminate | rewrite IH; reflexivity].
Qed.

(** X8: the summaries do not depend on the order in which named input files
    are given.  When two lists of opened files hold the same paths with the
    same records in two orders, the two record tables are rearrangements of
    one another, have as many unknown labels, and give the same summary for
    each of the three groupings. *)
Theorem summaries_independent_of_file_order files files' w w' by_ idx :
  Permutation (map named_source files) (map named_source files') ->
  Forall (fun f => is_sys_stdin f = false) files ->
  Forall (fun f => is_sys_stdin f = false) files' ->
  summary_columns by_ idx ->
  exists sequences unknown_labels w1 sequences' unknown_labels' w1',
    parse_sequences isdecimal files w = (inr (sequences, unknown_labels), w1) /\
    parse_sequences isdecimal files' w' = (inr (sequences', unknown_labels'), w1') /\
    Permutation sequences sequences' /\
    length unknown_labels = length unknown_labels' /\
    summary_table (DataFrame_of_dicts sequences) by_
    = summary_table (DataFrame_of_dicts sequences') by_.
Proof.
  intros Hp Hnamed Hnamed' Hcols.
  destruct (parse_sequences_rows files w) as (w1 & E).
  destruct (parse_sequences_rows files' w') as (w1' & E').
  rewrite (chunks_named _ _ Hnamed), (chunk_rows_source _ Hnamed) in E.
  rewrite (chunks_named _ _ Hnamed'), (chunk_rows_source _ Hnamed') in E'.
  set (s := flat_map (source_rows isdecimal) (map named_source files)) in *.
  set (s' := flat_map (source_rows isdecimal) (map named_source files')) in *.
  assert (Hs : Permutation s s').
  { unfold s, s'. apply Permutation_flat_map. exact Hp. }
  exists s, (unknown_rows s), w1, s', (unknown_rows s'), w1'.
  split; [exact E|]. split; [exact E'|]. split; [exact Hs|].
  assert (Hb : Forall (fun row => exists file idx record,
                          sequence_row isdecimal file idx record = inr row) s)
    by (unfold s; rewrite <- (chunk_rows_source _ Hnamed); apply chunk_rows_built).
  assert (Hb' : Forall (fun row => exists file idx record,
                           sequence_row isdecimal file idx record = inr row) s')
    by (unfold s'; rewrite <- (chunk_rows_source _ Hnamed'); apply chunk_rows_built).
  split.
  - unfold unknown_rows. apply Permutation_length.
    apply Permutation_flat_map. exact Hs.
  - destruct s as [|row0 s0] eqn:Es.
    + apply Permutation_nil in Hs. rewrite Hs. reflexivity.
    + assert (Hne' : s' <> []).
      { intros Hnil. rewrite Hnil in Hs.
        apply Permutation_sym, Permutation_nil in Hs. discriminate. }
      destruct (record_table isdecimal (row0 :: s0)) as (Hc & Hr & _);
        [discriminate | exact Hb|].
      destruct (record_table isdecimal s' Hne' Hb') as (Hc' & Hr' & _).
      unfold summary_table.
      rewrite (groupby_size_rearranged (DataFrame_of_dicts (row0 :: s0))
                 (DataFrame_of_dicts s') by_);
        [reflexivity | congruence|].
      rewrite Hr, Hr'. apply Permutation_map. exact Hs.
Qed.
End OrderOfFiles.

Lemma summaries_independent_of_file_order_witness :
  exists sequences unknown_labels w1 sequences' unknown_labels' w1',
    parse_sequences ascii_digit
      [ TextIO 3 (u "a.fa") example_records;
        TextIO 4 (u "b.fa") [ {| id := u "s|2020-01-01"; seq := [] |} ] ]
      example_world = (inr (sequences, unknown_labels), w1) /\
    parse_sequences ascii_digit
      [ TextIO 3 (u "b.fa") [ {| id := u "s|2020-01-01"; seq := [] |} ];
        TextIO 4 (u "a.fa") example_records ]
      example_world = (inr (sequences', unknown_labels'), w1') /\
    Permutation sequences sequences' /\
    length unknown_labels = length unknown_labels' /\
    summary_table (DataFrame_of_dicts sequences) [sequenceDateYear]
    = summary_table (DataFrame_of_dicts sequences') [sequenceDateYear].
Proof.
  apply (summaries_independent_of_file_order ascii_digit
           [ TextIO 3 (u "a.fa") example_records;
             TextIO 4 (u "b.fa") [ {| id := u "s|2020-01-01"; seq := [] |} ] ]
           [ TextIO 3 (u "b.fa") [ {| id := u "s|2020-01-01"; seq := [] |} ];
             TextIO 4 (u "a.fa") example_records ]
           example_world example_world [sequenceDateYear] [3]).
  - apply perm_swap.
  - repeat constructor.
  - repeat constructor.
  - left. split; reflexivity.
Defined.

(** ** File names and summary tables *)

Lemma literal_text_brace_free prefix :
  forallb (fun c => negb (is_brace c)) prefix = true ->
  literal_text prefix = Some prefix.
Proof.
  induction prefix as [|c prefix IH]; simpl; [reflexivity|].
  rewrite andb_true_iff. unfold is_brace at 1. intros [Hc Hrest].
  apply negb_true_iff in Hc. rewrite Hc, (IH Hrest). reflexivity.
Qed.

Section SummaryFiles.
Variable isdecimal : codepoint -> bool.

Lemma record_summary_table sequences by_ idx :
  sequences <> [] ->
  Forall (fun row => exists file idx record,
              sequence_row isdecimal file idx record = inr row) sequences ->
  summary_columns by_ idx ->
  exists t, summary_table (DataFrame_of_dicts sequences) by_ = inr t.
Proof.
  intros Hne HF Hs.
  destruct (record_table isdecimal sequences Hne HF) as (Hc & _ & Hcells).
  unfold summary_table.
  rewrite (groupby_record_table _ by_ idx Hc Hcells Hs). eauto.
Qed.
End SummaryFiles.

(** ** The handles of the inputs *)

Lemma handle_for_same w w' p f :
  disk w' = disk w -> realpath w' = realpath w ->
  handle_for w' p f -> handle_for w p f.
Proof. unfold handle_for. intros -> ->. auto. Qed.

Lemma open_inputs_handles paths w files w' :
  mapM (fun file => if negb (pystr_eqb file (u "-"))
                    then open_r file else ret sys_stdin) paths w = (inr files, w') ->
  Forall2 (handle_for w) paths files.
Proof.
  revert w files w'; induction paths as [|p paths IH]; intros w files w'; simpl.
  - intros E; injection E as <- _. constructor.
  - destruct (pystr_eqb p (u "-")) eqn:Ep; simpl.
    + apply pystr_eqb_eq in Ep. unfold bind at 1. unfold ret at 1. unfold bind.
      destruct (mapM _ paths w) as [[e|files0] w2] eqn:E2; [discriminate|].
      intros E; injection E as <- _.
      constructor; [left; auto | exact (IH _ _ _ E2)].
    + apply pystr_eqb_neq in Ep. unfold bind at 1. unfold open_r at 1.
      destruct (disk_get (disk w) (realpath w p)) as [content|] eqn:Ed;
        [|discriminate].
      unfold bind.
      match goal with
      | |- context [mapM ?f paths ?w1] =>
          destruct (mapM f paths w1) as [[e|files0] w2] eqn:E2; [discriminate|];
          pose proof (IH _ _ _ E2) as IH'
      end.
      intros E; injection E as <- _.
      constructor.
      * right. split; [exact Ep|]. eauto.
      * revert IH'. apply Forall2_impl. intros q g.
        apply handle_for_same; reflexivity.
Qed.

(** ** Paths on the command line *)

Lemma consume_paths_disk st t w st' w' :
  consume st t w = (inr st', w') ->
  (extras st' = [] ->
   extras st = [] /\
   paths (namespace st') = paths (namespace st) ++ positionals [t]) /\
  realpath w' = realpath w /\
  forall p, p <> u "-" ->
            t = OutputFilepath p \/ disk_get (disk w) (realpath w p) = Some [] ->
            disk_get (disk w') (realpath w p) = Some [].
Proof.
  destruct t as [q|q|v|v|v]; cbn -[mem format_choices].
  - destruct (paths_filled st); intros E; injection E as <- <-; simpl.
    + split; [intros Hx; destruct (extras st); discriminate Hx|].
      split; [reflexivity|].
      intros p _ [Hp|Hd]; [discriminate | exact Hd].
    + split; [auto|]. split; [reflexivity|].
      intros p _ [Hp|Hd]; [discriminate | exact Hd].
  - unfold bind, FileType_w, ret.
    destruct (pystr_eqb q (u "-")) eqn:Eq; simpl.
    + intros E; injection E as <- <-; simpl.
      split; [intros Hx; split; [exact Hx | symmetry; apply app_nil_r]|].
      split; [reflexivity|].
      apply pystr_eqb_eq in Eq. intros p Hp [Ht|Hd]; [|exact Hd].
      exfalso. apply Hp. injection Ht as <-. exact Eq.
    + destruct (mem q (unwritable w)); [discriminate|].
      intros E; injection E as <- <-; simpl.
      split; [intros Hx; split; [exact Hx | symmetry; apply app_nil_r]|].
      split; [reflexivity|].
      intros p Hp [Ht|Hd].
      * injection Ht as ->. rewrite pystr_eqb_refl. reflexivity.
      * destruct (pystr_eqb (realpath w p) (realpath w q)); [reflexivity | exact Hd].
  - destruct (mem v format_choices); [|discriminate].
    intros E; injection E as <- <-. simpl.
    split; [intros Hx; split; [exact Hx | symmetry; apply app_nil_r]|].
    split; [reflexivity|].
    intros p _ [Hp|Hd]; [discriminate | exact Hd].
  - intros E; injection E as <- <-. simpl.
    split; [intros Hx; split; [exact Hx | symmetry; apply app_nil_r]|].
    split; [reflexivity|].
    intros p _ [Hp|Hd]; [discriminate | exact Hd].
  - destruct (mem v format_choices); [|discriminate].
    intros E; injection E as <- <-. simpl.
    split; [intros Hx; split; [exact Hx | symmetry; apply app_nil_r]|].
    split; [reflexivity|].
    intros p _ [Hp|Hd]; [discriminate | exact Hd].
Qed.

Lemma consume_all_paths_disk argv st w st' w' :
  foldM consume argv st w = (inr st', w') ->
  (extras st' = [] ->
   extras st = [] /\
   paths (namespace st') = paths (namespace st) ++ positionals argv) /\
  realpath w' = realpath w /\
  forall p, p <> u "-" ->
            In (OutputFilepath p) argv \/
            disk_get (disk w) (realpath w p) = Some [] ->
            disk_get (disk w') (realpath w p) = Some [].
Proof.
  revert st w; induction argv as [|t argv IH]; intros st w.
  - simpl. intros E; injection E as <- <-.
    split; [intros Hx; split; [exact Hx | symmetry; apply app_nil_r]|].
    split; [reflexivity|].
    intros p _ [[]|Hd]; exact Hd.
  - change (foldM consume (t :: argv) st w)
      with (bind (consume st t) (fun st1 => foldM consume argv st1) w).
    intros H. apply bind_inr in H as (st1 & w1 & H1 & H2).
    destruct (consume_paths_disk _ _ _ _ _ H1) as (P1 & R1 & D1).
    destruct (IH _ _ H2) as (P2 & R2 & D2).
    split; [|split; [congruence|]].
    + intros Hx. destruct (P2 Hx) as (Hx1 & E2). destruct (P1 Hx1) as (Hx0 & E1).
      split; [exact Hx0|].
      rewrite E2, E1. change (t :: argv) with ([t] ++ argv).
      unfold positionals. rewrite flat_map_app, app_assoc. reflexivity.
    + intros p Hp Hcase. rewrite <- R1. apply (D2 p Hp). rewrite R1.
      destruct Hcase as [[->|Hin]|Hd].
      * right. apply (D1 p Hp). left; reflexivity.
      * left. exact Hin.
      * right. apply (D1 p Hp). right; exact Hd.
Qed.

(** The namespace [parse_args] returns holds the positional arguments of the
    command line, and the file of every [-o] path has been emptied. *)
Lemma parse_args_paths_disk argv w args w1 :
  parse_args argv w = (inr args, w1) ->
  paths args = match positionals argv with
               | [] => [u "-"]
               | _ :: _ => positionals argv
               end /\
  realpath w1 = realpath w /\
  forall p, p <> u "-" -> In (OutputFilepath p) argv ->
            disk_get (disk w1) (realpath w1 p) = Some [].
Proof.
  unfold parse_args. intros H. apply bind_inr in H as (st & w0 & H1 & H2).
  destruct (consume_all_paths_disk _ _ _ _ _ H1) as (P & R & D).
  destruct (extras st) as [|x xs]; [|discriminate H2].
  destruct (P eq_refl) as (_ & P').
  unfold ret in H2. injection H2 as <- <-. simpl. simpl in P'. rewrite P'.
  split; [reflexivity|]. split; [exact R|].
  intros p Hp Hin. rewrite R. apply (D p Hp). left; exact Hin.
Qed.

Section PathProperties.
Variable isdecimal : codepoint -> bool.

(** X14: a command line without positional arguments reads standard input and
    nothing else.  In a run that returns, no file has been opened, and the
    table holds one row per record of standard input, in order, numbered from
    0, each with the source ['standard input']. *)
Theorem no_positional_reads_stdin argv w w' :
  (forall p, ~ In (Positional p) argv) ->
  main isdecimal argv w = (inr tt, w') ->
  exists args w1 sequences r0 summaries,
    parse_args argv w = (inr args, w1) /\
    paths args = [u "-"] /\
    open_files w' = open_files w /\
    written w' = written w ++ (output_filepath args, r0) :: summaries /\
    serialized_as (output_format args) (DataFrame_of_dicts sequences) r0 /\
    Forall2
      (fun ir row =>
         field row sequenceLabel = Some (id (snd ir)) /\
         field row sequenceCharacters = Some (seq (snd ir)) /\
         field row sequenceSourcePath = Some (u "standard input") /\
         dict_get row sequenceSourceOffset = Some (VInt (Z.of_nat (fst ir))))
      (combine (List.seq 0 (length (stdin_records w))) (stdin_records w))
      sequences.
Proof.
  intros Hno H.
  destruct (main_completed isdecimal argv w w' H)
    as (args & w1 & files & w2 & sequences & w3 & r0 & summaries &
        Hargs & _ & Hopen & Hparse & _ & Hser & _ & Hw & _ & Ho).
  destruct (parse_args_paths_disk _ _ _ _ Hargs) as (Hpaths & _).
  assert (Hpos : positionals argv = []).
  { clear -Hno. induction argv as [|t argv IH]; [reflexivity|].
    destruct t; simpl;
      try (apply IH; intros p Hin; apply (Hno p); right; exact Hin).
    exfalso. apply (Hno path). left; reflexivity. }
  rewrite Hpos in Hpaths.
  pose proof (parse_args_cases argv w) as Pa. rewrite Hargs in Pa.
  destruct Pa as (_ & _ & _ & Pa_i & _).
  rewrite Hpaths in Hopen. vm_compute in Hopen. injection Hopen as <- <-.
  destruct (parse_sequences_exact isdecimal [sys_stdin] w1)
    as (rowss & w3' & E & HF & _).
  rewrite Hparse in E. assert (Hs : sequences = concat rowss) by congruence.
  simpl in HF. rewrite Pa_i in HF.
  inversion HF as [|chunk rows chunks rowss' Hrows Hrest]; subst.
  inversion Hrest; subst. simpl concat in Hser. rewrite app_nil_r in Hser.
  exists args, w1, rows, r0, summaries.
  split; [exact Hargs|]. split; [exact Hpaths|].
  split; [rewrite Ho; simpl; apply app_nil_r|].
  split; [exact Hw|]. split; [exact Hser|].
  revert Hrows. apply Forall2_impl. intros ir row Hrow. simpl in Hrow.
  destruct (sequence_row_source _ _ _ _ _ Hrow) as (Hl & Hc & _ & _ & Hp & Hi).
  repeat split; assumption.
Qed.

(** X15: an input that is also the [-o] destination is read as empty.  The
    destination is opened for writing while the arguments are parsed, so
    every handle [main] opens afterwards on that path holds no record. *)
Theorem output_path_empties_input argv w args w1 files w2 p :
  parse_args argv w = (inr args, w1) ->
  In (OutputFilepath p) argv ->
  p <> u "-" ->
  mapM (fun file => if negb (pystr_eqb file (u "-"))
                    then open_r file else ret sys_stdin)
       (paths args) w1 = (inr files, w2) ->
  Forall (fun f => match f with
                   | sys_stdin => True
                   | TextIO _ q content => q = p -> content = []
                   end) files.
Proof.
  intros Hargs Hin Hp Hopen.
  destruct (parse_args_paths_disk _ _ _ _ Hargs) as (_ & _ & Hdisk).
  specialize (Hdisk p Hp Hin).
  pose proof (open_inputs_handles _ _ _ _ Hopen) as HF.
  clear -HF Hdisk.
  induction HF as [|q f paths files Hh _ IH]; constructor; [|exact IH].
  destruct Hh as [[_ ->]|(_ & n' & c' & -> & Hd)]; [exact I|].
  intros ->. congruence.
Qed.
End PathProperties.

Lemma no_positional_reads_stdin_witness :
  exists args w1 sequences r0 summaries,
    parse_args [OutputFormat (u "csv")]
      {| disk := []; stdin_records := example_records; open_files := [];
         next_fileno := 3; stderr := []; written := []; unwritable := [];
         format_raises := fun _ _ => FormatValueError;
         realpath := fun p => p |} = (inr args, w1) /\
    paths args = [u "-"] /\
    open_files (snd (main ascii_digit [OutputFormat (u "csv")]
                       {| disk := []; stdin_records := example_records;
                          open_files := []; next_fileno := 3; stderr := [];
                          written := []; unwritable := [];
                          format_raises := fun _ _ => FormatValueError;
         realpath := fun p => p |})) = [] /\
    written (snd (main ascii_digit [OutputFormat (u "csv")]
                    {| disk := []; stdin_records := example_records;
                       open_files := []; next_fileno := 3; stderr := [];
                       written := []; unwritable := [];
                       format_raises := fun _ _ => FormatValueError;
         realpath := fun p => p |}))
    = [] ++ (output_filepath args, r0) :: summaries /\
    serialized_as (output_format args) (DataFrame_of_dicts sequences) r0 /\
    Forall2
      (fun ir row =>
         field row sequenceLabel = Some (id (snd ir)) /\
         field row sequenceCharacters = Some (seq (snd ir)) /\
         field row sequenceSourcePath = Some (u "standard input") /\
         dict_get row sequenceSourceOffset = Some (VInt (Z.of_nat (fst ir))))
      (combine (List.seq 0 (length example_records)) example_records)
      sequences.
Proof.
  apply (no_positional_reads_stdin ascii_digit [OutputFormat (u "csv")]
           {| disk := []; stdin_records := example_records; open_files := [];
              next_fileno := 3; stderr := []; written := []; unwritable := [];
              format_raises := fun _ _ => FormatValueError;
         realpath := fun p => p |}).
  - intros p [H|[]]; discriminate H.
  - vm_compute. reflexivity.
Defined.

Lemma output_path_empties_input_witness :
  Forall (fun f => match f with
                   | sys_stdin => True
                   | TextIO _ q content => q = u "a.fa" -> content = []
                   end)
         [sys_stdin; TextIO 3 (u "a.fa") []].
Proof.
  apply (output_path_empties_input
           [Positional (u "-"); Positional (u "a.fa"); OutputFilepath (u "a.fa")]
           example_world
           {| paths := [u "-"; u "a.fa"]; output_filepath := Path (u "a.fa");
              output_format := u "json"; summarize := None;
              summarize_format := None |}
           (snd (parse_args [Positional (u "-"); Positional (u "a.fa");
                             OutputFilepath (u "a.fa")]
                            example_world))
           [sys_stdin; TextIO 3 (u "a.fa") []]
           (snd (mapM (fun file => if negb (pystr_eqb file (u "-"))
                                   then open_r file else ret sys_stdin)
                      [u "-"; u "a.fa"]
                      (snd (parse_args [Positional (u "-"); Positional (u "a.fa");
                                        OutputFilepath (u "a.fa")]
                                       example_world))))
           (u "a.fa")).
  - vm_compute. reflexivity.
  - right; right; left. reflexivity.
  - discriminate.
  - vm_compute. reflexivity.
Defined.

(** The input named as output destination, run to the end: no record is
    left to read and the table written to it has no row. *)
Example input_overwritten_run :
  exists w',
    main ascii_digit [Positional (u "a.fa"); OutputFilepath (u "a.fa")] example_world
    = (inr tt, w') /\
    written w' = [(Path (u "a.fa"), JsonLines [])] /\
    stderr w' = report_lines 0 0 0 [].
Proof. eexists. split; [vm_compute; reflexivity|]. split; reflexivity. Qed.

(** * Runs, end to end *)

(** ** What the parser hands over *)

Lemma serialized_rendered fmt t r : serialized_as fmt t r -> rendered_as fmt t r.
Proof. intros []; constructor. Qed.

Lemma rendered_serialized fmt t r : rendered_as fmt t r -> serialized_as fmt t r.
Proof. intros []; constructor. Qed.

Lemma consume_options st t w st' w' :
  consume st t w = (inr st', w') ->
  output_format (namespace st')
  = match t with OutputFormat v => v | _ => output_format (namespace st) end /\
  summarize (namespace st')
  = match t with Summarize v => Some v | _ => summarize (namespace st) end /\
  summarize_format (namespace st')
  = match t with SummarizeFormat v => Some v
    | _ => summarize_format (namespace st) end.
Proof.
  destruct t as [q|q|v|v|v]; cbn -[mem format_choices].
  - destruct (paths_filled st); intros E; injection E as <- _; auto.
  - intros H. apply bind_inr in H as (d & w1 & _ & H). injection H as <- _. auto.
  - destruct (mem v format_choices); [|discriminate].
    intros E; injection E as <- _; auto.
  - intros E; injection E as <- _; auto.
  - destruct (mem v format_choices); [|discriminate].
    intros E; injection E as <- _; auto.
Qed.

Lemma consume_all_options argv st w st' w' :
  foldM consume argv st w = (inr st', w') ->
  output_format (namespace st')
  = fold_left (fun v t => match t with OutputFormat v' => v' | _ => v end)
              argv (output_format (namespace st)) /\
  summarize (namespace st')
  = fold_left (fun o t => match t with Summarize v => Some v | _ => o end)
              argv (summarize (namespace st)) /\
  summarize_format (namespace st')
  = fold_left (fun o t => match t with SummarizeFormat v => Some v | _ => o end)
              argv (summarize_format (namespace st)).
Proof.
  revert st w; induction argv as [|t argv IH]; intros st w.
  - simpl. intros E; injection E as <- _. auto.
  - change (foldM consume (t :: argv) st w)
      with (bind (consume st t) (fun st1 => foldM consume argv st1) w).
    intros H. apply bind_inr in H as (st1 & w1 & H1 & H2).
    destruct (consume_options _ _ _ _ _ H1) as (A1 & B1 & C1).
    destruct (IH _ _ H2) as (A2 & B2 & C2).
    simpl. rewrite A2, B2, C2, A1, B1, C1. auto.
Qed.

(** The namespace holds, for each option, what the command line gives. *)
Lemma parse_args_options argv w args w1 :
  parse_args argv w = (inr args, w1) ->
  output_format args = given_output_format argv /\
  summarize args = given_summarize argv /\
  summarize_format args = given_summarize_format argv /\
  summary_format_of args = given_summary_format argv.
Proof.
  unfold parse_args. intros H. apply bind_inr in H as (st & w0 & H1 & H2).
  destruct (consume_all_options _ _ _ _ _ H1) as (A & B & C).
  destruct (extras st) as [|x xs]; [|discriminate H2].
  unfold ret in H2. injection H2 as <- _.
  unfold summary_format_of, given_summary_format, given_output_format,
    given_summarize, given_summarize_format.
  cbn [output_format summarize summarize_format].
  rewrite A, B, C. cbn [output_format summarize summarize_format namespace].
  repeat split.
  match goal with |- context [truthy ?o] => destruct o as [[|c v]|] end; reflexivity.
Qed.

(** No stage changes what can be written or what [format] raises. *)
Lemma parse_args_keeps argv w :
  unwritable (snd (parse_args argv w)) = unwritable w /\
  format_raises (snd (parse_args argv w)) = format_raises w.
Proof.
  unfold parse_args, bind.
  match goal with
  | |- context [foldM consume argv ?st0 w] => generalize st0
  end.
  intros st0.
  assert (G : unwritable (snd (foldM consume argv st0 w)) = unwritable w /\
              format_raises (snd (foldM consume argv st0 w)) = format_raises w).
  { revert st0 w. induction argv as [|t argv IH]; intros st0 w; [simpl; auto|].
    change (foldM consume (t :: argv) st0 w)
      with (bind (consume st0 t) (fun st1 => foldM consume argv st1) w).
    unfold bind. pose proof (consume_keeps st0 t w) as [K1 K2].
    destruct (consume st0 t w) as [[e|st1] w1]; cbn [snd] in *; [auto|].
    destruct (IH st1 w1) as [I1 I2]. split; congruence. }
  destruct (foldM consume argv st0 w) as [[e|st] w1]; cbn [snd] in *; [exact G|].
  destruct (extras st); exact G.
Qed.

Lemma open_inputs_keeps paths w r w' :
  mapM (fun file => if negb (pystr_eqb file (u "-"))
                    then open_r file else ret sys_stdin) paths w = (r, w') ->
  unwritable w' = unwritable w /\ format_raises w' = format_raises w.
Proof.
  revert w r w'; induction paths as [|p paths IH]; intros w r w'; simpl.
  - intros E; injection E as <- <-. auto.
  - destruct (negb (pystr_eqb p (u "-"))).
    + unfold bind at 1. unfold open_r at 1.
      destruct (disk_get (disk w) (realpath w p)) as [content|].
      * unfold bind.
        match goal with
        | |- context [mapM ?f paths ?w1] =>
            destruct (mapM f paths w1) as [[e|files] w2] eqn:E2
        end;
          intros E; injection E as <- <-;
          destruct (IH _ _ _ E2) as (Hu & Hf); simpl in *; auto.
      * intros E; injection E as <- <-. auto.
    + unfold bind at 1. unfold ret at 1. unfold bind.
      destruct (mapM _ paths w) as [[e|files] w2] eqn:E2;
        intros E; injection E as <- <-; exact (IH _ _ _ E2).
Qed.

Lemma keeps_ret {A} (a : A) : keeps (ret a).
Proof. intros w. auto. Qed.

Lemma keeps_lift {A} (r : exn + A) : keeps (lift r).
Proof. intros w. auto. Qed.

Lemma keeps_bind {A B} (c : M A) (k : A -> M B) :
  keeps c -> (forall a, keeps (k a)) -> keeps (bind c k).
Proof.
  intros Hc Hk w. unfold bind. specialize (Hc w).
  destruct (c w) as [[e|a] w1]; cbn [snd] in *; [exact Hc|].
  destruct (Hk a w1) as [H1 H2]. destruct Hc as [H3 H4]. split; congruence.
Qed.

Lemma keeps_foldM {A S} (body : S -> A -> M S) l :
  (forall s x, keeps (body s x)) -> forall s, keeps (foldM body l s).
Proof.
  intros Hb. induction l as [|x l IH]; intros s; simpl; [apply keeps_ret|].
  apply keeps_bind; [apply Hb | exact IH].
Qed.

Lemma keeps_print line : keeps (print line).
Proof. intros w. auto. Qed.

Lemma keeps_SeqIO_parse f : keeps (SeqIO_parse f).
Proof. destruct f; intros w; auto. Qed.

Lemma keeps_parse_sequences isdecimal files : keeps (parse_sequences isdecimal files).
Proof.
  unfold parse_sequences. apply keeps_foldM. intros acc file.
  apply keeps_bind; [destruct (pystr_eqb _ _); [apply keeps_print | apply keeps_ret]|].
  intros _. apply keeps_bind; [apply keeps_SeqIO_parse|].
  intros records. apply keeps_foldM. intros [sequences unknown_labels] [idx record].
  apply keeps_bind; [apply keeps_lift | intros row; apply keeps_ret].
Qed.

(** ** The summary files *)

Lemma summary_entries_files df prefix fmt entries :
  summary_entries df prefix fmt entries -> summary_files df prefix fmt entries.
Proof.
  intros (lit & ty & tm & td & ry & rm & rd & L & Ty & Tm & Td & Sy & Sm & Sd & E).
  exists lit, ty, tm, td, ry, rm, rd.
  repeat split; try assumption; apply serialized_rendered; assumption.
Qed.

Lemma serialized_exists fmt t :
  mem fmt format_choices = true -> exists r, serialized_as fmt t r.
Proof.
  intros H. apply mem_format_choices in H as [->|[->| ->]]; eexists; constructor.
Qed.

Section SummaryOutcome.
Variable isdecimal : codepoint -> bool.

(** How [output_summaries] ends on a table of rows of [parse_sequences]: it
    returns with the three summaries written; or it raises at the first
    grouping, on a table without records; or at the first file name, when a
    brace stands alone in the prefix; or at the first of the three files
    that cannot be opened, with the summaries before it written. *)
Lemma output_summaries_outcome sequences prefix fmt w :
  Forall (fun row => exists file idx record,
              sequence_row isdecimal file idx record = inr row) sequences ->
  mem fmt format_choices = true ->
  match output_summaries (DataFrame_of_dicts sequences) prefix fmt w with
  | (inr _, w') =>
      sequences <> [] /\
      exists entries,
        summary_entries (DataFrame_of_dicts sequences) prefix fmt entries /\
        Forall (openable w) entries /\
        writes w w' entries
  | (inl e, w') =>
      (sequences = [] /\ e = KeyError sequenceDateYear /\ w' = w) \/
      (sequences <> [] /\ literal_text prefix = None /\
       e = exception_of (format_raises w (base_filename prefix) (u "yearly")) /\ w' = w) \/
      (sequences <> [] /\
       exists entries before q r after,
         summary_entries (DataFrame_of_dicts sequences) prefix fmt entries /\
         entries = before ++ (Path q, r) :: after /\
         e = OSError q /\ mem q (unwritable w) = true /\
         Forall (openable w) before /\
         writes w w' before)
  end.
Proof.
  intros HF Hfmt.
  destruct sequences as [|row0 sequences0].
  { rewrite output_summaries_empty_table. left. auto. }
  set (sequences := row0 :: sequences0) in *.
  assert (Hne : sequences <> []) by discriminate.
  set (df := DataFrame_of_dicts sequences) in *.
  destruct (record_summary_table isdecimal sequences [sequenceDateYear] [3] Hne HF)
    as (ty & Ty); [left; auto|].
  destruct (record_summary_table isdecimal sequences
              [sequenceDateYear; sequenceDateMonth] [3; 4] Hne HF)
    as (tm & Tm); [right; left; auto|].
  destruct (record_summary_table isdecimal sequences
              [sequenceDateYear; sequenceDateMonth; sequenceDateDay] [3; 4; 5] Hne HF)
    as (td & Td); [right; right; auto|].
  fold df in Ty, Tm, Td.
  destruct (serialized_exists fmt ty Hfmt) as (ry & Sy).
  destruct (serialized_exists fmt tm Hfmt) as (rm & Sm).
  destruct (serialized_exists fmt td Hfmt) as (rd & Sd).
  unfold output_summaries, summary_functions, for_each.
  unfold bind at 1.
  pose proof (summary_pass df prefix fmt (u "yearly") [sequenceDateYear] w Hfmt) as H1.
  destruct (bind (lift (groupby_size df [sequenceDateYear])) _ w) as [[e|[]] w1].
  { destruct H1 as [-> [H1|[_ [[Hnone ->]|(lit & L & Hu & ->)]]]]; [congruence| |].
    - right; left. auto.
    - right; right. split; [exact Hne|].
      exists [ (Path (lit ++ u ".yearly"), ry); (Path (lit ++ u ".monthly"), rm);
               (Path (lit ++ u ".daily"), rd) ], [], (lit ++ u ".yearly"), ry,
             [ (Path (lit ++ u ".monthly"), rm); (Path (lit ++ u ".daily"), rd) ].
      split; [exists lit, ty, tm, td, ry, rm, rd; repeat split; assumption|].
      split; [reflexivity|]. split; [reflexivity|]. split; [exact Hu|].
      split; [constructor | apply writes_refl]. }
  destruct H1 as (lit & ty' & ry' & L & Ty' & Sy' & U1 & W1).
  assert (ty' = ty) as -> by congruence.
  assert (ry' = ry) as -> by (exact (serialized_as_unique _ _ _ _ Sy' Sy)).
  assert (K1 : unwritable w1 = unwritable w) by apply W1.
  unfold bind at 1.
  pose proof (summary_pass df prefix fmt (u "monthly")
                [sequenceDateYear; sequenceDateMonth] w1 Hfmt) as H2.
  destruct (bind (lift (groupby_size df [sequenceDateYear; sequenceDateMonth])) _ w1)
    as [[e|[]] w2].
  { destruct H2 as [-> [H2|[_ [[Hnone _]|(lit' & L' & Hu & ->)]]]]; [congruence..|].
    assert (lit' = lit) as -> by congruence.
    right; right. split; [exact Hne|].
    exists [ (Path (lit ++ u ".yearly"), ry); (Path (lit ++ u ".monthly"), rm);
             (Path (lit ++ u ".daily"), rd) ],
           [ (Path (lit ++ u ".yearly"), ry) ], (lit ++ u ".monthly"), rm,
           [ (Path (lit ++ u ".daily"), rd) ].
    split; [exists lit, ty, tm, td, ry, rm, rd; repeat split; assumption|].
    split; [reflexivity|]. split; [reflexivity|].
    split; [rewrite <- K1; exact Hu|].
    split; [repeat constructor; exact U1 | exact W1]. }
  destruct H2 as (lit' & tm' & rm' & L' & Tm' & Sm' & U2 & W2).
  assert (lit' = lit) as -> by congruence.
  assert (tm' = tm) as -> by congruence.
  assert (rm' = rm) as -> by (exact (serialized_as_unique _ _ _ _ Sm' Sm)).
  assert (K2 : unwritable w2 = unwritable w)
    by (rewrite <- K1; apply W2).
  unfold bind at 1.
  pose proof (summary_pass df prefix fmt (u "daily")
                [sequenceDateYear; sequenceDateMonth; sequenceDateDay] w2 Hfmt) as H3.
  destruct (bind (lift (groupby_size df
                          [sequenceDateYear; sequenceDateMonth; sequenceDateDay])) _ w2)
    as [[e|[]] w3].
  { destruct H3 as [-> [H3|[_ [[Hnone _]|(lit' & L3 & Hu & ->)]]]]; [congruence..|].
    assert (lit' = lit) as -> by congruence.
    right; right. split; [exact Hne|].
    exists [ (Path (lit ++ u ".yearly"), ry); (Path (lit ++ u ".monthly"), rm);
             (Path (lit ++ u ".daily"), rd) ],
           [ (Path (lit ++ u ".yearly"), ry); (Path (lit ++ u ".monthly"), rm) ],
           (lit ++ u ".daily"), rd, [].
    split; [exists lit, ty, tm, td, ry, rm, rd; repeat split; assumption|].
    split; [reflexivity|]. split; [reflexivity|].
    split; [rewrite <- K2; exact Hu|].
    split; [repeat constructor; [exact U1 | unfold openable; simpl; rewrite <- K1; exact U2]
           | exact (writes_trans _ _ _ _ _ W1 W2)]. }
  destruct H3 as (lit' & td' & rd' & L3 & Td' & Sd' & U3 & W3).
  assert (lit' = lit) as -> by congruence.
  assert (td' = td) as -> by congruence.
  assert (rd' = rd) as -> by (exact (serialized_as_unique _ _ _ _ Sd' Sd)).
  unfold ret. split; [exact Hne|].
  exists [ (Path (lit ++ u ".yearly"), ry); (Path (lit ++ u ".monthly"), rm);
           (Path (lit ++ u ".daily"), rd) ].
  split; [exists lit, ty, tm, td, ry, rm, rd; repeat split; assumption|].
  split.
  - repeat constructor; unfold openable; simpl;
      [exact U1 | rewrite <- K1; exact U2 | rewrite <- K2; exact U3].
  - exact (writes_trans _ _ _ _ _ (writes_trans _ _ _ _ _ W1 W2) W3).
Qed.

(** X9: on a table with at least one record, with a supported format, a
    prefix in which every brace is doubled and three file names that can be
    opened for writing, [output_summaries] returns and writes exactly three
    outputs, in this order: the yearly, the monthly and the daily summary, to
    the files named by the prefix (its doubled braces halved; the prefix
    itself when it has no brace) followed by [.yearly], [.monthly] and
    [.daily], each in the rendering of the format. *)
Theorem summary_files_written sequences prefix lit fmt w :
  sequences <> [] ->
  Forall (fun row => exists file idx record,
              sequence_row isdecimal file idx record = inr row) sequences ->
  literal_text prefix = Some lit ->
  mem fmt format_choices = true ->
  mem (lit ++ u ".yearly") (unwritable w) = false ->
  mem (lit ++ u ".monthly") (unwritable w) = false ->
  mem (lit ++ u ".daily") (unwritable w) = false ->
  exists w' ty tm td ry rm rd,
    output_summaries (DataFrame_of_dicts sequences) prefix fmt w = (inr tt, w') /\
    summary_table (DataFrame_of_dicts sequences) [sequenceDateYear] = inr ty /\
    summary_table (DataFrame_of_dicts sequences)
                  [sequenceDateYear; sequenceDateMonth] = inr tm /\
    summary_table (DataFrame_of_dicts sequences)
                  [sequenceDateYear; sequenceDateMonth; sequenceDateDay] = inr td /\
    rendered_as fmt ty ry /\ rendered_as fmt tm rm /\ rendered_as fmt td rd /\
    writes w w' [ (Path (lit ++ u ".yearly"), ry);
                  (Path (lit ++ u ".monthly"), rm);
                  (Path (lit ++ u ".daily"), rd) ] /\
    (forallb (fun c => negb (is_brace c)) prefix = true -> lit = prefix).
Proof.
  intros Hne HF Hlit Hfmt Uy Um Ud.
  pose proof (output_summaries_outcome sequences prefix fmt w HF Hfmt) as H.
  destruct (output_summaries (DataFrame_of_dicts sequences) prefix fmt w)
    as [[e|[]] w'].
  - exfalso. destruct H as [(Hnil & _)|[(_ & Hnone & _)|(_ & H)]]; [congruence..|].
    destruct H as (entries & before & q & r & after &
                   (lit' & ty & tm & td & ry & rm & rd & L & _ & _ & _ & _ & _ & _ & ->)
                   & Hsplit & _ & Hu & _).
    assert (lit' = lit) as -> by congruence.
    assert (Hin : In (Path q, r) [ (Path (lit ++ u ".yearly"), ry);
                                   (Path (lit ++ u ".monthly"), rm);
                                   (Path (lit ++ u ".daily"), rd) ])
      by (rewrite Hsplit; apply in_or_app; right; left; reflexivity).
    destruct Hin as [E|[E|[E|[]]]]; injection E as <- _; congruence.
  - destruct H as (_ & entries & (lit' & ty & tm & td & ry & rm & rd &
                                  L & Ty & Tm & Td & Sy & Sm & Sd & ->) & _ & W).
    rewrite Hlit in L. injection L as <-.
    exists w', ty, tm, td, ry, rm, rd.
    split; [reflexivity|]. split; [exact Ty|]. split; [exact Tm|]. split; [exact Td|].
    split; [exact (serialized_rendered _ _ _ Sy)|].
    split; [exact (serialized_rendered _ _ _ Sm)|].
    split; [exact (serialized_rendered _ _ _ Sd)|].
    split; [exact W|].
    intros Hfree. rewrite (literal_text_brace_free _ Hfree) in Hlit. congruence.
Qed.

(** X10: why [output_summaries] raises on a table of [parse_sequences] and a
    supported format, and what it has written by then.  The table has no
    record and the exception is [KeyError] for [sequenceDateYear], nothing
    written; or the table has records, a brace stands alone in the prefix and
    the exception is the one [format] raises for the template, nothing
    written; or the table has records and the exception is [OSError] for the
    first of the three summary files that cannot be opened, and the summaries
    before that one, and only they, are written. *)
Theorem summaries_failure_causes sequences prefix fmt w e w' :
  Forall (fun row => exists file idx record,
              sequence_row isdecimal file idx record = inr row) sequences ->
  mem fmt format_choices = true ->
  output_summaries (DataFrame_of_dicts sequences) prefix fmt w = (inl e, w') ->
  (sequences = [] /\ e = KeyError sequenceDateYear /\ w' = w) \/
  (sequences <> [] /\ literal_text prefix = None /\
   e = exception_of (format_raises w (base_filename prefix) (u "yearly")) /\ w' = w) \/
  (sequences <> [] /\
   exists entries before q r after,
     summary_files (DataFrame_of_dicts sequences) prefix fmt entries /\
     entries = before ++ (Path q, r) :: after /\
     e = OSError q /\ mem q (unwritable w) = true /\
     Forall (openable w) before /\
     writes w w' before).
Proof.
  intros HF Hfmt E.
  pose proof (output_summaries_outcome sequences prefix fmt w HF Hfmt) as H.
  rewrite E in H.
  destruct H as [H|[H|(Hne & entries & before & q & r & after & He & Hrest)]];
    [left; exact H | right; left; exact H|].
  right; right. split; [exact Hne|].
  exists entries, before, q, r, after.
  split; [exact (summary_entries_files _ _ _ _ He) | exact Hrest].
Qed.
End SummaryOutcome.

Lemma summary_files_written_witness :
  exists w' ty tm td ry rm rd,
    output_summaries (DataFrame_of_dicts example_rows) (u "out{{1}}") (u "csv")
                     example_world = (inr tt, w') /\
    summary_table (DataFrame_of_dicts example_rows) [sequenceDateYear] = inr ty /\
    summary_table (DataFrame_of_dicts example_rows)
                  [sequenceDateYear; sequenceDateMonth] = inr tm /\
    summary_table (DataFrame_of_dicts example_rows)
                  [sequenceDateYear; sequenceDateMonth; sequenceDateDay] = inr td /\
    rendered_as (u "csv") ty ry /\ rendered_as (u "csv") tm rm /\
    rendered_as (u "csv") td rd /\
    writes example_world w' [ (Path (u "out{1}" ++ u ".yearly"), ry);
                              (Path (u "out{1}" ++ u ".monthly"), rm);
                              (Path (u "out{1}" ++ u ".daily"), rd) ] /\
    (forallb (fun c => negb (is_brace c)) (u "out{{1}}") = true ->
     u "out{1}" = u "out{{1}}").
Proof.
  apply (summary_files_written ascii_digit example_rows (u "out{{1}}") (u "out{1}")
           (u "csv") example_world).
  - vm_compute. discriminate.
  - exact example_rows_built.
  - vm_compute. reflexivity.
  - vm_compute. reflexivity.
  - vm_compute. reflexivity.
  - vm_compute. reflexivity.
  - vm_compute. reflexivity.
Defined.

(** In the example world [d.monthly] is a directory: with the prefix [d] the
    yearly summary is written, then the monthly one raises. *)
Lemma summaries_failure_causes_witness :
  (example_rows = [] /\ OSError (u "d.monthly") = KeyError sequenceDateYear /\
   snd (output_summaries (DataFrame_of_dicts example_rows) (u "d") (u "json")
                         example_world) = example_world) \/
  (example_rows <> [] /\ literal_text (u "d") = None /\
   OSError (u "d.monthly")
   = exception_of (format_raises example_world (base_filename (u "d")) (u "yearly")) /\
   snd (output_summaries (DataFrame_of_dicts example_rows) (u "d") (u "json")
                         example_world) = example_world) \/
  (example_rows <> [] /\
   exists entries before q r after,
     summary_files (DataFrame_of_dicts example_rows) (u "d") (u "json") entries /\
     entries = before ++ (Path q, r) :: after /\
     OSError (u "d.monthly") = OSError q /\
     mem q (unwritable example_world) = true /\
     Forall (openable example_world) before /\
     writes example_world
       (snd (output_summaries (DataFrame_of_dicts example_rows) (u "d") (u "json")
                              example_world))
       before).
Proof.
  apply (summaries_failure_causes ascii_digit example_rows (u "d") (u "json")
           example_world (OSError (u "d.monthly"))).
  - exact example_rows_built.
  - vm_compute. reflexivity.
  - vm_compute. reflexivity.
Defined.

(** ** From the opened inputs to the end of the run *)

Lemma report_prints l1 l2 l3 unknown_labels files w :
  exists w',
    (print l1 ;; print l2 ;; print l3 ;;
     (match unknown_labels with
      | [] => ret tt
      | _ :: _ =>
          print (u "Unknown sequence labels:") ;;
          for_each unknown_labels print
      end) ;;
     for_each files
       (fun file =>
          if negb (is_sys_stdin file)
          then let file_close := close file in ret tt
          else ret tt)) w = (inr tt, w') /\
    prints w w' ([Printed l1; Printed l2; Printed l3]
                 ++ match unknown_labels with
                    | [] => []
                    | _ :: _ => Printed (u "Unknown sequence labels:")
                                :: map Printed unknown_labels
                    end).
Proof.
  destruct (print_prints l1 w) as (w1 & E1 & P1).
  destruct (print_prints l2 w1) as (w2 & E2 & P2).
  destruct (print_prints l3 w2) as (w3 & E3 & P3).
  rewrite (bind_step _ _ _ _ _ E1), (bind_step _ _ _ _ _ E2), (bind_step _ _ _ _ _ E3).
  pose proof (prints_trans _ _ _ _ _ (prints_trans _ _ _ _ _ P1 P2) P3) as P123.
  destruct unknown_labels as [|l ls].
  - rewrite (bind_step _ _ w3 tt w3) by reflexivity.
    rewrite closing_loop_keeps_world. exists w3. split; [reflexivity|].
    rewrite app_nil_r. exact P123.
  - destruct (print_prints (u "Unknown sequence labels:") w3) as (w4 & E4 & P4).
    destruct (for_each_print (l :: ls) w4) as (w5 & E5 & P5).
    assert (E45 : (print (u "Unknown sequence labels:") ;;
                   for_each (l :: ls) print) w3 = (inr tt, w5))
      by (rewrite (bind_step _ _ _ _ _ E4); exact E5).
    rewrite (bind_step _ _ _ _ _ E45), closing_loop_keeps_world.
    exists w5. split; [reflexivity|].
    exact (prints_trans _ _ _ _ _ P123 (prints_trans _ _ _ _ _ P4 P5)).
Qed.

Section Runs.
Variable isdecimal : codepoint -> bool.

(** Once the command line is parsed and the inputs are open, the run parses
    every record, writes the table in the rendering of the output format, and
    then either writes the summaries, where it may raise, or skips them; if
    it gets that far it prints the report and returns. *)
Lemma main_after_open argv w args w1 files w2 :
  parse_args argv w = (inr args, w1) ->
  mapM (fun file => if negb (pystr_eqb file (u "-"))
                    then open_r file else ret sys_stdin)
       (paths args) w1 = (inr files, w2) ->
  exists sequences r0 w4,
    sequences = flat_map (chunk_rows isdecimal) (chunks files (stdin_records w2)) /\
    (exists w3, parse_sequences isdecimal files w2
                = (inr (sequences, unknown_rows sequences), w3)) /\
    Forall2 (row_of isdecimal) (records_read files (stdin_records w2)) sequences /\
    serialized_as (output_format args) (DataFrame_of_dicts sequences) r0 /\
    written w4 = written w ++ [(output_filepath args, r0)] /\
    stderr w4 = stderr w ++ notices_of files /\
    open_files w4 = open_files w ++ named_files files /\
    unwritable w4 = unwritable w /\ format_raises w4 = format_raises w /\
    forall r w',
      main isdecimal argv w = (r, w') ->
      if truthy (summarize args)
      then match output_summaries (DataFrame_of_dicts sequences)
                   (or_empty (summarize args)) (summary_format_of args) w4 with
           | (inl e, w5) => r = inl e /\ w' = w5
           | (inr _, w5) =>
               r = inr tt /\
               prints w5 w'
                 (report_lines (Z.of_nat (length sequences))
                    (Z.of_nat (len (DataFrame_of_dicts sequences))
                     - Z.of_nat (length (unknown_rows sequences)))
                    (Z.of_nat (length (unknown_rows sequences)))
                    (unknown_rows sequences))
           end
      else r = inr tt /\
           prints w4 w'
             (report_lines (Z.of_nat (length sequences))
                (Z.of_nat (len (DataFrame_of_dicts sequences))
                 - Z.of_nat (length (unknown_rows sequences)))
                (Z.of_nat (length (unknown_rows sequences)))
                (unknown_rows sequences)).
Proof.
  intros Hargs Hopen.
  pose proof (parse_args_cases argv w) as Pa. rewrite Hargs in Pa.
  destruct Pa as (_ & Hvalid & _ & _ & Pa_o & _ & Pa_e & Pa_w).
  pose proof (parse_args_keeps argv w) as [Ka_u Ka_f]. rewrite Hargs in Ka_u, Ka_f.
  cbn [snd] in Ka_u, Ka_f.
  pose proof (open_inputs _ _ _ _ Hopen) as (_ & _ & Po_e & Po_w & Po_o & _).
  pose proof (open_inputs_keeps _ _ _ _ Hopen) as [Ko_u Ko_f].
  destruct (parse_sequences_rows isdecimal files w2) as (w3 & Hp).
  set (sequences := flat_map (chunk_rows isdecimal) (chunks files (stdin_records w2)))
    in *.
  destruct (parse_sequences_exact isdecimal files w2)
    as (rowss & w3' & E & _ & Pp_e & _ & _ & Pp_o & _ & Pp_w).
  assert (w3' = w3) as -> by congruence. clear E rowss.
  destruct (parse_sequences_returns isdecimal files w2)
    as (sequences' & w3' & E & HF & _).
  assert (sequences' = sequences) as -> by congruence. clear E w3'.
  pose proof (keeps_parse_sequences isdecimal files w2) as [Kp_u Kp_f].
  rewrite Hp in Kp_u, Kp_f. cbn [snd] in Kp_u, Kp_f.
  set (df := DataFrame_of_dicts sequences) in *.
  destruct (output_stage (output_format args) (output_filepath args) df w3
              (proj1 Hvalid)) as (r0 & w4 & Hout & Hser & Wout).
  destruct Wout as (W_w & _ & _ & W_o & _ & W_e & W_u & W_f).
  exists sequences, r0, w4.
  split; [reflexivity|]. split; [exists w3; exact Hp|]. split; [exact HF|].
  split; [exact Hser|].
  split; [rewrite W_w, Pp_w, Po_w, Pa_w; reflexivity|].
  split; [rewrite W_e, Pp_e, Po_e, Pa_e; reflexivity|].
  split; [rewrite W_o, Pp_o, Po_o, Pa_o; reflexivity|].
  split; [congruence|]. split; [congruence|].
  intros r w' Hmain. fold df. unfold main in Hmain.
  rewrite (bind_step _ _ _ _ _ Hargs), (bind_step _ _ _ _ _ Hopen),
    (bind_step _ _ _ _ _ Hp) in Hmain.
  cbv beta iota zeta in Hmain. fold df in Hmain.
  rewrite (bind_step _ _ _ _ _ Hout) in Hmain.
  change (if truthy (summarize_format args)
          then or_empty (summarize_format args)
          else output_format args)
    with (summary_format_of args) in Hmain.
  destruct (truthy (summarize args)).
  - destruct (output_summaries df (or_empty (summarize args))
                               (summary_format_of args) w4)
      as [[e|[]] w5] eqn:Hs.
    + rewrite (bind_raise _ _ _ _ _ Hs) in Hmain. injection Hmain as <- <-. auto.
    + rewrite (bind_step _ _ _ _ _ Hs) in Hmain.
      match type of Hmain with
      | bind (print ?l1) (fun _ => bind (print ?l2) (fun _ => bind (print ?l3) _)) _ = _ =>
          destruct (report_prints l1 l2 l3 (unknown_rows sequences) files w5)
            as (w6 & E6 & P6)
      end.
      pose proof (eq_trans (eq_sym E6) Hmain) as C. injection C as <- <-.
      split; [reflexivity | exact P6].
  - rewrite (bind_step _ _ w4 tt w4) in Hmain by reflexivity.
    match type of Hmain with
    | bind (print ?l1) (fun _ => bind (print ?l2) (fun _ => bind (print ?l3) _)) _ = _ =>
        destruct (report_prints l1 l2 l3 (unknown_rows sequences) files w4)
          as (w6 & E6 & P6)
    end.
    pose proof (eq_trans (eq_sym E6) Hmain) as C. injection C as <- <-.
    split; [reflexivity | exact P6].
Qed.
End Runs.

Lemma openable_same w w' e :
  unwritable w' = unwritable w -> openable w' e -> openable w e.
Proof. unfold openable. intros ->. auto. Qed.

Section RunOutcome.
Variable isdecimal : codepoint -> bool.

(** How a run ends once the inputs are open: it returns, with the table, the
    summaries asked for and the report written; or it raises in
    [output_summaries], with the table and the summaries before the failure
    written and no report. *)
Lemma main_outcome argv w args w1 files w2 r w' :
  parse_args argv w = (inr args, w1) ->
  mapM (fun file => if negb (pystr_eqb file (u "-"))
                    then open_r file else ret sys_stdin)
       (paths args) w1 = (inr files, w2) ->
  main isdecimal argv w = (r, w') ->
  exists r0 summaries,
    serialized_as (output_format args)
      (DataFrame_of_dicts (rows_read isdecimal files (stdin_records w2))) r0 /\
    Forall2 (row_of isdecimal) (records_read files (stdin_records w2))
            (rows_read isdecimal files (stdin_records w2)) /\
    written w' = written w ++ (output_filepath args, r0) :: summaries /\
    open_files w' = open_files w ++ named_files files /\
    Forall (openable w) summaries /\
    ((r = inr tt /\
      stderr w' = stderr w ++ notices_of files ++
        report_lines
          (Z.of_nat (length (rows_read isdecimal files (stdin_records w2))))
          (Z.of_nat (len (DataFrame_of_dicts
                            (rows_read isdecimal files (stdin_records w2))))
           - Z.of_nat (length (unknown_rows
                                 (rows_read isdecimal files (stdin_records w2)))))
          (Z.of_nat (length (unknown_rows
                               (rows_read isdecimal files (stdin_records w2)))))
          (unknown_rows (rows_read isdecimal files (stdin_records w2))) /\
      (if truthy (summarize args)
       then rows_read isdecimal files (stdin_records w2) <> [] /\
            summary_entries
              (DataFrame_of_dicts (rows_read isdecimal files (stdin_records w2)))
              (or_empty (summarize args)) (summary_format_of args) summaries
       else summaries = []))
     \/
     (exists e,
         r = inl e /\ truthy (summarize args) = true /\
         stderr w' = stderr w ++ notices_of files /\
         (rows_read isdecimal files (stdin_records w2) = [] /\
          e = KeyError sequenceDateYear /\ summaries = [] \/
          rows_read isdecimal files (stdin_records w2) <> [] /\
          literal_text (or_empty (summarize args)) = None /\
          e = exception_of
                (format_raises w (base_filename (or_empty (summarize args)))
                               (u "yearly")) /\
          summaries = [] \/
          rows_read isdecimal files (stdin_records w2) <> [] /\
          exists entries q r1 after,
            summary_entries
              (DataFrame_of_dicts (rows_read isdecimal files (stdin_records w2)))
              (or_empty (summarize args)) (summary_format_of args) entries /\
            entries = summaries ++ (Path q, r1) :: after /\
            e = OSError q /\ mem q (unwritable w) = true))).
Proof.
  intros Hargs Hopen Hmain.
  pose proof (parse_args_cases argv w) as Pa. rewrite Hargs in Pa.
  destruct Pa as (_ & Hvalid & _).
  destruct (main_after_open isdecimal argv w args w1 files w2 Hargs Hopen)
    as (sequences & r0 & w4 & -> & _ & HF & Hser & Hw & He & Ho & Hu & Hf & H).
  fold (rows_read isdecimal files (stdin_records w2)) in *.
  set (sequences := rows_read isdecimal files (stdin_records w2)) in *.
  specialize (H r w' Hmain).
  pose proof (output_summaries_outcome isdecimal sequences
                (or_empty (summarize args)) (summary_format_of args) w4
                (chunk_rows_built isdecimal _) (summary_format_valid _ Hvalid)) as Hs.
  destruct (truthy (summarize args)).
  - destruct (output_summaries (DataFrame_of_dicts sequences)
                (or_empty (summarize args)) (summary_format_of args) w4)
      as [[e|[]] w5].
    + destruct H as [-> ->].
      destruct Hs as [(Hnil & -> & ->)|[(Hne & Hnone & -> & ->)|
                      (Hne & entries & before & q & r1 & after &
                       Hent & Hsplit & -> & Hq & Hb & W)]].
      * exists r0, []. split; [exact Hser|]. split; [exact HF|].
        split; [exact Hw|]. split; [exact Ho|]. split; [constructor|].
        right. eexists. split; [reflexivity|]. split; [reflexivity|].
        split; [exact He|]. left. auto.
      * exists r0, []. split; [exact Hser|]. split; [exact HF|].
        split; [exact Hw|]. split; [exact Ho|]. split; [constructor|].
        right. eexists. split; [reflexivity|]. split; [reflexivity|].
        split; [exact He|]. right; left. rewrite Hf. auto.
      * destruct W as (W_w & _ & _ & W_o & _ & W_e & _).
        exists r0, before. split; [exact Hser|]. split; [exact HF|].
        split; [rewrite W_w, Hw, <- app_assoc; reflexivity|].
        split; [rewrite W_o; exact Ho|].
        split; [revert Hb; apply Forall_impl; intros x; apply openable_same;
                exact Hu|].
        right. eexists. split; [reflexivity|]. split; [reflexivity|].
        split; [rewrite W_e; exact He|]. right; right.
        split; [exact Hne|]. exists entries, q, r1, after.
        rewrite <- Hu. auto.
    + destruct H as [-> P].
      destruct Hs as (Hne & entries & Hent & Hopenable & W).
      destruct W as (W_w & _ & _ & W_o & _ & W_e & _).
      destruct P as (P_e & _ & _ & P_o & _ & P_w & _).
      exists r0, entries. split; [exact Hser|]. split; [exact HF|].
      split; [rewrite P_w, W_w, Hw, <- app_assoc; reflexivity|].
      split; [rewrite P_o, W_o; exact Ho|].
      split; [revert Hopenable; apply Forall_impl; intros x; apply openable_same;
              exact Hu|].
      left. split; [reflexivity|].
      split; [rewrite P_e, W_e, He, <- app_assoc; reflexivity|].
      split; [exact Hne | exact Hent].
  - destruct H as [-> P].
    destruct P as (P_e & _ & _ & P_o & _ & P_w & _).
    exists r0, []. split; [exact Hser|]. split; [exact HF|].
    split; [rewrite P_w; exact Hw|].
    split; [rewrite P_o; exact Ho|]. split; [constructor|].
    left. split; [reflexivity|].
    split; [rewrite P_e, He, <- app_assoc; reflexivity | reflexivity].
Qed.

(** A run ends in [parse_args], or when an input is opened, or after that. *)
Lemma main_stages argv w r w' :
  main isdecimal argv w = (r, w') ->
  (exists e, r = inl e /\ parse_args argv w = (inl e, w'))
  \/
  (exists e args w1,
      r = inl e /\ parse_args argv w = (inr args, w1) /\
      mapM (fun file => if negb (pystr_eqb file (u "-"))
                        then open_r file else ret sys_stdin)
           (paths args) w1 = (inl e, w'))
  \/
  (exists args w1 files w2,
      parse_args argv w = (inr args, w1) /\
      mapM (fun file => if negb (pystr_eqb file (u "-"))
                        then open_r file else ret sys_stdin)
           (paths args) w1 = (inr files, w2)).
Proof.
  intros H. unfold main in H.
  destruct (parse_args argv w) as [[e|args] w1] eqn:Hargs.
  - rewrite (bind_raise _ _ _ _ _ Hargs) in H. injection H as <- <-.
    left. eauto.
  - rewrite (bind_step _ _ _ _ _ Hargs) in H.
    destruct (mapM (fun file => if negb (pystr_eqb file (u "-"))
                                then open_r file else ret sys_stdin)
                   (paths args) w1) as [[e|files] w2] eqn:Hopen.
    + rewrite (bind_raise _ _ _ _ _ Hopen) in H. injection H as <- <-.
      right; left. eauto 6.
    + right; right. eauto 6.
Qed.
End RunOutcome.

(** ** The report and the formats *)

Lemma rendered_as_unique fmt t r r' :
  rendered_as fmt t r -> rendered_as fmt t r' -> r = r'.
Proof.
  intros H H'. apply rendered_serialized in H, H'.
  exact (serialized_as_unique _ _ _ _ H H').
Qed.

Lemma no_summarize_format argv :
  (forall v, ~ In (SummarizeFormat v) argv) -> given_summarize_format argv = None.
Proof.
  intros Hno. unfold given_summarize_format. generalize (@None pystr).
  induction argv as [|t argv IH]; intros o; [reflexivity|].
  simpl. destruct t; try (apply IH; intros v' Hin; apply (Hno v'); right; exact Hin).
  exfalso. apply (Hno v). left; reflexivity.
Qed.

Section ReportAndFormats.
Variable isdecimal : codepoint -> bool.

(** A row is dated ['N/A'] exactly when the label of its record holds no
    date-shaped substring. *)
Lemma row_unknown_iff record row :
  row_of isdecimal record row ->
  is_unknown_row row = true <-> ~ contains_date isdecimal (id record).
Proof.
  intros (file & idx & Hrow).
  destruct (sequence_row_fields isdecimal file idx record)
    as (row' & _ & _ & _ & E & _ & _ & Hiso & _).
  rewrite Hrow in E; injection E as <-.
  unfold is_unknown_row. rewrite Hiso. apply sentinel_iff_undated.
Qed.

(** C10: in every run that completes, the report printed on standard error
    after the notices of [parse_sequences] holds three totals of the records
    the run read from the inputs it opened: the number read is the number of
    those records; the number unknown is the number of those whose label
    holds no date-shaped substring, which are the labels listed, in order;
    the number parsed properly is the number of the others; and read =
    parsed properly + unknown, every record being counted in exactly one of
    the two classes. *)
Theorem report_totals_add_up argv w w' :
  main isdecimal argv w = (inr tt, w') ->
  exists args w1 files w2 sequences unknown_labels w3 n_read n_parsed n_unknown,
    parse_args argv w = (inr args, w1) /\
    mapM (fun file => if negb (pystr_eqb file (u "-"))
                      then open_r file else ret sys_stdin)
         (paths args) w1 = (inr files, w2) /\
    parse_sequences isdecimal files w2 = (inr (sequences, unknown_labels), w3) /\
    stderr w' = stderr w ++ notices_of files ++
                report_lines n_read n_parsed n_unknown unknown_labels /\
    n_read = (n_parsed + n_unknown)%Z /\
    n_read = Z.of_nat (length (records_read files (stdin_records w2))) /\
    undated_labels isdecimal (map id (records_read files (stdin_records w2)))
                   unknown_labels /\
    n_unknown = Z.of_nat (length unknown_labels) /\
    Forall2 (fun record row =>
               row_of isdecimal record row /\
               (is_unknown_row row = true <-> ~ contains_date isdecimal (id record)))
            (records_read files (stdin_records w2)) sequences /\
    n_unknown = Z.of_nat (length (filter is_unknown_row sequences)) /\
    n_parsed = Z.of_nat (length (filter (fun row => negb (is_unknown_row row))
                                        sequences)).
Proof.
  intros H.
  destruct (main_stages isdecimal argv w _ w' H)
    as [(e & C & _)|[(e & args & w1 & C & _)|(args & w1 & files & w2 & Hargs & Hopen)]];
    try discriminate C.
  destruct (main_outcome isdecimal argv w args w1 files w2 _ w' Hargs Hopen H)
    as (r0 & summaries & _ & HF & _ & _ & _ & [(_ & Herr & _)|(e & C & _)]);
    [|discriminate C].
  destruct (parse_sequences_rows isdecimal files w2) as (w3 & Hp).
  fold (rows_read isdecimal files (stdin_records w2)) in Hp.
  set (sequences := rows_read isdecimal files (stdin_records w2)) in *.
  exists args, w1, files, w2, sequences, (unknown_rows sequences), w3.
  do 3 eexists.
  split; [exact Hargs|]. split; [exact Hopen|]. split; [exact Hp|].
  split; [exact Herr|].
  pose proof (unknown_rows_count isdecimal _ _ HF) as Hc.
  pose proof (filter_split is_unknown_row sequences) as Hs.
  pose proof (Forall2_length HF) as Hl.
  rewrite len_table.
  split; [lia|]. split; [lia|].
  split; [exact (undated_labels_rows isdecimal _ _ HF)|].
  split; [reflexivity|].
  split; [|split; lia].
  revert HF. apply Forall2_impl. intros record row Hrow.
  split; [exact Hrow | exact (row_unknown_iff _ _ Hrow)].
Qed.

(** C6: when the command line gives a summary prefix and no
    [--summarize-format], a run that completes has written, after the table,
    the three summaries of the records it read, to the three files of the
    prefix, each in the rendering of the format the command line gives for
    [--output-format]: tab-separated lines for [tsv], comma-separated lines
    for [csv], one object per line for [json]. *)
Theorem summaries_default_to_output_format argv w w' prefix :
  (forall v, ~ In (SummarizeFormat v) argv) ->
  given_summarize argv = Some prefix ->
  prefix <> [] ->
  main isdecimal argv w = (inr tt, w') ->
  exists args w1 files w2 r0 lit ty tm td ry rm rd,
    parse_args argv w = (inr args, w1) /\
    mapM (fun file => if negb (pystr_eqb file (u "-"))
                      then open_r file else ret sys_stdin)
         (paths args) w1 = (inr files, w2) /\
    literal_text prefix = Some lit /\
    summary_table (DataFrame_of_dicts (rows_read isdecimal files (stdin_records w2)))
                  [sequenceDateYear] = inr ty /\
    summary_table (DataFrame_of_dicts (rows_read isdecimal files (stdin_records w2)))
                  [sequenceDateYear; sequenceDateMonth] = inr tm /\
    summary_table (DataFrame_of_dicts (rows_read isdecimal files (stdin_records w2)))
                  [sequenceDateYear; sequenceDateMonth; sequenceDateDay] = inr td /\
    rendered_as (given_output_format argv) ty ry /\
    rendered_as (given_output_format argv) tm rm /\
    rendered_as (given_output_format argv) td rd /\
    written w' = written w ++ [ (output_filepath args, r0);
                                (Path (lit ++ u ".yearly"), ry);
                                (Path (lit ++ u ".monthly"), rm);
                                (Path (lit ++ u ".daily"), rd) ].
Proof.
  intros Hno Hprefix Hne H.
  destruct (main_stages isdecimal argv w _ w' H)
    as [(e & C & _)|[(e & args & w1 & C & _)|(args & w1 & files & w2 & Hargs & Hopen)]];
    try discriminate C.
  destruct (main_outcome isdecimal argv w args w1 files w2 _ w' Hargs Hopen H)
    as (r0 & summaries & _ & _ & Hw & _ & _ & [(_ & _ & Hsum)|(e & C & _)]);
    [|discriminate C].
  destruct (parse_args_options _ _ _ _ Hargs) as (Hof & Hs & Hsf & Hfmt).
  rewrite Hfmt in Hsum. unfold given_summary_format in Hsum.
  rewrite (no_summarize_format _ Hno) in Hsum.
  rewrite Hs, Hprefix in Hsum.
  destruct prefix as [|c prefix]; [congruence|]. cbn [truthy or_empty] in Hsum.
  destruct Hsum as (_ & lit & ty & tm & td & ry & rm & rd &
                    L & Ty & Tm & Td & Sy & Sm & Sd & ->).
  exists args, w1, files, w2, r0, lit, ty, tm, td, ry, rm, rd.
  split; [exact Hargs|]. split; [exact Hopen|]. split; [exact L|].
  split; [exact Ty|]. split; [exact Tm|]. split; [exact Td|].
  split; [exact (serialized_rendered _ _ _ Sy)|].
  split; [exact (serialized_rendered _ _ _ Sm)|].
  split; [exact (serialized_rendered _ _ _ Sd)|].
  exact Hw.
Qed.

(** C5: a format outside [json], [csv], [tsv], given for the table or for
    the summaries, makes the run stop in the argument parser with exit status
    2 and one usage error on standard error, for that option or for an
    output path before it that cannot be opened, and nothing is written.
    Conversely, on a command line the parser accepts no format is outside
    the three, and once the inputs are open the table of the records read is
    written in exactly one rendering, the one of the output format; every
    summary written is in the rendering of the summary format, and a run
    that completes has written the three summaries when the command line
    gives a prefix that is not empty and none otherwise. *)
Theorem unsupported_format_rejected argv w :
  (Exists invalid_token argv ->
   exists w' t argument bad,
     main isdecimal argv w = (inl (SystemExit 2), w') /\
     written w' = written w /\
     stderr w' = stderr w ++ [Usage argument bad] /\
     In t argv /\ refused (unwritable w) t argument bad)
  /\
  (forall args w1 files w2 r w',
     parse_args argv w = (inr args, w1) ->
     mapM (fun file => if negb (pystr_eqb file (u "-"))
                       then open_r file else ret sys_stdin)
          (paths args) w1 = (inr files, w2) ->
     main isdecimal argv w = (r, w') ->
     Forall (fun t => ~ invalid_token t) argv /\
     exists r0 rest,
       written w' = written w ++ (output_filepath args, r0) :: rest /\
       rendered_as (given_output_format argv)
         (DataFrame_of_dicts (rows_read isdecimal files (stdin_records w2))) r0 /\
       (forall r',
           rendered_as (given_output_format argv)
             (DataFrame_of_dicts (rows_read isdecimal files (stdin_records w2))) r' ->
           r' = r0) /\
       Forall (fun e => exists t, rendered_as (given_summary_format argv) t (snd e))
              rest /\
       (r = inr tt ->
        if truthy (given_summarize argv)
        then summary_files
               (DataFrame_of_dicts (rows_read isdecimal files (stdin_records w2)))
               (or_empty (given_summarize argv)) (given_summary_format argv) rest
        else rest = [])).
Proof.
  split.
  - intros Hbad.
    destruct (main_usage_error isdecimal argv w Hbad)
      as (w' & t & argument & bad & E & Hw & _ & Hu & Hin & Hr).
    exists w', t, argument, bad. auto.
  - intros args w1 files w2 r w' Hargs Hopen H.
    pose proof (parse_args_cases argv w) as Pa. rewrite Hargs in Pa.
    destruct Pa as (Hok & _). split; [exact Hok|].
    destruct (parse_args_options _ _ _ _ Hargs) as (Hof & Hs & _ & Hfmt).
    destruct (main_outcome isdecimal argv w args w1 files w2 r w' Hargs Hopen H)
      as (r0 & summaries & Hser & _ & Hw & _ & _ & Hend).
    rewrite Hof in Hser. apply serialized_rendered in Hser.
    exists r0, summaries. split; [exact Hw|]. split; [exact Hser|].
    split; [intros r' Hr'; exact (rendered_as_unique _ _ _ _ Hr' Hser)|].
    rewrite <- Hs, <- Hfmt.
    assert (Hall : forall entries,
               summary_entries
                 (DataFrame_of_dicts (rows_read isdecimal files (stdin_records w2)))
                 (or_empty (summarize args)) (summary_format_of args) entries ->
               Forall (fun e => exists t,
                           rendered_as (summary_format_of args) t (snd e)) entries).
    { intros entries (lit & ty & tm & td & ry & rm & rd &
                      _ & _ & _ & _ & Sy & Sm & Sd & ->).
      repeat constructor; eexists; apply serialized_rendered; eassumption. }
    destruct Hend as [(-> & _ & Hsum)|(e & -> & Ht & _ & Hcause)].
    + destruct (truthy (summarize args)).
      * destruct Hsum as (_ & Hent). split; [exact (Hall _ Hent)|].
        intros _. exact (summary_entries_files _ _ _ _ Hent).
      * subst summaries. split; [constructor | auto].
    + split; [|discriminate].
      destruct Hcause as [(_ & _ & ->)|[(_ & _ & _ & ->)|
                          (_ & entries & q & r1 & after & Hent & Hsplit & _)]];
        [constructor | constructor |].
      pose proof (Hall _ Hent) as Hf. rewrite Hsplit in Hf.
      apply Forall_app in Hf. apply Hf.
Qed.
End ReportAndFormats.

Lemma report_totals_add_up_witness :
  exists args w1 files w2 sequences unknown_labels w3 n_read n_parsed n_unknown,
    parse_args [Positional (u "a.fa"); OutputFormat (u "tsv"); Summarize (u "out")]
               example_world = (inr args, w1) /\
    mapM (fun file => if negb (pystr_eqb file (u "-"))
                      then open_r file else ret sys_stdin)
         (paths args) w1 = (inr files, w2) /\
    parse_sequences ascii_digit files w2 = (inr (sequences, unknown_labels), w3) /\
    stderr (snd (main ascii_digit
                   [Positional (u "a.fa"); OutputFormat (u "tsv"); Summarize (u "out")]
                   example_world))
    = stderr example_world ++ notices_of files ++
      report_lines n_read n_parsed n_unknown unknown_labels /\
    n_read = (n_parsed + n_unknown)%Z /\
    n_read = Z.of_nat (length (records_read files (stdin_records w2))) /\
    undated_labels ascii_digit (map id (records_read files (stdin_records w2)))
                   unknown_labels /\
    n_unknown = Z.of_nat (length unknown_labels) /\
    Forall2 (fun record row =>
               row_of ascii_digit record row /\
               (is_unknown_row row = true <-> ~ contains_date ascii_digit (id record)))
            (records_read files (stdin_records w2)) sequences /\
    n_unknown = Z.of_nat (length (filter is_unknown_row sequences)) /\
    n_parsed = Z.of_nat (length (filter (fun row => negb (is_unknown_row row))
                                        sequences)).
Proof.
  apply (report_totals_add_up ascii_digit
           [Positional (u "a.fa"); OutputFormat (u "tsv"); Summarize (u "out")]
           example_world).
  vm_compute. reflexivity.
Defined.

Lemma summaries_default_to_output_format_witness :
  exists args w1 files w2 r0 lit ty tm td ry rm rd,
    parse_args [Positional (u "a.fa"); OutputFormat (u "tsv"); Summarize (u "out")]
               example_world = (inr args, w1) /\
    mapM (fun file => if negb (pystr_eqb file (u "-"))
                      then open_r file else ret sys_stdin)
         (paths args) w1 = (inr files, w2) /\
    literal_text (u "out") = Some lit /\
    summary_table (DataFrame_of_dicts (rows_read ascii_digit files (stdin_records w2)))
                  [sequenceDateYear] = inr ty /\
    summary_table (DataFrame_of_dicts (rows_read ascii_digit files (stdin_records w2)))
                  [sequenceDateYear; sequenceDateMonth] = inr tm /\
    summary_table (DataFrame_of_dicts (rows_read ascii_digit files (stdin_records w2)))
                  [sequenceDateYear; sequenceDateMonth; sequenceDateDay] = inr td /\
    rendered_as (given_output_format
                   [Positional (u "a.fa"); OutputFormat (u "tsv"); Summarize (u "out")])
                ty ry /\
    rendered_as (given_output_format
                   [Positional (u "a.fa"); OutputFormat (u "tsv"); Summarize (u "out")])
                tm rm /\
    rendered_as (given_output_format
                   [Positional (u "a.fa"); OutputFormat (u "tsv"); Summarize (u "out")])
                td rd /\
    written (snd (main ascii_digit
                    [Positional (u "a.fa"); OutputFormat (u "tsv"); Summarize (u "out")]
                    example_world))
    = written example_world ++ [ (output_filepath args, r0);
                                 (Path (lit ++ u ".yearly"), ry);
                                 (Path (lit ++ u ".monthly"), rm);
                                 (Path (lit ++ u ".daily"), rd) ].
Proof.
  apply (summaries_default_to_output_format ascii_digit
           [Positional (u "a.fa"); OutputFormat (u "tsv"); Summarize (u "out")]
           example_world).
  - intros v [H|[H|[H|[]]]]; discriminate H.
  - vm_compute. reflexivity.
  - discriminate.
  - vm_compute. reflexivity.
Defined.

Lemma unsupported_format_rejected_witness :
  (exists w' t argument bad,
      main ascii_digit [Positional (u "a.fa"); OutputFormat (u "xml")] example_world
      = (inl (SystemExit 2), w') /\
      written w' = written example_world /\
      stderr w' = stderr example_world ++ [Usage argument bad] /\
      In t [Positional (u "a.fa"); OutputFormat (u "xml")] /\
      refused (unwritable example_world) t argument bad)
  /\
  (Forall (fun t => ~ invalid_token t)
          [Positional (u "a.fa"); SummarizeFormat (u "csv"); Summarize (u "out")] /\
   exists r0 rest,
     written (snd (main ascii_digit
                     [Positional (u "a.fa"); SummarizeFormat (u "csv");
                      Summarize (u "out")] example_world))
     = written example_world ++ (Stdout, r0) :: rest /\
     rendered_as (given_output_format
                    [Positional (u "a.fa"); SummarizeFormat (u "csv");
                     Summarize (u "out")])
       (DataFrame_of_dicts (rows_read ascii_digit [example_file] [])) r0 /\
     (forall r',
         rendered_as (given_output_format
                        [Positional (u "a.fa"); SummarizeFormat (u "csv");
                         Summarize (u "out")])
           (DataFrame_of_dicts (rows_read ascii_digit [example_file] [])) r' ->
         r' = r0) /\
     Forall (fun e => exists t,
                 rendered_as (given_summary_format
                                [Positional (u "a.fa"); SummarizeFormat (u "csv");
                                 Summarize (u "out")]) t (snd e))
            rest /\
     (@inr exn unit tt = inr tt ->
      if truthy (given_summarize
                   [Positional (u "a.fa"); SummarizeFormat (u "csv");
                    Summarize (u "out")])
      then summary_files
             (DataFrame_of_dicts (rows_read ascii_digit [example_file] []))
             (or_empty (given_summarize
                          [Positional (u "a.fa"); SummarizeFormat (u "csv");
                           Summarize (u "out")]))
             (given_summary_format
                [Positional (u "a.fa"); SummarizeFormat (u "csv");
                 Summarize (u "out")]) rest
      else rest = [])).
Proof.
  split.
  - apply (proj1 (unsupported_format_rejected ascii_digit
                    [Positional (u "a.fa"); OutputFormat (u "xml")] example_world)).
    right; left. reflexivity.
  - apply (proj2 (unsupported_format_rejected ascii_digit
                    [Positional (u "a.fa"); SummarizeFormat (u "csv");
                     Summarize (u "out")] example_world)
             {| paths := [u "a.fa"]; output_filepath := Stdout;
                output_format := u "json"; summarize := Some (u "out");
                summarize_format := Some (u "csv") |}
             example_world [example_file]
             (snd (mapM (fun file => if negb (pystr_eqb file (u "-"))
                                     then open_r file else ret sys_stdin)
                        [u "a.fa"] example_world))
             (inr tt)
             (snd (main ascii_digit
                     [Positional (u "a.fa"); SummarizeFormat (u "csv");
                      Summarize (u "out")] example_world))).
    + vm_compute. reflexivity.
    + vm_compute. reflexivity.
    + vm_compute. reflexivity.
Defined.


(** ** How a run ends *)

(** A missing input: the handles for the paths before it were opened, in
    order, and nothing else changed. *)
Lemma open_inputs_raises paths w e w' :
  mapM (fun file => if negb (pystr_eqb file (u "-"))
                    then open_r file else ret sys_stdin) paths w = (inl e, w') ->
  exists before p after opened,
    paths = before ++ p :: after /\
    e = FileNotFoundError p /\ p <> u "-" /\
    disk_get (disk w) (realpath w p) = None /\
    Forall2 (handle_for w) before opened /\
    open_files w' = open_files w ++ named_files opened.
Proof.
  revert w e w'; induction paths as [|p paths IH]; intros w e w'; simpl.
  - discriminate.
  - destruct (pystr_eqb p (u "-")) eqn:Ep; simpl.
    + apply pystr_eqb_eq in Ep. unfold bind at 1. unfold ret at 1. unfold bind.
      destruct (mapM _ paths w) as [[e0|files0] w2] eqn:E2; [|discriminate].
      intros E; injection E as <- <-.
      destruct (IH _ _ _ E2) as (before & q & after & opened & -> & He & Hq & Hd & HF & Ho).
      exists (p :: before), q, after, (sys_stdin :: opened).
      split; [reflexivity|]. split; [exact He|]. split; [exact Hq|].
      split; [exact Hd|]. split; [constructor; [left; auto | exact HF]|].
      exact Ho.
    + apply pystr_eqb_neq in Ep. unfold bind at 1. unfold open_r at 1.
      destruct (disk_get (disk w) (realpath w p)) as [content|] eqn:Ed.
      * unfold bind.
        match goal with
        | |- context [mapM ?f paths ?w1] =>
            destruct (mapM f paths w1) as [[e0|files0] w2] eqn:E2; [|discriminate];
            destruct (IH _ _ _ E2)
              as (before & q & after & opened & -> & He & Hq & Hd & HF & Ho)
        end.
        intros E; injection E as <- <-. cbn [disk open_files realpath] in Hd, Ho.
        exists (p :: before), q, after,
               (TextIO (next_fileno w) p content :: opened).
        split; [reflexivity|]. split; [exact He|]. split; [exact Hq|].
        split; [exact Hd|]. split.
        -- constructor; [right; split; [exact Ep|]; eauto|].
           revert HF. apply Forall2_impl. intros q' g.
           apply handle_for_same; reflexivity.
        -- rewrite Ho. cbn [named_files filter is_sys_stdin negb].
           rewrite <- app_assoc. reflexivity.
      * intros E; injection E as <- <-.
        exists [], p, paths, []. cbn [named_files filter].
        rewrite app_nil_r. repeat split; auto.
Qed.

Lemma paths_positional argv w args w1 p :
  parse_args argv w = (inr args, w1) ->
  In p (paths args) -> p <> u "-" -> In (Positional p) argv.
Proof.
  intros Hargs Hin Hp.
  destruct (parse_args_paths_disk _ _ _ _ Hargs) as (Hpaths & _).
  assert (Hpos : In p (positionals argv)).
  { rewrite Hpaths in Hin. destruct (positionals argv); [|exact Hin].
    destruct Hin as [E|[]]. congruence. }
  unfold positionals in Hpos. apply in_flat_map in Hpos as (t & Ht & Hpt).
  destruct t as [q|q|v|v|v]; simpl in Hpt; try contradiction.
  destruct Hpt as [->|[]]. exact Ht.
Qed.

Section RunOutcomes.
Variable isdecimal : codepoint -> bool.

(** X11: a named input that does not exist ends the run with
    [FileNotFoundError] before anything is parsed, written or reported.  The
    path is a positional argument of the command line, other than [-]; the
    inputs before it on the command line have been opened, in order, and
    exactly their handles have been added to the open files, where they are
    left; no output has been written, nothing has been printed and standard
    input has not been read. *)
Theorem missing_input_aborts_before_output argv w p w' :
  main isdecimal argv w = (inl (FileNotFoundError p), w') ->
  exists args w1 before after opened,
    parse_args argv w = (inr args, w1) /\
    paths args = before ++ p :: after /\
    In (Positional p) argv /\ p <> u "-" /\ disk_get (disk w1) (realpath w1 p) = None /\
    Forall2 (handle_for w1) before opened /\
    open_files w' = open_files w ++ named_files opened /\
    written w' = written w /\ stderr w' = stderr w /\
    stdin_records w' = stdin_records w.
Proof.
  intros H.
  destruct (main_stages isdecimal argv w _ w' H)
    as [(e & He & Hp)|[(e & args & w1 & He & Hargs & Hopen)|
                       (args & w1 & files & w2 & Hargs & Hopen)]].
  - injection He as <-.
    pose proof (parse_args_cases argv w) as Pa. rewrite Hp in Pa.
    destruct Pa as (C & _). discriminate C.
  - injection He as <-.
    pose proof (parse_args_cases argv w) as Pa. rewrite Hargs in Pa.
    destruct Pa as (_ & _ & _ & Pa_i & Pa_o & _ & Pa_e & Pa_w).
    destruct (open_inputs_raises _ _ _ _ Hopen)
      as (before & q & after & opened & Hpaths & He & Hq & Hd & HF & Ho).
    injection He as ->.
    pose proof (open_inputs _ _ _ _ Hopen) as (_ & Hi & Hs & Hw & _).
    exists args, w1, before, after, opened.
    split; [exact Hargs|]. split; [exact Hpaths|].
    split; [apply (paths_positional _ _ _ _ _ Hargs); [|exact Hq];
            rewrite Hpaths; apply in_or_app; right; left; reflexivity|].
    split; [exact Hq|]. split; [exact Hd|]. split; [exact HF|].
    split; [rewrite Ho, Pa_o; reflexivity|].
    repeat split; congruence.
  - exfalso.
    destruct (main_outcome isdecimal argv w args w1 files w2 _ w' Hargs Hopen H)
      as (r0 & summaries & _ & _ & Hw & _ & _ & [(C & _)|(e & He & _ & _ & Hcause)]);
      [discriminate C|].
    injection He as <-.
    destruct Hcause as [(_ & C & _)|[(_ & _ & C & _)|
                        (_ & entries & q & r1 & after & _ & _ & C & _)]];
      try discriminate C.
    destruct (format_raises w _ _); discriminate C.
Qed.


End RunOutcomes.

Lemma missing_input_aborts_before_output_witness :
  exists args w1 before after opened,
    parse_args [Positional (u "a.fa"); Positional (u "missing.fa")] example_world
    = (inr args, w1) /\
    paths args = before ++ u "missing.fa" :: after /\
    In (Positional (u "missing.fa"))
       [Positional (u "a.fa"); Positional (u "missing.fa")] /\
    u "missing.fa" <> u "-" /\
    disk_get (disk w1) (realpath w1 (u "missing.fa")) = None /\
    Forall2 (handle_for w1) before opened /\
    open_files (snd (main ascii_digit
                       [Positional (u "a.fa"); Positional (u "missing.fa")]
                       example_world))
    = open_files example_world ++ named_files opened /\
    written (snd (main ascii_digit
                    [Positional (u "a.fa"); Positional (u "missing.fa")]
                    example_world)) = written example_world /\
    stderr (snd (main ascii_digit
                   [Positional (u "a.fa"); Positional (u "missing.fa")]
                   example_world)) = stderr example_world /\
    stdin_records (snd (main ascii_digit
                          [Positional (u "a.fa"); Positional (u "missing.fa")]
                          example_world)) = stdin_records example_world.
Proof.
  apply (missing_input_aborts_before_output ascii_digit
           [Positional (u "a.fa"); Positional (u "missing.fa")] example_world
           (u "missing.fa")).
  vm_compute. reflexivity.
Defined.



(** ** Two runs on the same inputs *)

Lemma alike_step {A B} (R : A -> B -> Prop) w1 w2
  (r1 : exn + A) (r2 : exn + B) w1' w2' entries items :
  same_inputs w1' w2' ->
  written w1' = written w1 ++ entries -> written w2' = written w2 ++ entries ->
  stderr w1' = stderr w1 ++ items -> stderr w2' = stderr w2 ++ items ->
  match r1, r2 with
  | inl e1, inl e2 => e1 = e2
  | inr a, inr b => R a b
  | _, _ => False
  end ->
  alike R w1 w2 (r1, w1') (r2, w2').
Proof. intros. unfold alike; simpl. eauto 10. Qed.

Lemma alike_same {A B} (R : A -> B -> Prop) w1 w2 (r1 : exn + A) (r2 : exn + B) :
  same_inputs w1 w2 ->
  match r1, r2 with
  | inl e1, inl e2 => e1 = e2
  | inr a, inr b => R a b
  | _, _ => False
  end ->
  alike R w1 w2 (r1, w1) (r2, w2).
Proof.
  intros S H. apply (alike_step R w1 w2 r1 r2 w1 w2 [] []);
    try (symmetry; apply app_nil_r); assumption.
Qed.

Lemma sim_ret {A B} (R : A -> B -> Prop) a b : R a b -> sim R (ret a) (ret b).
Proof. intros H w1 w2 S. apply alike_same; assumption. Qed.

Lemma sim_lift {A} (r : exn + A) : sim eq (lift r) (lift r).
Proof. intros w1 w2 S. apply alike_same; [exact S|]. destruct r; reflexivity. Qed.

Lemma sim_bind {A A' B B'} (R : A -> A' -> Prop) (S : B -> B' -> Prop)
  (c1 : M A) (c2 : M A') (k1 : A -> M B) (k2 : A' -> M B') :
  sim R c1 c2 ->
  (forall a a', R a a' -> sim S (k1 a) (k2 a')) ->
  sim S (bind c1 k1) (bind c2 k2).
Proof.
  intros Hc Hk w1 w2 Hs. unfold bind. specialize (Hc w1 w2 Hs).
  destruct (c1 w1) as [[e1|a1] w1'], (c2 w2) as [[e2|a2] w2'];
    unfold alike in Hc; cbn [fst snd] in Hc.
  - exact Hc.
  - destruct Hc as (_ & _ & _ & []).
  - destruct Hc as (_ & _ & _ & []).
  - destruct Hc as (Hs' & (en & W1 & W2) & (it & E1 & E2) & HR).
    specialize (Hk _ _ HR w1' w2' Hs').
    destruct (k1 a1 w1') as [r1 w1''], (k2 a2 w2') as [r2 w2''].
    destruct Hk as (Hs'' & (en' & W1' & W2') & (it' & E1' & E2') & HS).
    cbn [fst snd] in *.
    apply (alike_step S w1 w2 r1 r2 w1'' w2'' (en ++ en') (it ++ it'));
      try assumption; rewrite app_assoc; congruence.
Qed.

Lemma sim_foldM {A A' St St'} (RE : A -> A' -> Prop) (RS : St -> St' -> Prop)
  (body1 : St -> A -> M St) (body2 : St' -> A' -> M St') l1 l2 :
  Forall2 RE l1 l2 ->
  (forall s s' x x', RS s s' -> RE x x' -> sim RS (body1 s x) (body2 s' x')) ->
  forall s s', RS s s' -> sim RS (foldM body1 l1 s) (foldM body2 l2 s').
Proof.
  intros HF Hb. induction HF as [|x x' l1 l2 Hx _ IH]; intros s s' Hss; simpl.
  - apply sim_ret. exact Hss.
  - apply (sim_bind RS RS); [apply Hb; assumption | exact IH].
Qed.

Lemma sim_mapM {A A' B B'} (RE : A -> A' -> Prop) (RB : B -> B' -> Prop)
  (f1 : A -> M B) (f2 : A' -> M B') l1 l2 :
  Forall2 RE l1 l2 ->
  (forall x x', RE x x' -> sim RB (f1 x) (f2 x')) ->
  sim (Forall2 RB) (mapM f1 l1) (mapM f2 l2).
Proof.
  intros HF Hf. induction HF as [|x x' l1 l2 Hx _ IH]; simpl.
  - apply sim_ret. constructor.
  - apply (sim_bind RB (Forall2 RB)); [apply Hf; exact Hx|].
    intros y y' Hy. apply (sim_bind (Forall2 RB) (Forall2 RB)); [exact IH|].
    intros ys ys' Hys. apply sim_ret. constructor; assumption.
Qed.

Lemma sim_for_each {A A'} (RE : A -> A' -> Prop)
  (body1 : A -> M unit) (body2 : A' -> M unit) l1 l2 :
  Forall2 RE l1 l2 ->
  (forall x x', RE x x' -> sim eq (body1 x) (body2 x')) ->
  sim eq (for_each l1 body1) (for_each l2 body2).
Proof.
  intros HF Hb. induction HF as [|x x' l1 l2 Hx _ IH]; simpl.
  - apply sim_ret. reflexivity.
  - apply (sim_bind eq eq); [apply Hb; exact Hx | intros _ _ _; exact IH].
Qed.

Lemma Forall2_same {A} (l : list A) : Forall2 eq l l.
Proof. induction l; constructor; auto. Qed.

Lemma sim_print line : sim eq (print line) (print line).
Proof.
  intros w1 w2 (Hd & Hi & Hu & Hf & Hr).
  apply (alike_step eq w1 w2 _ _ _ _ [] [Printed line]); simpl;
    try (symmetry; apply app_nil_r); try reflexivity.
  repeat split; assumption.
Qed.

Lemma sim_open_r path : sim same_handle (open_r path) (open_r path).
Proof.
  intros w1 w2 (Hd & Hi & Hu & Hf & Hr). unfold open_r.
  rewrite <- Hr, <- (Hd (realpath w1 path)).
  destruct (disk_get (disk w1) (realpath w1 path)) as [content|].
  - apply (alike_step same_handle w1 w2 _ _ _ _ [] []); simpl;
      try (symmetry; apply app_nil_r); [|auto].
    repeat split; assumption.
  - apply alike_same; [repeat split; assumption | reflexivity].
Qed.

Lemma sim_SeqIO_parse f g :
  same_handle f g -> sim eq (SeqIO_parse f) (SeqIO_parse g).
Proof.
  intros H w1 w2 (Hd & Hi & Hu & Hf & Hr).
  destruct f as [|n p c], g as [|m q d]; simpl in H; try destruct H.
  - apply (alike_step eq w1 w2 _ _ _ _ [] []); simpl;
      try (symmetry; apply app_nil_r); [|exact Hi].
    repeat split; assumption.
  - subst. apply alike_same; [repeat split; assumption | reflexivity].
Qed.

Lemma sim_write d r : sim eq (write d r) (write d r).
Proof.
  intros w1 w2 (Hd & Hi & Hu & Hf & Hr).
  apply (alike_step eq w1 w2 _ _ _ _ [(d, r)] []); simpl;
    try (symmetry; apply app_nil_r); try reflexivity.
  repeat split; assumption.
Qed.

Lemma sim_write_path q r : sim eq (write_path q r) (write_path q r).
Proof.
  intros w1 w2 S. pose proof S as (Hd & Hi & Hu & Hf & Hr).
  unfold write_path. rewrite <- Hu.
  destruct (mem q (unwritable w1)).
  - apply alike_same; [exact S | reflexivity].
  - apply sim_write. exact S.
Qed.

Lemma sim_summary_filename prefix name :
  sim eq (summary_filename prefix name) (summary_filename prefix name).
Proof.
  intros w1 w2 S. pose proof S as (Hd & Hi & Hu & Hf & Hr).
  unfold summary_filename. rewrite <- Hf.
  destruct (literal_text prefix); apply alike_same; auto.
Qed.

Lemma sim_usage_error {A} argument bad :
  sim (@eq A) (usage_error argument bad) (usage_error argument bad).
Proof.
  intros w1 w2 (Hd & Hi & Hu & Hf & Hr).
  apply (alike_step eq w1 w2 _ _ _ _ [] [Usage argument bad]); simpl;
    try (symmetry; apply app_nil_r); try reflexivity.
  repeat split; assumption.
Qed.

Lemma sim_unrecognized {A} arguments :
  sim (@eq A) (unrecognized arguments) (unrecognized arguments).
Proof.
  intros w1 w2 (Hd & Hi & Hu & Hf & Hr).
  apply (alike_step eq w1 w2 _ _ _ _ [] [Unrecognized arguments]); simpl;
    try (symmetry; apply app_nil_r); try reflexivity.
  repeat split; assumption.
Qed.

Lemma sim_FileType_w path : sim eq (FileType_w path) (FileType_w path).
Proof.
  unfold FileType_w. destruct (pystr_eqb path (u "-")); [apply sim_ret; reflexivity|].
  intros w1 w2 S. pose proof S as (Hd & Hi & Hu & Hf & Hr). rewrite <- Hu.
  destruct (mem path (unwritable w1)); [apply sim_usage_error; exact S|].
  apply (alike_step eq w1 w2 _ _ _ _ [] []); simpl;
    try (symmetry; apply app_nil_r); try reflexivity.
  split; [|auto]. intros p. simpl. rewrite (Hd p), Hr. reflexivity.
Qed.

Lemma sim_consume st t : sim eq (consume st t) (consume st t).
Proof.
  destruct t as [p|p|v|v|v]; cbn -[mem format_choices].
  - destruct (paths_filled st); apply sim_ret; reflexivity.
  - apply (sim_bind eq eq); [apply sim_FileType_w|].
    intros d d' <-. apply sim_ret; reflexivity.
  - destruct (mem v format_choices); [apply sim_ret; reflexivity|].
    apply sim_usage_error.
  - apply sim_ret; reflexivity.
  - destruct (mem v format_choices); [apply sim_ret; reflexivity|].
    apply sim_usage_error.
Qed.

Lemma sim_parse_args argv : sim eq (parse_args argv) (parse_args argv).
Proof.
  unfold parse_args. apply (sim_bind eq eq).
  - apply (sim_foldM eq eq); [apply Forall2_same | | reflexivity].
    intros s s' x x' <- <-. apply sim_consume.
  - intros st st' <-. destruct (extras st); [apply sim_ret; reflexivity|].
    apply sim_unrecognized.
Qed.

Lemma sim_open_inputs paths :
  sim (Forall2 same_handle)
      (mapM (fun file => if negb (pystr_eqb file (u "-"))
                         then open_r file else ret sys_stdin) paths)
      (mapM (fun file => if negb (pystr_eqb file (u "-"))
                         then open_r file else ret sys_stdin) paths).
Proof.
  apply (sim_mapM eq same_handle); [apply Forall2_same|].
  intros p p' <-. destruct (negb (pystr_eqb p (u "-")));
    [apply sim_open_r | apply sim_ret; exact I].
Qed.

Lemma same_handle_name f g : same_handle f g -> file_name f = file_name g.
Proof.
  destruct f as [|n p c], g as [|m q d]; simpl; intros H;
    try destruct H; [reflexivity | assumption].
Qed.

Lemma same_handle_stdin f g : same_handle f g -> is_sys_stdin f = is_sys_stdin g.
Proof.
  destruct f as [|n p c], g as [|m q d]; simpl; intros H;
    try destruct H; reflexivity.
Qed.

Lemma same_handle_row isdecimal f g idx record :
  same_handle f g ->
  sequence_row isdecimal f idx record = sequence_row isdecimal g idx record.
Proof.
  intros H. unfold sequence_row. rewrite (same_handle_name _ _ H). reflexivity.
Qed.

Section TwoRuns.
Variable isdecimal : codepoint -> bool.

Lemma sim_parse_sequences files files' :
  Forall2 same_handle files files' ->
  sim eq (parse_sequences isdecimal files) (parse_sequences isdecimal files').
Proof.
  intros HF. unfold parse_sequences.
  apply (sim_foldM same_handle eq); [exact HF | | reflexivity].
  intros acc acc' f g <- Hfg.
  apply (sim_bind eq eq).
  - rewrite <- (same_handle_name _ _ Hfg).
    destruct (pystr_eqb (file_name f) (u "<stdin>"));
      [apply sim_print | apply sim_ret; reflexivity].
  - intros _ _ _. apply (sim_bind eq eq); [apply sim_SeqIO_parse; exact Hfg|].
    intros records records' <-.
    apply (sim_foldM eq eq); [apply Forall2_same | | reflexivity].
    intros [sequences unknown_labels] s' [idx record] x' <- <-.
    rewrite <- (same_handle_row isdecimal _ _ idx record Hfg).
    apply (sim_bind eq eq); [apply sim_lift|].
    intros row row' <-. apply sim_ret. reflexivity.
Qed.

Lemma sim_output_summaries df prefix fmt :
  sim eq (output_summaries df prefix fmt) (output_summaries df prefix fmt).
Proof.
  unfold output_summaries.
  apply (sim_for_each eq); [apply Forall2_same|].
  intros [name by_] x' <-.
  apply (sim_bind eq eq); [apply sim_lift|].
  intros series series' <-.
  apply (sim_bind eq eq); [apply sim_summary_filename|].
  intros filename filename' <-.
  destruct (pystr_eqb fmt (u "json")); [apply sim_write_path|].
  destruct (pystr_eqb fmt (u "csv")); [apply sim_write_path|].
  destruct (pystr_eqb fmt (u "tsv")); [apply sim_write_path|].
  apply sim_ret. reflexivity.
Qed.

(** Two runs of [main] on the same command line, from worlds that hold the
    same inputs, end alike. *)
Lemma sim_main argv : sim eq (main isdecimal argv) (main isdecimal argv).
Proof.
  unfold main.
  apply (sim_bind eq eq); [apply sim_parse_args|].
  intros args args' <-.
  apply (sim_bind (Forall2 same_handle) eq); [apply sim_open_inputs|].
  intros files files' Hfiles.
  apply (sim_bind eq eq); [apply sim_parse_sequences; exact Hfiles|].
  intros [sequences unknown_labels] parsed' <-.
  apply (sim_bind eq eq).
  { destruct (pystr_eqb (output_format args) (u "json")); [apply sim_write|].
    destruct (pystr_eqb (output_format args) (u "csv")); [apply sim_write|].
    destruct (pystr_eqb (output_format args) (u "tsv")); [apply sim_write|].
    apply sim_ret. reflexivity. }
  intros _ _ _.
  apply (sim_bind eq eq).
  { destruct (truthy (summarize args));
      [apply sim_output_summaries | apply sim_ret; reflexivity]. }
  intros _ _ _.
  apply (sim_bind eq eq); [apply sim_print|]. intros _ _ _.
  apply (sim_bind eq eq); [apply sim_print|]. intros _ _ _.
  apply (sim_bind eq eq); [apply sim_print|]. intros _ _ _.
  apply (sim_bind eq eq).
  { destruct unknown_labels as [|l ls]; [apply sim_ret; reflexivity|].
    apply (sim_bind eq eq); [apply sim_print|]. intros _ _ _.
    apply (sim_for_each eq); [apply Forall2_same|].
    intros x x' <-. apply sim_print. }
  intros _ _ _.
  apply (sim_for_each same_handle); [exact Hfiles|].
  intros f g Hfg. rewrite <- (same_handle_stdin _ _ Hfg).
  destruct (negb (is_sys_stdin f)); apply sim_ret; reflexivity.
Qed.
End TwoRuns.

Section Determinism.
Variable isdecimal : codepoint -> bool.

(** C7: what a run writes is fixed by the command line and the inputs.  Two
    runs on the same command line, from two worlds that hold the same files
    with the same records and the same standard input (the handles open, the
    file numbers and what was printed and written before may differ), end
    alike and write the same renderings to the same destinations in the same
    order, so the same bytes.  In a run that completes the order is this:
    first the table of the records read from the inputs, with the columns in
    the order of the dict literal and one row per record in the order the
    records were read, in the rendering of the output format; then the
    summaries, each with its lines in strictly ascending key order, in the
    rendering of the summary format. *)
Theorem serialization_deterministic
  (json_string : pystr -> pystr) (csv_field : codepoint -> pystr -> pystr)
  argv w1 w2 r1 w1' r2 w2' :
  same_inputs w1 w2 ->
  main isdecimal argv w1 = (r1, w1') ->
  main isdecimal argv w2 = (r2, w2') ->
  r1 = r2 /\
  exists entries,
    written w1' = written w1 ++ entries /\
    written w2' = written w2 ++ entries /\
    (written w1 = written w2 ->
     output_bytes json_string csv_field w1'
     = output_bytes json_string csv_field w2') /\
    (r1 = inr tt ->
     exists args wa files wb r0 summaries,
       parse_args argv w1 = (inr args, wa) /\
       mapM (fun file => if negb (pystr_eqb file (u "-"))
                         then open_r file else ret sys_stdin)
            (paths args) wa = (inr files, wb) /\
       entries = (output_filepath args, r0) :: summaries /\
       rendered_as (output_format args)
         (DataFrame_of_dicts (rows_read isdecimal files (stdin_records wb))) r0 /\
       (records_read files (stdin_records wb) <> [] ->
        columns (DataFrame_of_dicts (rows_read isdecimal files (stdin_records wb)))
        = sequence_fields /\
        Forall2 (fun record cells => record_cells cells /\
                                     hd NaN cells = VStr (id record))
                (records_read files (stdin_records wb))
                (rows (DataFrame_of_dicts
                         (rows_read isdecimal files (stdin_records wb))))) /\
       Forall (fun e => exists t,
                   ascending_table t /\
                   rendered_as (summary_format_of args) t (snd e))
              summaries).
Proof.
  intros Hsame H1 H2.
  pose proof (sim_main isdecimal argv w1 w2 Hsame) as Hsim.
  rewrite H1, H2 in Hsim.
  destruct Hsim as (_ & (entries & W1 & W2) & _ & Hres). cbn [fst snd] in *.
  assert (Hr : r1 = r2).
  { destruct r1 as [e1|[]], r2 as [e2|[]]; try destruct Hres; reflexivity. }
  split; [exact Hr|].
  exists entries. split; [exact W1|]. split; [exact W2|].
  split; [intros Hw; unfold output_bytes; rewrite W1, W2, Hw; reflexivity|].
  intros ->.
  destruct (main_stages isdecimal argv w1 _ w1' H1)
    as [(e & C & _)|[(e & args & wa & C & _)|(args & wa & files & wb & Hargs & Hopen)]];
    try discriminate C.
  destruct (main_outcome isdecimal argv w1 args wa files wb _ w1' Hargs Hopen H1)
    as (r0 & summaries & Hser & HF & Hw & _ & _ & [(_ & _ & Hsum)|(e & C & _)]);
    [|discriminate C].
  exists args, wa, files, wb, r0, summaries.
  split; [exact Hargs|]. split; [exact Hopen|].
  split; [rewrite W1 in Hw; exact (app_inv_head _ _ _ Hw)|].
  split; [exact (serialized_rendered _ _ _ Hser)|].
  set (sequences := rows_read isdecimal files (stdin_records wb)) in *.
  split.
  - intros Hrec.
    assert (Hne : sequences <> []).
    { intros Hnil. rewrite Hnil in HF. inversion HF as [Hr'|]. congruence. }
    destruct (record_table isdecimal sequences Hne (chunk_rows_built isdecimal _))
      as (Hc & Hrows & _).
    split; [exact Hc|]. rewrite Hrows.
    clear -HF. induction HF as [|record row records sequences (f & i & Hrow) _ IH];
      simpl; constructor; [|exact IH].
    split; [apply (sequence_row_cells _ _ _ _ _ Hrow)|].
    destruct (sequence_row_fields isdecimal f i record)
      as (row' & _ & _ & _ & E' & _ & Hl & _).
    rewrite Hrow in E'; injection E' as <-.
    destruct (sequence_row_cells _ _ _ _ _ Hrow) as (Hk & _).
    destruct row as [|[k v] row]; [discriminate|].
    injection Hk as -> _. unfold field in Hl. simpl in Hl. simpl.
    destruct v; congruence.
  - destruct (truthy (summarize args)); [|subst; constructor].
    destruct Hsum as (_ & lit & ty & tm & td & ry & rm & rd &
                      _ & Ty & Tm & Td & Sy & Sm & Sd & ->).
    repeat constructor; simpl; eexists;
      (split; [|apply serialized_rendered; eassumption]);
      eapply summary_table_ascending; eassumption.
Qed.
End Determinism.

Lemma serialization_deterministic_witness :
  @inr exn unit tt = inr tt /\
  exists entries,
    written (snd (main ascii_digit
                    [Positional (u "a.fa"); OutputFormat (u "tsv"); Summarize (u "out")]
                    example_world))
    = written example_world ++ entries /\
    written (snd (main ascii_digit
                    [Positional (u "a.fa"); OutputFormat (u "tsv"); Summarize (u "out")]
                    example_world_later))
    = written example_world_later ++ entries /\
    (written example_world = written example_world_later ->
     output_bytes (fun s => s) (fun _ s => s)
       (snd (main ascii_digit
               [Positional (u "a.fa"); OutputFormat (u "tsv"); Summarize (u "out")]
               example_world))
     = output_bytes (fun s => s) (fun _ s => s)
         (snd (main ascii_digit
                 [Positional (u "a.fa"); OutputFormat (u "tsv"); Summarize (u "out")]
                 example_world_later))) /\
    (@inr exn unit tt = inr tt ->
     exists args wa files wb r0 summaries,
       parse_args [Positional (u "a.fa"); OutputFormat (u "tsv"); Summarize (u "out")]
                  example_world = (inr args, wa) /\
       mapM (fun file => if negb (pystr_eqb file (u "-"))
                         then open_r file else ret sys_stdin)
            (paths args) wa = (inr files, wb) /\
       entries = (output_filepath args, r0) :: summaries /\
       rendered_as (output_format args)
         (DataFrame_of_dicts (rows_read ascii_digit files (stdin_records wb))) r0 /\
       (records_read files (stdin_records wb) <> [] ->
        columns (DataFrame_of_dicts (rows_read ascii_digit files (stdin_records wb)))
        = sequence_fields /\
        Forall2 (fun record cells => record_cells cells /\
                                     hd NaN cells = VStr (id record))
                (records_read files (stdin_records wb))
                (rows (DataFrame_of_dicts
                         (rows_read ascii_digit files (stdin_records wb))))) /\
       Forall (fun e => exists t,
                   ascending_table t /\
                   rendered_as (summary_format_of args) t (snd e))
              summaries).
Proof.
  apply (serialization_deterministic ascii_digit (fun s => s) (fun _ s => s)
           [Positional (u "a.fa"); OutputFormat (u "tsv"); Summarize (u "out")]
           example_world example_world_later
           (inr tt)
           (snd (main ascii_digit
                   [Positional (u "a.fa"); OutputFormat (u "tsv"); Summarize (u "out")]
                   example_world))
           (inr tt)
           (snd (main ascii_digit
                   [Positional (u "a.fa"); OutputFormat (u "tsv"); Summarize (u "out")]
                   example_world_later))).
  - split; [intros p; reflexivity | repeat split].
  - vm_compute. reflexivity.
  - vm_compute. reflexivity.
Defined.

(** ** Examples of runs that raise *)

(** A positional argument after an option that follows another one is left
    over: the parser exits with status 2 and nothing is read or written. *)
Example interleaved_positionals_rejected :
  exists w',
    main ascii_digit
      [Positional (u "a.fa"); OutputFormat (u "csv"); Positional (u "e.fa")]
      example_world = (inl (SystemExit 2), w') /\
    stderr w' = [Unrecognized [u "e.fa"]] /\
    written w' = [] /\ open_files w' = [].
Proof. eexists. split; [vm_compute; reflexivity|]. repeat split. Qed.

(** Positional arguments before or after all the options are taken. *)
Example positionals_after_options_accepted :
  exists args w1,
    parse_args [OutputFormat (u "csv"); Positional (u "a.fa"); Positional (u "e.fa")]
               example_world = (inr args, w1) /\
    paths args = [u "a.fa"; u "e.fa"] /\ output_format args = u "csv".
Proof. do 2 eexists. split; [vm_compute; reflexivity|]. split; reflexivity. Qed.

(** An output path that cannot be opened is a usage error of the parser, and
    it is reported before a format outside the choices that comes after it. *)
Example unopenable_output_rejected :
  exists w',
    main ascii_digit
      [Positional (u "a.fa"); OutputFilepath (u "nodir/out.json");
       OutputFormat (u "xml")]
      example_world = (inl (SystemExit 2), w') /\
    stderr w' = [Usage (u "-o/--output-filepath") (u "nodir/out.json")] /\
    written w' = [] /\ disk w' = disk example_world.
Proof. eexists. split; [vm_compute; reflexivity|]. repeat split. Qed.

(** Summaries under a directory that does not exist: the table is written,
    the first summary raises, the report is not printed. *)
Example summaries_in_missing_directory :
  exists w' table,
    main ascii_digit [Positional (u "a.fa"); Summarize (u "nodir/s")] example_world
    = (inl (OSError (u "nodir/s.yearly")), w') /\
    written w' = [(Stdout, table)] /\ stderr w' = [].
Proof. do 2 eexists. split; [vm_compute; reflexivity|]. split; reflexivity. Qed.

(** A prefix with a replacement field: the exception is the one [format]
    raises, here [KeyError] of the name of the field, as for the prefix
    [{sequenceDateYear}], although records were read. *)
Example named_field_in_prefix :
  exists w' table,
    main ascii_digit [Positional (u "a.fa"); Summarize (u "{sequenceDateYear}")]
      {| disk := disk example_world; stdin_records := []; open_files := [];
         next_fileno := 3; stderr := []; written := []; unwritable := [];
         format_raises := fun _ _ => FormatKeyError sequenceDateYear;
         realpath := fun p => p |}
    = (inl (KeyError sequenceDateYear), w') /\
    written w' = [(Stdout, table)] /\
    rows_read ascii_digit [example_file] [] <> [].
Proof.
  do 2 eexists. split; [vm_compute; reflexivity|].
  split; [reflexivity | vm_compute; discriminate].
Qed.

(** The bytes of a table without rows in the [json] rendering: one
    newline. *)
Example empty_table_bytes :
  bytes_of (fun s => s) (fun _ s => s) (to_json (DataFrame_of_dicts [])) = [newline].
Proof. reflexivity. Qed.

(** An output path given before a format outside the choices has been opened
    by then: the parser exits, no table is written, and the file is left
    empty, here the input [a.fa]. *)
Example output_emptied_before_format_error :
  exists w',
    main ascii_digit [OutputFilepath (u "a.fa"); OutputFormat (u "xml")] example_world
    = (inl (SystemExit 2), w') /\
    written w' = [] /\
    disk_get (disk example_world) (u "a.fa") = Some example_records /\
    disk_get (disk w') (u "a.fa") = Some [].
Proof. eexists. split; [vm_compute; reflexivity|]. repeat split. Qed.

(** ** Another name of the output file *)

(** X16: an input that names the same file as the [-o] destination, under
    the same path or under another one, is read as empty: the destination is
    opened for writing, and so emptied, while the arguments are parsed, and
    every handle [main] opens afterwards on a path of that file holds no
    record. *)
Theorem output_alias_empties_input argv w args w1 files w2 p :
  parse_args argv w = (inr args, w1) ->
  In (OutputFilepath p) argv ->
  p <> u "-" ->
  mapM (fun file => if negb (pystr_eqb file (u "-"))
                    then open_r file else ret sys_stdin)
       (paths args) w1 = (inr files, w2) ->
  Forall (fun f => match f with
                   | sys_stdin => True
                   | TextIO _ q content =>
                       realpath w q = realpath w p -> content = []
                   end) files.
Proof.
  intros Hargs Hin Hp Hopen.
  destruct (parse_args_paths_disk _ _ _ _ Hargs) as (_ & Hr & Hdisk).
  specialize (Hdisk p Hp Hin).
  pose proof (open_inputs_handles _ _ _ _ Hopen) as HF.
  clear -HF Hdisk Hr.
  induction HF as [|q f paths files Hh _ IH]; constructor; [|exact IH].
  destruct Hh as [[_ ->]|(_ & n' & c' & -> & Hd)]; [exact I|].
  intros E. rewrite Hr, E, <- Hr in Hd. congruence.
Qed.

Lemma output_alias_empties_input_witness :
  Forall (fun f => match f with
                   | sys_stdin => True
                   | TextIO _ q content =>
                       realpath example_world q = realpath example_world (u "a.fa") ->
                       content = []
                   end)
         [TextIO 3 (u "./a.fa") []; TextIO 4 (u "e.fa") []].
Proof.
  apply (output_alias_empties_input
           [Positional (u "./a.fa"); Positional (u "e.fa"); OutputFilepath (u "a.fa")]
           example_world
           {| paths := [u "./a.fa"; u "e.fa"]; output_filepath := Path (u "a.fa");
              output_format := u "json"; summarize := None;
              summarize_format := None |}
           (snd (parse_args [Positional (u "./a.fa"); Positional (u "e.fa");
                             OutputFilepath (u "a.fa")]
                            example_world))
           [TextIO 3 (u "./a.fa") []; TextIO 4 (u "e.fa") []]
           (snd (mapM (fun file => if negb (pystr_eqb file (u "-"))
                                   then open_r file else ret sys_stdin)
                      [u "./a.fa"; u "e.fa"]
                      (snd (parse_args [Positional (u "./a.fa"); Positional (u "e.fa");
                                        OutputFilepath (u "a.fa")]
                                       example_world))))
           (u "a.fa")).
  - vm_compute. reflexivity.
  - right; right; left. reflexivity.
  - discriminate.
  - vm_compute. reflexivity.
Defined.

(** The run on [./a.fa] with the output sent to [a.fa]: no record is left to
    read, the table written has no row, and the rows name the path given. *)
Example alias_overwritten_run :
  exists w',
    main ascii_digit [Positional (u "./a.fa"); OutputFilepath (u "a.fa")] example_world
    = (inr tt, w') /\
    written w' = [(Path (u "a.fa"), JsonLines [])] /\
    stderr w' = report_lines 0 0 0 [].
Proof. eexists. split; [vm_compute; reflexivity|]. split; reflexivity. Qed.

(** ** The command lines the parser takes *)




Lemma option_not_positional t :
  match t with Positional _ => False | _ => True end -> positionals [t] = [].
Proof. destruct t; simpl; tauto. Qed.


Lemma positionals_map ps : positionals (map Positional ps) = ps.
Proof. induction ps as [|p ps IH]; [reflexivity|]. simpl. f_equal. exact IH. Qed.








